(** * Configuration reconciliation of the lab-instrument drivers

    A shallow embedding of [fwp_lab_instruments.py]: the two methods that
    reconfigure an instrument only "if needed", [Osci.re_config_measure] and
    [Gen.re_config_output], together with the queries that fill their
    caches, [Osci.get_config_measure] and [Gen.get_config_output]; then the
    methods built on them ([__init__], [Gen.output], [Osci.measure],
    [Osci.get_config_screen]) and, from [fwp_save.py], [new_name] and
    [retrieve_header].

    Python objects are modelled as follows.
    - [str] is [string]; the text is ASCII, so [str.lower] acts on the
      letters A-Z only.
    - a number is a [number]: an [int] or a finite [float] is a rational
      [Q], and a [float] may also be one of the two infinities or nan.
      Numbers compare by value as Python's [==] does, so nan differs from
      every number, itself included.  The numbers read from the device's
      answers are finite.  How a number prints is left to two formatting
      functions.
    - a [dict] literal that is iterated is an association list in declaration
      order; a [dict] used as a cache is a [gmap].
    - the VISA resource is a [transport]: an abstract device state with a
      [write] that may fail and a read-only [query] that may fail.
    - a method is a function of the state monad [M], which threads the
      instance's attributes, may raise, and records what was printed and
      which commands were sent. *)

From Stdlib Require Import ZArith QArith String Ascii List Bool Lia.
From stdpp Require Import base option list gmap strings pretty.

Local Open Scope string_scope.
Local Open Scope list_scope.
Local Open Scope Z_scope.

(** ** Python strings *)

Definition lower_ascii (c : ascii) : ascii :=
  let n := N_of_ascii c in
  if ((65 <=? n) && (n <=? 90))%N then ascii_of_N (n + 32) else c.

Fixpoint lower (s : string) : string :=
  match s with
  | EmptyString => EmptyString
  | String c s' => String (lower_ascii c) (lower s')
  end.

Definition is_upper (c : ascii) : bool :=
  let n := N_of_ascii c in ((65 <=? n) && (n <=? 90))%N.

Lemma lower_ascii_not_upper c : is_upper (lower_ascii c) = false.
Proof.
  destruct c as [b0 b1 b2 b3 b4 b5 b6 b7].
  destruct b0, b1, b2, b3, b4, b5, b6, b7; reflexivity.
Qed.

(** A lowered string does not start with a capital letter. *)
Lemma lower_head x c rest : lower x = String c rest -> is_upper c = false.
Proof.
  destruct x as [|c0 x]; simpl; [discriminate|].
  intros [= <- _]. apply lower_ascii_not_upper.
Qed.

(** [is_in k s] is Python's [k in s] on strings: [k] occurs in [s] as a
    contiguous substring. *)
Fixpoint is_in (k s : string) : bool :=
  String.prefix k s ||
  match s with
  | EmptyString => false
  | String _ s' => is_in k s'
  end.

Lemma append_inv_head p a b : p +:+ a = p +:+ b -> a = b.
Proof. induction p as [|c p IH]; simpl; [auto|]. intros [= H]. apply IH, H. Qed.

(** ** Python values held by the caches *)

(** Python's numbers: an [int] or a finite [float], an infinite [float],
    or the [float] nan. *)
Inductive number : Type :=
  | Finite (q : Q)
  | Infinity (negative : bool)
  | NaN.

Coercion Finite : Q >-> number.
Bind Scope Q_scope with number.

(** [==] on numbers: by value, and nan equals nothing. *)
Definition num_eq (a b : number) : bool :=
  match a, b with
  | Finite p, Finite q => Qeq_bool p q
  | Infinity x, Infinity y => Bool.eqb x y
  | _, _ => false
  end.

Inductive value : Type :=
  | VBool (b : bool)
  | VStr (s : string)
  | VNum (x : number).

(** Python's [==]: numbers by value, [bool] as the integers 0 and 1, and
    values of unrelated types never equal. *)
Definition py_eq (a b : value) : bool :=
  match a, b with
  | VStr s, VStr t => String.eqb s t
  | VNum p, VNum q => num_eq p q
  | VBool x, VBool y => Bool.eqb x y
  | VBool x, VNum q => num_eq (Finite (if x then 1 else 0)) q
  | VNum q, VBool x => num_eq q (Finite (if x then 1 else 0))
  | _, _ => false
  end.

Definition py_ne (a b : value) : bool := negb (py_eq a b).

Definition VInt (z : Z) : value := VNum (Finite (inject_Z z)).

(** The one value that differs from itself. *)
Definition is_nan (v : value) : bool :=
  match v with
  | VNum NaN => true
  | _ => false
  end.

Lemma py_eq_refl v : is_nan v = false -> py_eq v v = true.
Proof.
  destruct v as [b|x|[q|b|]]; simpl; intros H.
  - destruct b; reflexivity.
  - apply String.eqb_refl.
  - apply Qeq_bool_iff. reflexivity.
  - destruct b; reflexivity.
  - discriminate H.
Qed.

Lemma py_ne_refl v : is_nan v = false -> py_ne v v = false.
Proof. intros H. unfold py_ne. rewrite (py_eq_refl v H). reflexivity. Qed.

(** nan differs from every value. *)
Lemma py_ne_nan u v : is_nan v = true -> py_ne u v = true.
Proof.
  destruct v as [b|x|[q|b|]]; try discriminate. intros _.
  destruct u as [b|x|[q|b|]]; reflexivity.
Qed.

(** [x in l] for a list of strings, as in [aux not in dic.values()]. *)
Definition str_in (x : string) (l : list string) : bool :=
  existsb (String.eqb x) l.

(** An ordered [dict] literal with string keys and values. *)
Definition table : Type := list (string * string).

Definition values (d : table) : list string := map snd d.

Fixpoint item (d : table) (k : string) : option string :=
  match d with
  | [] => None
  | (k', v) :: d' => if String.eqb k k' then Some v else item d' k
  end.

(** The entries of [d] whose key occurs in [s], in declaration order. *)
Definition matching (s : string) (d : table) : table :=
  List.filter (fun kv => is_in (fst kv) s) d.

(** ** Exceptions, observable events and the method monad *)

Inductive exn : Type :=
  | ValueError (msg : string)
  | KeyError (k : Z + string)
  | TypeError
  | UnboundLocalError (name : string)
  | VisaIOError
  | OtherError (tag : string).

Inductive event : Type :=
  | Print (line : string)
  | Write (cmd : string)
  | Query (cmd : string).

Inductive outcome (A : Type) : Type :=
  | Returns (a : A)
  | Raises (e : exn).
Arguments Returns {A} a.
Arguments Raises {A} e.

(** The VISA resource the drivers talk to.  [dev_write] returns the next
    device state, or [None] when the transport raises; [dev_query] is a
    read and returns the answer, or [None] when the transport raises. *)
Record transport : Type := {
  dev : Type;
  dev_write : dev -> string -> option dev;
  dev_query : dev -> string -> option string
}.

Definition M (S A : Type) : Type := S -> outcome A * S * list event.

Definition ret {S A} (a : A) : M S A := fun s => (Returns a, s, []).

Definition bind {S A B} (m : M S A) (f : A -> M S B) : M S B :=
  fun s =>
    match m s with
    | (Returns a, s1, t1) =>
        match f a s1 with
        | (r, s2, t2) => (r, s2, t1 ++ t2)
        end
    | (Raises e, s1, t1) => (Raises e, s1, t1)
    end.

Definition raise {S A} (e : exn) : M S A := fun s => (Raises e, s, []).

Definition emit {S} (ev : event) : M S unit := fun s => (Returns tt, s, [ev]).

Definition gets {S A} (f : S -> A) : M S A := fun s => (Returns (f s), s, []).

Definition modify {S} (f : S -> S) : M S unit := fun s => (Returns tt, f s, []).

(** [try: m except: h], with a bare [except] that catches everything. *)
Definition try_except {S A} (m h : M S A) : M S A :=
  fun s =>
    match m s with
    | (Returns a, s1, t1) => (Returns a, s1, t1)
    | (Raises _, s1, t1) =>
        match h s1 with
        | (r, s2, t2) => (r, s2, t1 ++ t2)
        end
    end.

#[global] Instance M_ret {S} : MRet (M S) := fun A => @ret S A.
#[global] Instance M_bind {S} : MBind (M S) := fun A B f m => @bind S A B m f.

Definition print {S} (line : string) : M S unit := emit (Print line).

Definition when {S} (b : bool) (m : M S unit) : M S unit :=
  if b then m else ret tt.

(** [lift_opt e o]: the value of [o], or raise [e]. *)
Definition lift_opt {S A} (e : exn) (o : option A) : M S A :=
  match o with
  | Some a => ret a
  | None => raise e
  end.

Definition lift_outcome {S A} (o : outcome A) : M S A :=
  match o with
  | Returns a => ret a
  | Raises e => raise e
  end.

(** [prepend ev x]: the result [x] of a run, with [ev] before its events. *)
Definition prepend {S A} (ev : event) (x : outcome A * S * list event)
    : outcome A * S * list event :=
  match x with
  | (r, s, t) => (r, s, ev :: t)
  end.

(** The writes among the events of a call. *)
Definition writes (t : list event) : list string :=
  omap (fun ev => match ev with Write c => Some c | _ => None end) t.

Definition queries (t : list event) : list string :=
  omap (fun ev => match ev with Query c => Some c | _ => None end) t.

Lemma bind_inv {S A B} (m : M S A) (f : A -> M S B) (s : S) r s' t :
  bind m f s = (r, s', t) ->
  (exists e, m s = (Raises e, s', t) /\ r = Raises e) \/
  (exists a s1 t1 t2, m s = (Returns a, s1, t1) /\ f a s1 = (r, s', t2) /\ t = t1 ++ t2).
Proof.
  unfold bind. destruct (m s) as [[[a|e] s1] t1].
  - destruct (f a s1) as [[r2 s2] t2] eqn:Hf. intros [= <- <- <-].
    right. exists a, s1, t1, t2. auto.
  - intros [= <- <- <-]. left. exists e. auto.
Qed.

Ltac invert_bind H :=
  let e := fresh "e" in
  apply bind_inv in H as [(e & _ & [=]) | (? & ? & ? & ? & ? & H & ->)].

Lemma try_except_inv {S A} (m h : M S A) (s : S) a s' t :
  try_except m h s = (Returns a, s', t) ->
  m s = (Returns a, s', t) \/
  (exists e s1 t1 t2, m s = (Raises e, s1, t1) /\ h s1 = (Returns a, s', t2) /\ t = t1 ++ t2).
Proof.
  unfold try_except. destruct (m s) as [[[a1|e] s1] t1].
  - intros [= <- <- <-]. left. reflexivity.
  - destruct (h s1) as [[r2 s2] t2] eqn:Hh. intros [= -> <- <-].
    right. exists e, s1, t1, t2. auto.
Qed.

Lemma lift_opt_inv {S A} e (o : option A) (s : S) a s' t :
  lift_opt e o s = (Returns a, s', t) -> o = Some a /\ s' = s /\ t = [].
Proof. destruct o; simpl; unfold ret, raise; intros [=]; subst; auto. Qed.

Lemma lift_outcome_inv {S A} (o : outcome A) (s : S) a s' t :
  lift_outcome o s = (Returns a, s', t) -> o = Returns a /\ s' = s /\ t = [].
Proof. destruct o; simpl; unfold ret, raise; intros [=]; subst; auto. Qed.

Lemma writes_app t1 t2 : writes (t1 ++ t2) = writes t1 ++ writes t2.
Proof. apply omap_app. Qed.

Lemma queries_app t1 t2 : queries (t1 ++ t2) = queries t1 ++ queries t2.
Proof. apply omap_app. Qed.

Lemma writes_cons ev t :
  writes (ev :: t) =
  match ev with
  | Write c => c :: writes t
  | _ => writes t
  end.
Proof. destruct ev; reflexivity. Qed.

Lemma writes_Write l : writes (map Write l) = l.
Proof. induction l as [|c l IH]; [reflexivity|]. simpl. cbn. f_equal. exact IH. Qed.

Lemma queries_Write l : queries (map Write l) = [].
Proof. induction l as [|c l IH]; [reflexivity|]. exact IH. Qed.

(** ** The oscilloscope *)

Module Osci.

Section Osci.

Context (T : transport).
(** [fwp_string.find_1st_number], a helper of this repository that the
    drivers import; it is taken as given. *)
Context (find_1st_number : string -> outcome Q).

Record state : Type := {
  config_measure : gmap string value;
  osci : dev T
}.

Local Abbreviation Mo := (M state).

Definition osci_write (cmd : string) : Mo unit :=
  fun s =>
    match dev_write T (osci s) cmd with
    | Some d => (Returns tt, {| config_measure := config_measure s; osci := d |},
                 [Write cmd])
    | None => (Raises VisaIOError, s, [Write cmd])
    end.

Definition osci_query (cmd : string) : Mo string :=
  fun s =>
    match dev_query T (osci s) cmd with
    | Some r => (Returns r, s, [Query cmd])
    | None => (Raises VisaIOError, s, [Query cmd])
    end.

Definition config_item (k : string) : Mo value :=
  c ← gets config_measure;
  lift_opt (KeyError (inr k)) (c !! k).

Definition get_config_measure : Mo (gmap string value) :=
  let configuration : gmap string value := ∅ in
  r ← osci_query "MEASU:IMM:SOU?";
  n ← lift_outcome (find_1st_number r);
  let configuration := <["Source" := VNum (Finite n)]> configuration in
  r ← osci_query "MEASU:IMM:TYP?";
  let configuration := <["Type" := VStr r]> configuration in
  mret configuration.

Definition dic : table :=
  [ ("mean", "MEAN"); ("min", "MINI"); ("max", "MAXI"); ("freq", "FREQ");
    ("per", "PER"); ("rms", "RMS"); ("pk2", "PK2"); ("amp", "PK2");
    ("ph", "PHA"); ("crms", "CRM"); ("cmean", "CMEAN"); ("rise", "RIS");
    ("fall", "FALL"); ("low", "LOW"); ("high", "HIGH") ].

(** The loop [for key, value in dic.items(): if key in s: aux = value].
    The local [aux] is unbound ([None]) until a key matches. *)
Definition scan (s : string) (d : table) (aux : option string) : option string :=
  fold_left (fun aux kv => if is_in (fst kv) s then Some (snd kv) else aux) d aux.

Definition coerce_channel (channel : Z) : Mo Z :=
  if negb (bool_decide (channel ∈ [1; 2])) then
    print "Unrecognized measure source ('CH1' as default).";;
    mret 1
  else mret channel.

(** "Here is the algorithm to recognize measurement's type". *)
Definition recognize (mtype : string) : Mo string :=
  if is_in "c" (lower mtype) then
    if is_in "rms" (lower mtype) then
      lift_opt (KeyError (inr "crms")) (item dic "crms")
    else
      lift_opt (KeyError (inr "cmean")) (item dic "cmean")
  else
    match scan (lower mtype) dic None with
    | None => raise (UnboundLocalError "aux")
    | Some aux =>
        if negb (str_in aux (values dic)) then
          print "Unrecognized measure type ('FREQ' as default).";;
          mret "FREQ"
        else mret aux
    end.

(** "Now, reconfigure if needed". *)
Definition reconfigure (channel : Z) (aux : string) : Mo unit :=
  src ← config_item "Source";
  when (py_ne src (VInt channel))
    (osci_write ("MEASU:IMM:SOU CH" +:+ pretty channel);;
     print ("Measure source changed to 'CH" +:+ pretty channel +:+ "'"));;
  typ ← config_item "Type";
  when (py_ne typ (VStr aux))
    (osci_write ("MEASU:IMM:TYP " +:+ aux);;
     print ("Measure type changed to '" +:+ aux +:+ "'")).

Definition re_config_measure (mtype : string) (channel : Z) : Mo unit :=
  channel ← coerce_channel channel;
  aux ← recognize mtype;
  reconfigure channel aux;;
  c ← get_config_measure;
  modify (fun s => {| config_measure := c; osci := osci s |}).

(** *** Properties of the measurement-type recognizer *)

Lemma scan_app s d1 d2 aux : scan s (d1 ++ d2) aux = scan s d2 (scan s d1 aux).
Proof. unfold scan. apply fold_left_app. Qed.

Lemma scan_matching s d aux : scan s d aux = scan s (matching s d) aux.
Proof.
  revert aux. induction d as [|[k v] d IH]; intros aux; [reflexivity|].
  unfold matching in *. simpl. destruct (is_in k s) eqn:Hk; simpl.
  - rewrite Hk. apply IH.
  - apply IH.
Qed.

Lemma scan_no_match s d aux : matching s d = [] -> scan s d aux = aux.
Proof. intros H. rewrite scan_matching, H. reflexivity. Qed.

Lemma scan_last_match s d pre k v aux :
  matching s d = pre ++ [(k, v)] -> scan s d aux = Some v.
Proof.
  intros H. rewrite scan_matching, H, scan_app. simpl.
  assert (Hin : In (k, v) (matching s d)) by (rewrite H; apply in_or_app; right; left; reflexivity).
  apply filter_In in Hin as [_ Hk]. simpl in Hk. rewrite Hk. reflexivity.
Qed.

Lemma matching_in_values s d pre k v :
  matching s d = pre ++ [(k, v)] -> str_in v (values d) = true.
Proof.
  intros H.
  assert (Hin : In (k, v) (matching s d)) by (rewrite H; apply in_or_app; right; left; reflexivity).
  apply filter_In in Hin as [Hin _].
  unfold str_in, values. apply existsb_exists. exists v. split.
  - apply (in_map snd) in Hin. exact Hin.
  - apply String.eqb_refl.
Qed.

Lemma recognize_last_match mtype pre k tok (s : state) :
  is_in "c" (lower mtype) = false ->
  matching (lower mtype) dic = pre ++ [(k, tok)] ->
  recognize mtype s = (Returns tok, s, []).
Proof.
  intros Hc Hm. unfold recognize. rewrite Hc.
  rewrite (scan_last_match _ _ _ _ _ _ Hm).
  rewrite (matching_in_values _ _ _ _ _ Hm). reflexivity.
Qed.

Lemma recognize_no_match mtype (s : state) :
  is_in "c" (lower mtype) = false ->
  matching (lower mtype) dic = [] ->
  recognize mtype s = (Raises (UnboundLocalError "aux"), s, []).
Proof.
  intros Hc Hm. unfold recognize. rewrite Hc.
  rewrite (scan_no_match _ _ _ Hm). reflexivity.
Qed.

(** *** What a call of [re_config_measure] does *)

Definition in_range (channel : Z) : bool := bool_decide (channel ∈ [1; 2]).

Definition effective (channel : Z) : Z := if in_range channel then channel else 1.

Definition diagnostic (channel : Z) : list event :=
  if in_range channel then []
  else [Print "Unrecognized measure source ('CH1' as default)."].

Lemma measure_coerce_channel_eq channel (s : state) :
  coerce_channel channel s = (Returns (effective channel), s, diagnostic channel).
Proof.
  unfold coerce_channel, effective, diagnostic, in_range.
  destruct (bool_decide (channel ∈ [1; 2])); reflexivity.
Qed.

Lemma effective_in_range channel : in_range (effective channel) = true.
Proof.
  unfold effective. destruct (in_range channel) eqn:H; [exact H|reflexivity].
Qed.

Definition set_osci (d : dev T) (s : state) : state :=
  {| config_measure := config_measure s; osci := d |}.

Definition SOU (channel : Z) : string := "MEASU:IMM:SOU CH" +:+ pretty channel.
Definition TYP (aux : string) : string := "MEASU:IMM:TYP " +:+ aux.

(** The commands the block sends when nothing fails: one for each of the
    two fields that differs from the cache. *)
Definition needed (src typ : value) (channel : Z) (aux : string) : list string :=
  (if py_ne src (VInt channel) then [SOU channel] else []) ++
  (if py_ne typ (VStr aux) then [TYP aux] else []).

Lemma measure_reconfigure_eq channel aux (s : state) src typ :
  config_measure s !! "Source" = Some src ->
  config_measure s !! "Type" = Some typ ->
  reconfigure channel aux s =
  let after_source :=
    if py_ne src (VInt channel) then
      match dev_write T (osci s) (SOU channel) with
      | Some g =>
          (Returns tt, set_osci g s,
           [Write (SOU channel);
            Print ("Measure source changed to 'CH" +:+ pretty channel +:+ "'")])
      | None => (Raises VisaIOError, s, [Write (SOU channel)])
      end
    else (Returns tt, s, []) in
  match after_source with
  | (Returns _, s1, t1) =>
      if py_ne typ (VStr aux) then
        match dev_write T (osci s1) (TYP aux) with
        | Some g =>
            (Returns tt, set_osci g s1,
             t1 ++ [Write (TYP aux);
                    Print ("Measure type changed to '" +:+ aux +:+ "'")])
        | None => (Raises VisaIOError, s1, t1 ++ [Write (TYP aux)])
        end
      else (Returns tt, s1, t1 ++ [])
  | (Raises e, s1, t1) => (Raises e, s1, t1)
  end.
Proof.
  intros Hsrc Htyp.
  unfold reconfigure, config_item, when, osci_write, print, emit, SOU, TYP, set_osci.
  unfold mbind, M_bind, bind, gets, lift_opt. simpl. rewrite Hsrc. simpl.
  destruct (py_ne src (VInt channel)); simpl.
  - destruct (dev_write T (osci s) ("MEASU:IMM:SOU CH" +:+ pretty channel)) as [g|];
      simpl; [|reflexivity].
    rewrite Htyp. simpl.
    destruct (py_ne typ (VStr aux)); simpl; [|reflexivity].
    destruct (dev_write T g ("MEASU:IMM:TYP " +:+ aux)); reflexivity.
  - rewrite Htyp. simpl.
    destruct (py_ne typ (VStr aux)); simpl; [|reflexivity].
    destruct (dev_write T (osci s) ("MEASU:IMM:TYP " +:+ aux)); reflexivity.
Qed.

Lemma reconfigure_returns channel aux (s : state) s' t :
  reconfigure channel aux s = (Returns tt, s', t) ->
  exists src typ,
    config_measure s !! "Source" = Some src /\
    config_measure s !! "Type" = Some typ /\
    config_measure s' = config_measure s /\
    writes t = needed src typ channel aux /\
    queries t = [] /\
    (needed src typ channel aux = [] -> s' = s).
Proof.
  destruct (config_measure s !! "Source") as [src|] eqn:Hsrc.
  2:{ unfold reconfigure, config_item, mbind, M_bind, bind, gets, lift_opt. simpl.
      rewrite Hsrc. discriminate. }
  destruct (config_measure s !! "Type") as [typ|] eqn:Htyp.
  2:{ unfold reconfigure, config_item, when, osci_write, mbind, M_bind, bind, gets, lift_opt.
      simpl. rewrite Hsrc. simpl.
      destruct (py_ne src (VInt channel)); simpl.
      - destruct (dev_write T (osci s) _); simpl; [rewrite Htyp|]; discriminate.
      - rewrite Htyp. discriminate. }
  rewrite (measure_reconfigure_eq _ _ _ _ _ Hsrc Htyp). unfold needed. cbv zeta.
  intros H. exists src, typ.
  destruct (py_ne src (VInt channel)).
  - destruct (dev_write T (osci s) (SOU channel)) as [g|]; [|discriminate].
    destruct (py_ne typ (VStr aux)).
    + destruct (dev_write T (osci (set_osci g s)) (TYP aux)) as [g'|]; [|discriminate].
      injection H as <- <-. repeat split; try assumption. discriminate.
    + injection H as <- <-. repeat split; try assumption. discriminate.
  - destruct (py_ne typ (VStr aux)).
    + destruct (dev_write T (osci s) (TYP aux)) as [g'|]; [|discriminate].
      injection H as <- <-. repeat split; try assumption. discriminate.
    + injection H as <- <-. repeat split; try assumption.
Qed.

(** The answers the device gives to the two queries of
    [get_config_measure], as the cache they make. *)
Definition readback (d : dev T) : option (gmap string value) :=
  match dev_query T d "MEASU:IMM:SOU?" with
  | Some r =>
      match find_1st_number r with
      | Returns n =>
          match dev_query T d "MEASU:IMM:TYP?" with
          | Some r' => Some (<["Type" := VStr r']> (<["Source" := VNum (Finite n)]> ∅))
          | None => None
          end
      | Raises _ => None
      end
  | None => None
  end.

Lemma get_config_measure_returns (s : state) c s' t :
  get_config_measure s = (Returns c, s', t) ->
  readback (osci s) = Some c /\ s' = s /\
  t = [Query "MEASU:IMM:SOU?"; Query "MEASU:IMM:TYP?"].
Proof.
  unfold get_config_measure, readback, osci_query, mbind, M_bind, bind, lift_outcome.
  destruct (dev_query T (osci s) "MEASU:IMM:SOU?") as [r|]; simpl; [|discriminate].
  destruct (find_1st_number r) as [n|e]; simpl; [|discriminate].
  destruct (dev_query T (osci s) "MEASU:IMM:TYP?") as [r'|]; simpl; [|discriminate].
  intros [= <- <- <-]. auto.
Qed.

Lemma get_config_measure_readback (s : state) c :
  readback (osci s) = Some c ->
  get_config_measure s =
  (Returns c, s, [Query "MEASU:IMM:SOU?"; Query "MEASU:IMM:TYP?"]).
Proof.
  unfold get_config_measure, readback, osci_query, mbind, M_bind, bind, lift_outcome.
  destruct (dev_query T (osci s) "MEASU:IMM:SOU?") as [r|]; simpl; [|discriminate].
  destruct (find_1st_number r) as [n|e]; simpl; [|discriminate].
  destruct (dev_query T (osci s) "MEASU:IMM:TYP?") as [r'|]; simpl; [|discriminate].
  intros [= <-]. reflexivity.
Qed.

Lemma measure_diagnostic_silent channel :
  writes (diagnostic channel) = [] /\ queries (diagnostic channel) = [].
Proof. unfold diagnostic. destruct (in_range channel); split; reflexivity. Qed.

Lemma recognize_silent mtype (s : state) r s' t :
  recognize mtype s = (r, s', t) -> s' = s /\ writes t = [] /\ queries t = [].
Proof.
  unfold recognize.
  destruct (is_in "c" (lower mtype)).
  - destruct (is_in "rms" (lower mtype)); simpl; intros [= <- <- <-]; auto.
  - destruct (scan (lower mtype) dic None) as [aux|]; [|intros [= <- <- <-]; auto].
    destruct (negb (str_in aux (values dic))); intros [= <- <- <-]; auto.
Qed.

(** A call that returns has recognized a token, sent exactly the commands
    [needed], and replaced the cache by what the device answers. *)
Theorem re_config_measure_returns mtype channel (s : state) s' t :
  re_config_measure mtype channel s = (Returns tt, s', t) ->
  exists aux src typ tw,
    recognize mtype s = (Returns aux, s, tw) /\
    config_measure s !! "Source" = Some src /\
    config_measure s !! "Type" = Some typ /\
    writes t = needed src typ (effective channel) aux /\
    queries t = ["MEASU:IMM:SOU?"; "MEASU:IMM:TYP?"] /\
    readback (osci s') = Some (config_measure s') /\
    (needed src typ (effective channel) aux = [] -> osci s' = osci s).
Proof.
  unfold re_config_measure, mbind, M_bind, bind. rewrite measure_coerce_channel_eq.
  destruct (recognize mtype s) as [[[aux|e] s1] tw] eqn:Hrec; [|discriminate].
  pose proof (recognize_silent _ _ _ _ _ Hrec) as (-> & Hrw & Hrq).
  destruct (reconfigure (effective channel) aux s) as [[[[]|e] s2] t2] eqn:Hre;
    [|discriminate].
  destruct (get_config_measure s2) as [[[c|e] s3] t3] eqn:Hget; [|discriminate].
  unfold modify. intros [= <- <-].
  apply reconfigure_returns in Hre
    as (src & typ & Hsrc & Htyp & Hcfg & Hw & Hq & Hsame).
  apply get_config_measure_returns in Hget as (Hread & -> & ->).
  destruct (measure_diagnostic_silent channel) as [Hdw Hdq].
  exists aux, src, typ, tw. repeat split; try assumption.
  - rewrite !writes_app, Hdw, Hrw, Hw. simpl. rewrite app_nil_r. reflexivity.
  - rewrite !queries_app, Hdq, Hrq, Hq. reflexivity.
  - intros Hn. simpl. rewrite (Hsame Hn). reflexivity.
Qed.

Lemma recognize_anywhere mtype (s s' : state) r t :
  recognize mtype s = (r, s, t) -> recognize mtype s' = (r, s', t).
Proof.
  unfold recognize.
  destruct (is_in "c" (lower mtype)).
  - destruct (is_in "rms" (lower mtype)); simpl; intros [= <- <-]; reflexivity.
  - destruct (scan (lower mtype) dic None) as [aux|]; [|intros [= <- <-]; reflexivity].
    destruct (negb (str_in aux (values dic))); intros [= <- <-]; reflexivity.
Qed.

(** The cache agrees with the source and the type asked for. *)
Definition accurate (s : state) (channel : Z) (aux : string) : Prop :=
  exists src typ,
    config_measure s !! "Source" = Some src /\
    config_measure s !! "Type" = Some typ /\
    needed src typ channel aux = [].

(** A second call, when the first one returned and the device answered
    with what it was sent: nothing is written and the state is as it was. *)
Theorem re_config_measure_again mtype channel (s : state) s1 t1 aux tw :
  re_config_measure mtype channel s = (Returns tt, s1, t1) ->
  recognize mtype s = (Returns aux, s, tw) ->
  accurate s1 (effective channel) aux ->
  exists t2,
    re_config_measure mtype channel s1 = (Returns tt, s1, t2) /\
    writes t2 = [].
Proof.
  intros Hrun Hrec (src & typ & Hsrc & Htyp & Hn).
  destruct (re_config_measure_returns _ _ _ _ _ Hrun)
    as (_ & _ & _ & _ & _ & _ & _ & _ & _ & Hread & _).
  unfold re_config_measure, mbind, M_bind, bind. rewrite measure_coerce_channel_eq.
  rewrite (recognize_anywhere _ _ s1 _ _ Hrec).
  rewrite (measure_reconfigure_eq _ _ _ _ _ Hsrc Htyp).
  unfold needed in Hn.
  destruct (py_ne src (VInt (effective channel))); [discriminate|].
  destruct (py_ne typ (VStr aux)); [discriminate|]. cbv beta iota zeta.
  rewrite (get_config_measure_readback _ _ Hread). unfold modify.
  destruct (measure_diagnostic_silent channel) as [Hdw _].
  destruct (recognize_silent _ _ _ _ _ Hrec) as (_ & Hrw & _).
  eexists. split.
  - destruct s1; reflexivity.
  - rewrite !writes_app, Hdw, Hrw. reflexivity.
Qed.

Theorem re_config_measure_out_of_range mtype channel (s : state) :
  in_range channel = false ->
  coerce_channel channel s =
    (Returns 1, s, [Print "Unrecognized measure source ('CH1' as default)."]) /\
  re_config_measure mtype channel s =
  prepend (Print "Unrecognized measure source ('CH1' as default).")
    (re_config_measure mtype 1 s).
Proof.
  intros Hout.
  assert (Hco : coerce_channel channel s =
    (Returns 1, s, [Print "Unrecognized measure source ('CH1' as default)."])).
  { rewrite measure_coerce_channel_eq. unfold effective, diagnostic. rewrite Hout. reflexivity. }
  split; [exact Hco|].
  unfold re_config_measure, mbind, M_bind, bind, prepend.
  rewrite Hco, (measure_coerce_channel_eq 1).
  change (effective 1) with 1. change (diagnostic 1) with (@nil event).
  destruct (recognize mtype s) as [[[aux|e] s2] t2]; [|reflexivity].
  destruct (reconfigure 1 aux s2) as [[[u|e] s3] t3]; [|reflexivity].
  destruct (get_config_measure s3) as [[[c|e] s4] t4]; reflexivity.
Qed.

(** No key of the table in the input: the local [aux] is read unbound. *)
Theorem re_config_measure_no_match mtype channel (s : state) :
  is_in "c" (lower mtype) = false ->
  matching (lower mtype) dic = [] ->
  re_config_measure mtype channel s =
  (Raises (UnboundLocalError "aux"), s, diagnostic channel).
Proof.
  intros Hc Hm. unfold re_config_measure, mbind, M_bind, bind.
  rewrite measure_coerce_channel_eq, (recognize_no_match _ _ Hc Hm), app_nil_r. reflexivity.
Qed.

Lemma needed_NoDup src typ channel aux : List.NoDup (needed src typ channel aux).
Proof.
  clear. unfold needed.
  destruct (py_ne src (VInt channel)), (py_ne typ (VStr aux)); simpl;
    repeat constructor; simpl; try tauto.
  intros [H|[]]. unfold SOU, TYP in H. discriminate.
Qed.

End Osci.

End Osci.

(** ** The function generator *)

Module Gen.

Section Gen.

Context (T : transport).
(** [fwp_string.find_1st_number], as for the oscilloscope. *)
Context (find_1st_number : string -> outcome Q).
(** Python's [int] on a string; [None] when it raises [ValueError]. *)
Context (py_int : string -> option Z).
(** ['{}'.format(x)] and ['{:.1f}'.format(x)] on a number. *)
Context (str_num : number -> string) (fmt_1f : number -> string).

(** The cache [Gen.config_output]: a [dict] whose integer keys hold one
    [dict] per channel; [get_config_output] may add a string key holding a
    number next to them. *)
Record state : Type := {
  nchannels : Z;
  config_output : gmap (Z + string) (gmap string value + value);
  gen : dev T
}.

Local Abbreviation Mg := (M state).

Definition set_config (c : gmap (Z + string) (gmap string value + value))
    (s : state) : state :=
  {| nchannels := nchannels s; config_output := c; gen := gen s |}.

Definition set_gen (g : dev T) (s : state) : state :=
  {| nchannels := nchannels s; config_output := config_output s; gen := g |}.

Definition gen_write (cmd : string) : Mg unit :=
  fun s =>
    match dev_write T (gen s) cmd with
    | Some g => (Returns tt, set_gen g s, [Write cmd])
    | None => (Raises VisaIOError, s, [Write cmd])
    end.

Definition gen_query (cmd : string) : Mg string :=
  fun s =>
    match dev_query T (gen s) cmd with
    | Some r => (Returns r, s, [Query cmd])
    | None => (Raises VisaIOError, s, [Query cmd])
    end.

(** ['{}'.format(v)] on a cached value. *)
Definition str_value (v : value) : string :=
  match v with
  | VStr s => s
  | VNum x => str_num x
  | VBool b => if b then "True" else "False"
  end.

(** [configuration[channel]] on a [dict] shaped like the cache. *)
Definition subscript (c : gmap (Z + string) (gmap string value + value))
    (channel : Z) : Mg (gmap string value) :=
  match c !! inl channel with
  | Some (inl d) => mret d
  | Some (inr _) => raise TypeError
  | None => raise (KeyError (inl channel))
  end.

(** [self.config_output[channel][k]] *)
Definition config_item (channel : Z) (k : string) : Mg value :=
  c ← gets config_output;
  d ← subscript c channel;
  lift_opt (KeyError (inr k)) (d !! k).

(** [self.config_output[channel][k] = v] *)
Definition config_set (channel : Z) (k : string) (v : value) : Mg unit :=
  c ← gets config_output;
  d ← subscript c channel;
  modify (set_config (<[inl channel := inl (<[k := v]> d)]> c)).

(** [configuration[channel][k] = v] on the local [dict] being built. *)
Definition local_set (c : gmap (Z + string) (gmap string value + value))
    (channel : Z) (k : string) (v : value)
    : Mg (gmap (Z + string) (gmap string value + value)) :=
  d ← subscript c channel;
  mret (<[inl channel := inl (<[k := v]> d)]> c).

(** ['SOUR{}...'.format(channel)], the head of the generator's commands. *)
Definition SOUR (channel : Z) (rest : string) : string :=
  "SOUR" +:+ pretty channel +:+ rest.

(** "PULS's Duty Cycle configuration": the answer goes to the key
    ['Duty Cycle'] of [configuration] itself; the [except] branch sets the
    channel's entry. *)
Definition query_duty_cycle
    (configuration : gmap (Z + string) (gmap string value + value))
    (channel : Z) : Mg (gmap (Z + string) (gmap string value + value)) :=
  try_except
    (aux ← gen_query (SOUR channel ":PULS:DCYC?");
     n ← lift_outcome (find_1st_number aux);
     mret (<[inr "Duty Cycle" := inr (VNum (Finite n))]> configuration))
    (local_set configuration channel "Duty Cycle" (VNum 50)).

(** "RAMP's Symmetry configuration". *)
Definition query_symmetry
    (configuration : gmap (Z + string) (gmap string value + value))
    (channel : Z) : Mg (gmap (Z + string) (gmap string value + value)) :=
  try_except
    (aux ← gen_query (SOUR channel ":FUNC:RAMP:SYMM?");
     n ← lift_outcome (find_1st_number aux);
     local_set configuration channel "Symmetry" (VNum (Finite n)))
    (local_set configuration channel "Symmetry" (VNum 50)).

(** The body of [for channel in range(1, self.nchannels+1)].  The two
    [configuration[channel].update(...)] look the channel up before they
    query; the assignments [configuration[channel][k] = ...] after. *)
Definition get_config_channel
    (configuration : gmap (Z + string) (gmap string value + value))
    (channel : Z) : Mg (gmap (Z + string) (gmap string value + value)) :=
  _ ← subscript configuration channel;
  r ← gen_query ("OUTP" +:+ pretty channel +:+ ":STAT?");
  z ← lift_opt (ValueError "invalid literal for int()") (py_int r);
  configuration ← local_set configuration channel "Status" (VBool (negb (z =? 0)));
  _ ← subscript configuration channel;
  r ← gen_query (SOUR channel ":FUNC:SHAP?");
  configuration ← local_set configuration channel "Waveform" (VStr r);
  aux ← gen_query (SOUR channel ":FREQ?");
  n ← lift_outcome (find_1st_number aux);
  configuration ← local_set configuration channel "Frequency" (VNum (Finite n));
  aux ← gen_query (SOUR channel ":VOLT:LEV:IMM:AMPL?");
  n ← lift_outcome (find_1st_number aux);
  configuration ← local_set configuration channel "Amplitude" (VNum (Finite n));
  aux ← gen_query (SOUR channel ":VOLT:LEV:IMM:OFFS?");
  n ← lift_outcome (find_1st_number aux);
  configuration ← local_set configuration channel "Offset" (VNum (Finite n));
  aux ← gen_query (SOUR channel ":PHAS?");
  n ← lift_outcome (find_1st_number aux);
  configuration ← local_set configuration channel "Phase" (VNum (Finite n));
  configuration ← query_duty_cycle configuration channel;
  configuration ← query_symmetry configuration channel;
  mret configuration.

Fixpoint for_channels (channels : list Z)
    (configuration : gmap (Z + string) (gmap string value + value))
    : Mg (gmap (Z + string) (gmap string value + value)) :=
  match channels with
  | [] => mret configuration
  | channel :: rest =>
      configuration ← get_config_channel configuration channel;
      for_channels rest configuration
  end.

(** [range(1, n+1)] *)
Definition channel_range (n : Z) : list Z := seqZ 1 n.

Definition get_config_output : Mg (gmap (Z + string) (gmap string value + value)) :=
  n ← gets nchannels;
  let configuration : gmap (Z + string) (gmap string value + value) :=
    list_to_map (map (fun i => (inl i, inl ∅)) (channel_range n)) in
  for_channels (channel_range n) configuration.

(** The last statement of [__init__]:
    [self.config_output = self.get_config_output()]. *)
Definition init_config_output : Mg unit :=
  c ← get_config_output;
  modify (set_config c).

Definition dic : table :=
  [ ("sin", "SIN"); ("squ", "PULS"); ("pul", "PULS"); ("tri", "RAMP");
    ("ram", "RAMP"); ("lor", "LOR"); ("sinc", "SINC"); ("gau", "GAUS") ].

(** The loop [for key, value in dic.items(): if key in waveform:
    waveform = value], which tests each key against the variable it
    assigns. *)
Definition scan (d : table) (waveform : string) : string :=
  fold_left (fun waveform kv =>
               if is_in (fst kv) waveform then snd kv else waveform) d waveform.

Definition coerce_channel (channel : Z) : Mg Z :=
  n ← gets nchannels;
  if negb (bool_decide (channel ∈ channel_range n)) then
    print "Unrecognized output channel ('CH1' as default).";;
    mret 1
  else mret channel.

(** "This is the algorithm to recognize the waveform". *)
Definition recognize (channel : Z) (waveform : option string) : Mg value :=
  match waveform with
  | Some waveform =>
      let waveform := lower waveform in
      if is_in "c" waveform then mret (VStr "SINC")
      else
        let waveform := scan dic waveform in
        if negb (str_in waveform (values dic)) then
          print "Unrecognized Waveform ('SIN' as default).";;
          mret (VStr "SIN")
        else mret (VStr waveform)
  | None => config_item channel "Waveform"
  end.

(** The block every field of [re_config_output] repeats: compare with the
    cache, and on a difference write the command, overwrite the cache entry
    and report the change. *)
Definition reconfigure (channel : Z) (field : string) (v : value)
    (cmd changed : string) (print_changes : bool) : Mg unit :=
  old ← config_item channel field;
  when (py_ne old v)
    (gen_write cmd;;
     config_set channel field v;;
     when print_changes (print changed)).

(** ["CH{}'s ... changed to ..."], the report of a change. *)
Definition CHs (channel : Z) (what shown unit : string) : string :=
  "CH" +:+ pretty channel +:+ "'s " +:+ what +:+ " changed to " +:+ shown +:+ unit.

(** The indentation that the line continuation inside the two percentage
    messages leaves in them. *)
Definition gap : string := "                          ".

Definition re_config_output (channel : Z) (waveform : option string)
    (frequency amplitude offset phase duty_cycle symmetry : option number)
    (print_changes : bool) : Mg unit :=
  channel ← coerce_channel channel;
  waveform ← recognize channel waveform;
  reconfigure channel "Waveform" waveform
    (SOUR channel (":FUNC:SHAP " +:+ str_value waveform))
    (CHs channel "Waveform" ("'" +:+ str_value waveform +:+ "'") "")
    print_changes;;
  match frequency with
  | Some frequency =>
      reconfigure channel "Frequency" (VNum frequency)
        (SOUR channel (":FREQ " +:+ str_num frequency))
        (CHs channel "Frequency" (str_num frequency) " Hz") print_changes
  | None => mret tt
  end;;
  match amplitude with
  | Some amplitude =>
      reconfigure channel "Amplitude" (VNum amplitude)
        (SOUR channel (":VOLT:LEV:IMM:AMPL " +:+ str_num amplitude))
        (CHs channel "Amplitude" (str_num amplitude) " V") print_changes
  | None => mret tt
  end;;
  match offset with
  | Some offset =>
      reconfigure channel "Offset" (VNum offset)
        (SOUR channel (":VOLT:LEV:IMM:OFFS " +:+ str_num offset))
        (CHs channel "Offset" (str_num offset) " V") print_changes
  | None => mret tt
  end;;
  match phase with
  | Some phase =>
      reconfigure channel "Phase" (VNum phase)
        (SOUR channel (":PHAS " +:+ str_num phase))
        (CHs channel "Phase" (str_num phase) " PI") print_changes
  | None => mret tt
  end;;
  match duty_cycle with
  | Some duty_cycle =>
      if py_ne waveform (VStr "PULS") then
        raise (ValueError "Can only set duty cycle on 'PULS'")
      else
        reconfigure channel "Duty Cycle" (VNum duty_cycle)
          (SOUR channel (":PULS:DCYC " +:+ fmt_1f duty_cycle))
          (CHs channel "Duty Cycle" (gap +:+ str_num duty_cycle) "%")
          print_changes
  | None => mret tt
  end;;
  match symmetry with
  | Some symmetry =>
      if py_ne waveform (VStr "RAMP") then
        raise (ValueError "Can only set symmetry on 'RAMP'")
      else
        reconfigure channel "Symmetry" (VNum symmetry)
          (SOUR channel (":FUNC:RAMP:SYMM " +:+ fmt_1f symmetry))
          (CHs channel "Symmetry" (gap +:+ str_num symmetry) "%")
          print_changes
  | None => mret tt
  end;;
  mret tt.

(** *** The field table

    [re_config_output] treats its seven fields one after the other, in the
    order below, each with the same block; the last two are guarded by the
    waveform they are valid on.  [steps] lists them, and [run_steps] runs
    such a list; [re_config_output_steps] shows that this is the method. *)

Record step : Type := {
  field : string;
  required : option (string * string);
  request : option (value * string * string)
}.

Definition run_step (channel : Z) (waveform : value) (print_changes : bool)
    (st : step) : Mg unit :=
  match request st with
  | None => mret tt
  | Some (v, cmd, changed) =>
      match required st with
      | Some (token, msg) =>
          if py_ne waveform (VStr token) then raise (ValueError msg)
          else reconfigure channel (field st) v cmd changed print_changes
      | None => reconfigure channel (field st) v cmd changed print_changes
      end
  end.

Fixpoint run_steps (channel : Z) (waveform : value) (print_changes : bool)
    (l : list step) : Mg unit :=
  match l with
  | [] => mret tt
  | st :: l' =>
      run_step channel waveform print_changes st;;
      run_steps channel waveform print_changes l'
  end.

Definition numeric (channel : Z) (name cmd unit_ : string) (x : number) :
    value * string * string :=
  (VNum x, SOUR channel (cmd +:+ str_num x), CHs channel name (str_num x) unit_).

Definition percent (channel : Z) (name cmd : string) (x : number) :
    value * string * string :=
  (VNum x, SOUR channel (cmd +:+ fmt_1f x),
   CHs channel name (gap +:+ str_num x) "%").

Definition basic_steps (channel : Z) (waveform : value)
    (frequency amplitude offset phase : option number) : list step :=
  [ {| field := "Waveform"; required := None;
       request := Some (waveform,
                        SOUR channel (":FUNC:SHAP " +:+ str_value waveform),
                        CHs channel "Waveform" ("'" +:+ str_value waveform +:+ "'") "") |};
    {| field := "Frequency"; required := None;
       request := numeric channel "Frequency" ":FREQ " " Hz" <$> frequency |};
    {| field := "Amplitude"; required := None;
       request := numeric channel "Amplitude" ":VOLT:LEV:IMM:AMPL " " V" <$> amplitude |};
    {| field := "Offset"; required := None;
       request := numeric channel "Offset" ":VOLT:LEV:IMM:OFFS " " V" <$> offset |};
    {| field := "Phase"; required := None;
       request := numeric channel "Phase" ":PHAS " " PI" <$> phase |} ].

Definition duty_cycle_step (channel : Z) (duty_cycle : option number) : step :=
  {| field := "Duty Cycle";
     required := Some ("PULS", "Can only set duty cycle on 'PULS'");
     request := percent channel "Duty Cycle" ":PULS:DCYC " <$> duty_cycle |}.

Definition symmetry_step (channel : Z) (symmetry : option number) : step :=
  {| field := "Symmetry";
     required := Some ("RAMP", "Can only set symmetry on 'RAMP'");
     request := percent channel "Symmetry" ":FUNC:RAMP:SYMM " <$> symmetry |}.

Definition steps (channel : Z) (waveform : value)
    (frequency amplitude offset phase duty_cycle symmetry : option number)
    : list step :=
  basic_steps channel waveform frequency amplitude offset phase ++
  [duty_cycle_step channel duty_cycle; symmetry_step channel symmetry].

Lemma re_config_output_steps channel waveform frequency amplitude offset phase
    duty_cycle symmetry print_changes (s : state) :
  re_config_output channel waveform frequency amplitude offset phase
    duty_cycle symmetry print_changes s =
  (channel ← coerce_channel channel;
   waveform ← recognize channel waveform;
   run_steps channel waveform print_changes
     (steps channel waveform frequency amplitude offset phase duty_cycle symmetry)) s.
Proof.
  destruct frequency, amplitude, offset, phase, duty_cycle, symmetry; reflexivity.
Qed.

Lemma steps_fields channel waveform frequency amplitude offset phase duty_cycle symmetry :
  map field (steps channel waveform frequency amplitude offset phase duty_cycle symmetry) =
  ["Waveform"; "Frequency"; "Amplitude"; "Offset"; "Phase"; "Duty Cycle"; "Symmetry"].
Proof. reflexivity. Qed.

Lemma steps_NoDup channel waveform frequency amplitude offset phase duty_cycle symmetry :
  List.NoDup (map field (steps channel waveform frequency amplitude offset phase duty_cycle symmetry)).
Proof.
  rewrite steps_fields. apply NoDup_ListNoDup.
  apply (bool_decide_unpack _). vm_compute. reflexivity.
Qed.

(** *** What one block does *)

Definition store (channel : Z) (d : gmap string value) (s : state) : state :=
  set_config (<[inl channel := inl d]> (config_output s)) s.

Lemma reconfigure_eq channel F v cmd changed print_changes (s : state) d :
  config_output s !! inl channel = Some (inl d) ->
  reconfigure channel F v cmd changed print_changes s =
  match d !! F with
  | None => (Raises (KeyError (inr F)), s, [])
  | Some old =>
      if py_ne old v then
        match dev_write T (gen s) cmd with
        | None => (Raises VisaIOError, s, [Write cmd])
        | Some g =>
            (Returns tt, store channel (<[F := v]> d) (set_gen g s),
             Write cmd :: (if print_changes then [Print changed] else []))
        end
      else (Returns tt, s, [])
  end.
Proof.
  intros Hd. unfold reconfigure, config_item, config_set, gen_write, subscript.
  unfold mbind, M_bind, bind, gets, lift_opt. simpl. rewrite Hd. simpl.
  destruct (d !! F) as [old|]; simpl; [|reflexivity].
  destruct (py_ne old v); simpl; [|reflexivity].
  destruct (dev_write T (gen s) cmd) as [g|]; simpl; [|reflexivity].
  rewrite Hd. simpl. destruct print_changes; reflexivity.
Qed.

Definition blocked (waveform : value) (st : step) : option string :=
  match required st with
  | Some (token, msg) => if py_ne waveform (VStr token) then Some msg else None
  | None => None
  end.

(** The step asks for a value that differs from the cached one. *)
Definition pending (d : gmap string value) (st : step) : bool :=
  match request st, d !! field st with
  | Some (v, _, _), Some old => py_ne old v
  | _, _ => false
  end.

Definition commit (d : gmap string value) (st : step) : gmap string value :=
  match request st with
  | Some (v, _, _) => <[field st := v]> d
  | None => d
  end.

Definition command (st : step) : option string :=
  match request st with
  | Some (_, cmd, _) => Some cmd
  | None => None
  end.

Definition applied (d : gmap string value) (l : list step) : list step :=
  List.filter (pending d) l.

Definition commit_all (l : list step) (d : gmap string value) : gmap string value :=
  fold_left commit l d.

Definition commands (l : list step) : list string := omap command l.

Lemma run_step_eq channel waveform print_changes st (s : state) d :
  config_output s !! inl channel = Some (inl d) ->
  run_step channel waveform print_changes st s =
  match request st with
  | None => (Returns tt, s, [])
  | Some (v, cmd, changed) =>
      match blocked waveform st with
      | Some msg => (Raises (ValueError msg), s, [])
      | None =>
          match d !! field st with
          | None => (Raises (KeyError (inr (field st))), s, [])
          | Some old =>
              if py_ne old v then
                match dev_write T (gen s) cmd with
                | None => (Raises VisaIOError, s, [Write cmd])
                | Some g =>
                    (Returns tt, store channel (<[field st := v]> d) (set_gen g s),
                     Write cmd :: (if print_changes then [Print changed] else []))
                end
              else (Returns tt, s, [])
          end
      end
  end.
Proof.
  intros Hd. unfold run_step, blocked.
  destruct (request st) as [[[v cmd] changed]|]; [|reflexivity].
  destruct (required st) as [[token msg]|].
  - destruct (py_ne waveform (VStr token)); [reflexivity|].
    apply reconfigure_eq, Hd.
  - apply reconfigure_eq, Hd.
Qed.

(** *** What a run of the table does

    A run splits the table into the steps it [done] and the [rest] it did
    not reach.  The cache is the one before with the pending steps among
    [done] committed; the commands sent are theirs, followed by the one
    whose write failed, if one did. *)

Definition passed (waveform : value) (d : gmap string value) (st : step) : Prop :=
  is_Some (request st) -> blocked waveform st = None /\ is_Some (d !! field st).

Inductive stop (waveform : value) (d : gmap string value) (s' : state)
    : outcome unit -> list step -> list string -> Prop :=
  | stop_end : stop waveform d s' (Returns tt) [] []
  | stop_invalid st rest msg :
      is_Some (request st) ->
      blocked waveform st = Some msg ->
      stop waveform d s' (Raises (ValueError msg)) (st :: rest) []
  | stop_missing st rest :
      is_Some (request st) ->
      blocked waveform st = None ->
      d !! field st = None ->
      stop waveform d s' (Raises (KeyError (inr (field st)))) (st :: rest) []
  | stop_transport st rest cmd :
      command st = Some cmd ->
      blocked waveform st = None ->
      pending d st = true ->
      dev_write T (gen s') cmd = None ->
      stop waveform d s' (Raises VisaIOError) (st :: rest) [cmd].

Lemma pending_agree d d' st :
  d' !! field st = d !! field st -> pending d' st = pending d st.
Proof. intros H. unfold pending. rewrite H. reflexivity. Qed.

Lemma applied_agree d d' l :
  (forall st, In st l -> d' !! field st = d !! field st) ->
  applied d' l = applied d l.
Proof.
  intros H. unfold applied. apply filter_ext_in.
  intros st Hst. apply pending_agree, H, Hst.
Qed.

Lemma passed_agree waveform d d' st :
  d' !! field st = d !! field st -> passed waveform d' st -> passed waveform d st.
Proof. unfold passed. intros H Hp Hr. rewrite <- H. apply Hp, Hr. Qed.

Lemma stop_agree waveform d d' s' r rest extra :
  (forall st, In st rest -> d' !! field st = d !! field st) ->
  stop waveform d' s' r rest extra -> stop waveform d s' r rest extra.
Proof.
  intros H Hs. destruct Hs as [|st rest msg Hr Hb|st rest Hr Hb Hm|st rest cmd Hc Hb Hp Hw].
  - constructor.
  - constructor; assumption.
  - constructor; try assumption. rewrite <- (H st) by (left; reflexivity). exact Hm.
  - constructor; try assumption.
    rewrite <- (pending_agree d d' st) by (apply H; left; reflexivity). exact Hp.
Qed.

(** A step that returns leaves the channel's state [d] as it was, or with
    its own field committed, and sends its command in the second case only. *)
Lemma run_step_returns channel waveform print_changes st (s : state) d s1 t1 :
  config_output s !! inl channel = Some (inl d) ->
  run_step channel waveform print_changes st s = (Returns tt, s1, t1) ->
  passed waveform d st /\
  nchannels s1 = nchannels s /\
  queries t1 = [] /\
  ((pending d st = false /\ s1 = s /\ t1 = []) \/
   (pending d st = true /\
    config_output s1 = <[inl channel := inl (commit d st)]> (config_output s) /\
    dev_write T (gen s) <$> command st = Some (Some (gen s1)) /\
    writes t1 = commands [st])).
Proof.
  intros Hd. rewrite (run_step_eq _ _ _ _ _ _ Hd).
  unfold passed, pending, commit, commands, command. simpl.
  destruct (request st) as [[[v cmd] changed]|]; simpl.
  2:{ intros [= <- <-]. split; [intros [? [=]]|].
      do 2 (split; [reflexivity|]). left. auto. }
  destruct (blocked waveform st); [intros [=]|].
  destruct (d !! field st) as [old|]; [|intros [=]].
  destruct (py_ne old v).
  - destruct (dev_write T (gen s) cmd) as [g|]; [|intros [=]].
    intros [= <- <-]. split; [eauto|]. split; [reflexivity|].
    split; [destruct print_changes; reflexivity|].
    right. repeat split; destruct print_changes; reflexivity.
  - intros [= <- <-]. split; [eauto|].
    do 2 (split; [reflexivity|]). left. auto.
Qed.

(** A step that raises leaves the state as it was. *)
Lemma run_step_raises channel waveform print_changes st rest (s : state) d e s1 t1 :
  config_output s !! inl channel = Some (inl d) ->
  run_step channel waveform print_changes st s = (Raises e, s1, t1) ->
  s1 = s /\ exists extra, t1 = map Write extra /\
  stop waveform d s (Raises e) (st :: rest) extra.
Proof.
  intros Hd. rewrite (run_step_eq _ _ _ _ _ _ Hd).
  destruct (request st) as [[[v cmd] changed]|] eqn:Hr; [|intros [=]].
  assert (Hsome : is_Some (request st)) by (rewrite Hr; eauto).
  destruct (blocked waveform st) as [msg|] eqn:Hb.
  { intros [= <- <- <-]. split; [reflexivity|]. exists []. split; [reflexivity|].
    constructor; assumption. }
  destruct (d !! field st) as [old|] eqn:Hold.
  2:{ intros [= <- <- <-]. split; [reflexivity|]. exists []. split; [reflexivity|].
      constructor; assumption. }
  destruct (py_ne old v) eqn:Hne; [|intros [=]].
  destruct (dev_write T (gen s) cmd) as [g|] eqn:Hw; [intros [=]|].
  intros [= <- <- <-]. split; [reflexivity|]. exists [cmd]. split; [reflexivity|].
  constructor; try assumption.
  - unfold command. rewrite Hr. reflexivity.
  - unfold pending. rewrite Hr, Hold. exact Hne.
Qed.

Lemma commit_lookup_ne d st F : F <> field st -> commit d st !! F = d !! F.
Proof.
  intros H. unfold commit. destruct (request st) as [[[v ?] ?]|]; [|reflexivity].
  apply lookup_insert_ne. congruence.
Qed.

Lemma run_steps_cons channel waveform print_changes st l (s : state) :
  run_steps channel waveform print_changes (st :: l) s =
  bind (run_step channel waveform print_changes st)
       (fun _ => run_steps channel waveform print_changes l) s.
Proof. reflexivity. Qed.

Lemma fields_apart (x : step) l :
  ~ In (field x) (map field l) ->
  forall st, In st l -> field st <> field x.
Proof. intros H st Hst Heq. apply H. rewrite <- Heq. apply in_map, Hst. Qed.

Theorem run_steps_spec channel waveform print_changes l :
  forall (s : state) d r s' t,
  List.NoDup (map field l) ->
  config_output s !! inl channel = Some (inl d) ->
  run_steps channel waveform print_changes l s = (r, s', t) ->
  exists done rest t0 extra,
    l = done ++ rest /\
    nchannels s' = nchannels s /\
    config_output s' =
      <[inl channel := inl (commit_all (applied d done) d)]> (config_output s) /\
    t = t0 ++ map Write extra /\
    writes t0 = commands (applied d done) /\
    queries t0 = [] /\
    Forall (passed waveform d) done /\
    stop waveform d s' r rest extra.
Proof.
  induction l as [|x l IH]; intros s d r s' t Hnd Hd Hrun.
  - injection Hrun as <- <- <-. exists [], [], [], []. simpl.
    repeat split; try constructor.
    symmetry. apply insert_id, Hd.
  - rewrite run_steps_cons in Hrun.
    apply bind_inv in Hrun as [(e & Hx & ->) | (a & s1 & t1 & t2 & Hx & Hrest & ->)].
    + apply (run_step_raises _ _ _ _ l _ _ _ _ _ Hd) in Hx as (-> & extra & -> & Hstop).
      exists [], (x :: l), [], extra. simpl.
      repeat split; try constructor; try assumption.
      symmetry. apply insert_id, Hd.
    + destruct a. inversion Hnd as [|? ? Hnotin Hnd']; subst.
      pose proof (fields_apart x l Hnotin) as Hapart.
      apply (run_step_returns _ _ _ _ _ _ _ _ Hd) in Hx
        as (Hpass & Hn & Hq & [(Hp & -> & ->) | (Hp & Hc & _ & Hwr)]).
      * destruct (IH s d r s' t2 Hnd' Hd Hrest)
          as (done & rest & t0 & extra & -> & Hn' & Hc' & -> & Hw' & Hq' & Hf & Hs).
        exists (x :: done), rest, t0, extra. unfold applied in *. simpl. rewrite Hp.
        repeat split; try assumption. constructor; assumption.
      * assert (Hd1 : config_output s1 !! inl channel = Some (inl (commit d x)))
          by (rewrite Hc; apply lookup_insert_eq).
        destruct (IH s1 (commit d x) r s' t2 Hnd' Hd1 Hrest)
          as (done & rest & t0 & extra & -> & Hn' & Hc' & -> & Hw' & Hq' & Hf & Hs).
        assert (Hagree : forall st, In st (done ++ rest) ->
                  commit d x !! field st = d !! field st)
          by (intros st Hst; apply commit_lookup_ne, Hapart, Hst).
        exists (x :: done), rest, (t1 ++ t0), extra.
        rewrite (applied_agree d (commit d x) done) in Hc', Hw'
          by (intros st Hst; apply Hagree, in_or_app; left; exact Hst).
        unfold applied in *. simpl. rewrite Hp. simpl.
        repeat split.
        -- congruence.
        -- rewrite Hc', Hc. apply insert_insert_eq.
        -- apply app_assoc.
        -- rewrite writes_app, Hwr, Hw'.
           unfold commands. simpl. destruct (command x); reflexivity.
        -- rewrite queries_app, Hq, Hq'. reflexivity.
        -- constructor; [assumption|].
           apply List.Forall_forall. intros st Hst.
           apply (passed_agree waveform d (commit d x)).
           ++ apply Hagree, in_or_app. left. exact Hst.
           ++ revert st Hst. apply List.Forall_forall. exact Hf.
        -- apply (stop_agree waveform d (commit d x)); [|exact Hs].
           intros st Hst. apply Hagree, in_or_app. right. exact Hst.
Qed.

Lemma commit_all_lookup_ne l d F :
  (forall st, In st l -> field st <> F) -> commit_all l d !! F = d !! F.
Proof.
  revert d. induction l as [|x l IH]; intros d H; [reflexivity|].
  unfold commit_all in *. simpl. rewrite IH.
  - apply commit_lookup_ne. intros Heq. apply (H x); [left; reflexivity|congruence].
  - intros st Hst. apply H. right. exact Hst.
Qed.

(** *** Running the table again *)

(** The cache already holds what the step asks for. *)
Definition settled (d : gmap string value) (st : step) : Prop :=
  match request st with
  | Some (v, _, _) => exists old, d !! field st = Some old /\ py_ne old v = false
  | None => True
  end.

Lemma run_step_settled channel waveform print_changes st (s : state) d :
  config_output s !! inl channel = Some (inl d) ->
  passed waveform d st -> settled d st ->
  run_step channel waveform print_changes st s = (Returns tt, s, []).
Proof.
  intros Hd Hp Hs. rewrite (run_step_eq _ _ _ _ _ _ Hd).
  unfold passed, settled in *.
  destruct (request st) as [[[v cmd] changed]|]; [|reflexivity].
  destruct Hp as [-> _]; [eauto|].
  destruct Hs as (old & -> & ->). reflexivity.
Qed.

(** The step asks for nothing, or for a value other than nan. *)
Definition comparable (st : step) : Prop :=
  match request st with
  | Some (v, _, _) => is_nan v = false
  | None => True
  end.

Lemma run_steps_again channel waveform print_changes l :
  forall (s : state) d r s' t,
  List.NoDup (map field l) ->
  Forall comparable l ->
  config_output s !! inl channel = Some (inl d) ->
  run_steps channel waveform print_changes l s = (r, s', t) ->
  r <> Raises VisaIOError ->
  run_steps channel waveform print_changes l s' = (r, s', []).
Proof.
  induction l as [|x l IH]; intros s d r s' t Hnd Hcmp Hd Hrun Hr.
  - injection Hrun as <- <- <-. reflexivity.
  - rewrite run_steps_cons in Hrun. rewrite run_steps_cons.
    inversion Hcmp as [|? ? Hcx Hcmp']; subst.
    apply bind_inv in Hrun as [(e & Hx & ->) | (a & s1 & t1 & t2 & Hx & Hrest & ->)].
    + destruct (run_step_raises _ _ _ _ l _ _ _ _ _ Hd Hx) as (-> & extra & -> & Hstop).
      unfold bind. rewrite Hx.
      inversion Hstop; subst; try reflexivity. congruence.
    + destruct a. inversion Hnd as [|? ? Hnotin Hnd']; subst.
      pose proof (fields_apart x l Hnotin) as Hapart.
      assert (exists d1, config_output s1 !! inl channel = Some (inl d1) /\
                passed waveform d1 x /\ settled d1 x) as (d1 & Hd1 & Hp1 & Hs1).
      { destruct (run_step_returns _ _ _ _ _ _ _ _ Hd Hx)
          as (Hpass & _ & _ & [(Hp & -> & ->) | (Hp & Hc & _ & _)]).
        - exists d. split; [exact Hd|]. split; [exact Hpass|].
          unfold settled, passed, pending in *.
          destruct (request x) as [[[v cmd] changed]|]; [|exact I].
          destruct Hpass as [_ [old Hold]]; [eauto|].
          rewrite Hold in Hp. eauto.
        - exists (commit d x). split; [rewrite Hc; apply lookup_insert_eq|].
          unfold settled, passed, pending, commit, comparable in *.
          destruct (request x) as [[[v cmd] changed]|]; [|discriminate].
          split.
          + intros _. split; [apply Hpass; eauto|].
            rewrite lookup_insert_eq. eauto.
          + exists v. split; [apply lookup_insert_eq|apply py_ne_refl, Hcx]. }
      destruct (run_steps_spec _ _ _ _ _ _ _ _ _ Hnd' Hd1 Hrest)
        as (done & rest & t0 & extra & -> & _ & Hc' & _).
      assert (Hsame : commit_all (applied d1 done) d1 !! field x = d1 !! field x).
      { apply commit_all_lookup_ne. intros st Hst.
        apply Hapart, in_or_app. left.
        unfold applied in Hst. apply filter_In in Hst as [Hst _]. exact Hst. }
      unfold bind.
      rewrite (run_step_settled channel waveform print_changes x s'
                 (commit_all (applied d1 done) d1)).
      * rewrite (IH s1 d1 r s' t2 Hnd' Hcmp' Hd1 Hrest Hr). reflexivity.
      * rewrite Hc'. apply lookup_insert_eq.
      * unfold passed in *. rewrite Hsame. exact Hp1.
      * unfold settled in *. rewrite Hsame. exact Hs1.
Qed.

(** Without a state for the channel in the cache, no step gets past its
    first look at the cache. *)
Lemma run_steps_no_channel channel waveform print_changes l (s : state) :
  (forall d, config_output s !! inl channel <> Some (inl d)) ->
  exists r, run_steps channel waveform print_changes l s = (r, s, []).
Proof.
  intros Hno. induction l as [|x l [r IH]]; [exists (Returns tt); reflexivity|].
  rewrite run_steps_cons. unfold bind, run_step.
  destruct (request x) as [[[v cmd] changed]|].
  2:{ simpl. rewrite IH. eauto. }
  assert (Hrec : exists e, reconfigure channel (field x) v cmd changed print_changes s
                           = (Raises e, s, [])).
  { unfold reconfigure, config_item, subscript, mbind, M_bind, bind, gets. simpl.
    destruct (config_output s !! inl channel) as [[d|q]|] eqn:Hc; simpl; eauto.
    exfalso. apply (Hno d). reflexivity. }
  destruct Hrec as [e Hrec].
  destruct (required x) as [[token msg]|].
  - destruct (py_ne waveform (VStr token)); [eauto|]. rewrite Hrec. eauto.
  - rewrite Hrec. eauto.
Qed.

(** *** The channel and the waveform a call works on *)

Definition in_range (n channel : Z) : bool :=
  bool_decide (channel ∈ channel_range n).

Definition effective (n channel : Z) : Z :=
  if in_range n channel then channel else 1.

Definition diagnostic (n channel : Z) : list event :=
  if in_range n channel then []
  else [Print "Unrecognized output channel ('CH1' as default)."].

Lemma coerce_channel_eq channel (s : state) :
  coerce_channel channel s =
  (Returns (effective (nchannels s) channel), s, diagnostic (nchannels s) channel).
Proof.
  unfold coerce_channel, effective, diagnostic, in_range, mbind, M_bind, bind, gets.
  simpl. destruct (bool_decide (channel ∈ channel_range (nchannels s))); reflexivity.
Qed.

(** The token and the warning [recognize] computes from a string. *)
Definition normalize (waveform : string) : string * list event :=
  let waveform := lower waveform in
  if is_in "c" waveform then ("SINC", [])
  else
    let waveform := scan dic waveform in
    if negb (str_in waveform (values dic)) then
      ("SIN", [Print "Unrecognized Waveform ('SIN' as default)."])
    else (waveform, []).

Lemma recognize_Some channel x (s : state) :
  recognize channel (Some x) s =
  (Returns (VStr (fst (normalize x))), s, snd (normalize x)).
Proof.
  unfold recognize, normalize.
  destruct (is_in "c" (lower x)); [reflexivity|].
  destruct (negb (str_in (scan dic (lower x)) (values dic))); reflexivity.
Qed.

Lemma normalize_silent x :
  writes (snd (normalize x)) = [] /\ queries (snd (normalize x)) = [].
Proof.
  unfold normalize.
  destruct (is_in "c" (lower x)); [split; reflexivity|].
  destruct (negb (str_in (scan dic (lower x)) (values dic))); split; reflexivity.
Qed.

Lemma config_item_eq channel k (s : state) :
  config_item channel k s =
  match config_output s !! inl channel with
  | Some (inl d) =>
      match d !! k with
      | Some v => (Returns v, s, [])
      | None => (Raises (KeyError (inr k)), s, [])
      end
  | Some (inr _) => (Raises TypeError, s, [])
  | None => (Raises (KeyError (inl channel)), s, [])
  end.
Proof.
  unfold config_item, subscript, mbind, M_bind, bind, gets, lift_opt. simpl.
  destruct (config_output s !! inl channel) as [[d|q]|]; simpl; try reflexivity.
  destruct (d !! k); reflexivity.
Qed.

(** The waveform the call compares with the cache: the recognized token,
    or the cached waveform when none is given. *)
Definition target (d : gmap string value) (waveform : option string) : option value :=
  match waveform with
  | Some x => Some (VStr (fst (normalize x)))
  | None => d !! "Waveform"
  end.

Definition warning (waveform : option string) : list event :=
  match waveform with
  | Some x => snd (normalize x)
  | None => []
  end.

Lemma recognize_target channel waveform (s : state) d w :
  config_output s !! inl channel = Some (inl d) ->
  target d waveform = Some w ->
  recognize channel waveform s = (Returns w, s, warning waveform).
Proof.
  intros Hd Ht. destruct waveform as [x|]; simpl in Ht.
  - injection Ht as <-. apply recognize_Some.
  - unfold recognize. rewrite config_item_eq, Hd, Ht. reflexivity.
Qed.

Definition lookup_error (e : exn) : Prop :=
  e = TypeError \/ exists k, e = KeyError k.

Lemma diagnostic_silent n channel :
  writes (diagnostic n channel) = [] /\ queries (diagnostic n channel) = [].
Proof. unfold diagnostic. destruct (in_range n channel); split; reflexivity. Qed.

Lemma warning_silent waveform :
  writes (warning waveform) = [] /\ queries (warning waveform) = [].
Proof. destruct waveform as [x|]; [apply normalize_silent|split; reflexivity]. Qed.

(** *** What a call of [re_config_output] does *)

(** With a state for the channel in the cache and a waveform to compare,
    the call runs the table. *)
Theorem re_config_output_spec channel waveform frequency amplitude offset phase
    duty_cycle symmetry print_changes (s : state) d w r s' t :
  let ch := effective (nchannels s) channel in
  config_output s !! inl ch = Some (inl d) ->
  target d waveform = Some w ->
  re_config_output channel waveform frequency amplitude offset phase
    duty_cycle symmetry print_changes s = (r, s', t) ->
  exists done rest t0 extra,
    steps ch w frequency amplitude offset phase duty_cycle symmetry = done ++ rest /\
    nchannels s' = nchannels s /\
    config_output s' =
      <[inl ch := inl (commit_all (applied d done) d)]> (config_output s) /\
    t = t0 ++ map Write extra /\
    writes t0 = commands (applied d done) /\
    queries t0 = [] /\
    Forall (passed w d) done /\
    stop w d s' r rest extra.
Proof.
  intros ch Hd Ht. rewrite re_config_output_steps.
  unfold mbind, M_bind, bind. rewrite coerce_channel_eq. fold ch.
  rewrite (recognize_target _ _ _ _ _ Hd Ht).
  destruct (run_steps ch w print_changes
              (steps ch w frequency amplitude offset phase duty_cycle symmetry) s)
    as [[r2 s2] t2] eqn:Hrun.
  intros [= <- <- <-].
  destruct (run_steps_spec _ _ _ _ _ _ _ _ _ (steps_NoDup _ _ _ _ _ _ _ _) Hd Hrun)
    as (done & rest & t0 & extra & Hl & Hn & Hc & -> & Hw & Hq & Hf & Hs).
  exists done, rest, (diagnostic (nchannels s) channel ++ warning waveform ++ t0), extra.
  destruct (diagnostic_silent (nchannels s) channel) as [Hdw Hdq].
  destruct (warning_silent waveform) as [Hww Hwq].
  repeat split; try assumption.
  - rewrite <- !app_assoc. reflexivity.
  - rewrite !writes_app, Hdw, Hww. exact Hw.
  - rewrite !queries_app, Hdq, Hwq. exact Hq.
Qed.

Lemma steps_no_channel channel w frequency amplitude offset phase
    duty_cycle symmetry print_changes (s : state) :
  (forall d, config_output s !! inl channel <> Some (inl d)) ->
  exists e,
    run_steps channel w print_changes
      (steps channel w frequency amplitude offset phase duty_cycle symmetry) s
    = (Raises e, s, []) /\ lookup_error e.
Proof.
  intros Hno. unfold steps, basic_steps. cbn [app]. rewrite run_steps_cons.
  unfold bind, run_step. cbn [request required field].
  unfold reconfigure, mbind, M_bind, bind. rewrite config_item_eq.
  destruct (config_output s !! inl channel) as [[d|q]|] eqn:Hc.
  - exfalso. apply (Hno d). reflexivity.
  - exists TypeError. split; [reflexivity|left; reflexivity].
  - exists (KeyError (inl channel)). split; [reflexivity|right; eauto].
Qed.

(** Without them the call raises at its first look at the cache, having
    done nothing. *)
Theorem re_config_output_no_state channel waveform frequency amplitude offset phase
    duty_cycle symmetry print_changes (s : state) r s' t :
  let ch := effective (nchannels s) channel in
  (forall d w, config_output s !! inl ch = Some (inl d) -> target d waveform <> Some w) ->
  re_config_output channel waveform frequency amplitude offset phase
    duty_cycle symmetry print_changes s = (r, s', t) ->
  s' = s /\ writes t = [] /\ queries t = [] /\
  exists e, r = Raises e /\ lookup_error e.
Proof.
  intros ch Hno. rewrite re_config_output_steps.
  unfold mbind, M_bind, bind. rewrite coerce_channel_eq. fold ch.
  destruct (diagnostic_silent (nchannels s) channel) as [Hdw Hdq].
  destruct waveform as [x|].
  - rewrite recognize_Some. destruct (normalize_silent x) as [Hww Hwq].
    destruct (steps_no_channel ch (VStr (fst (normalize x))) frequency amplitude
                offset phase duty_cycle symmetry print_changes s) as (e & -> & He).
    { intros d Hd. apply (Hno d (VStr (fst (normalize x))) Hd). reflexivity. }
    intros [= <- <- <-]. rewrite !writes_app, !queries_app, Hdw, Hdq, Hww, Hwq.
    repeat split. exists e. split; [reflexivity|exact He].
  - unfold recognize. rewrite config_item_eq.
    destruct (config_output s !! inl ch) as [[d|q]|] eqn:Hc.
    + destruct (d !! "Waveform") as [w|] eqn:Hw.
      * exfalso. apply (Hno d w eq_refl). exact Hw.
      * intros [= <- <- <-]. rewrite !writes_app, !queries_app, Hdw, Hdq.
        repeat split. exists (KeyError (inr "Waveform")). split; [reflexivity|right; eauto].
    + intros [= <- <- <-]. rewrite !writes_app, !queries_app, Hdw, Hdq.
      repeat split. exists TypeError. split; [reflexivity|left; reflexivity].
    + intros [= <- <- <-]. rewrite !writes_app, !queries_app, Hdw, Hdq.
      repeat split. exists (KeyError (inl ch)). split; [reflexivity|right; eauto].
Qed.

(** A waveform taken from the cache is still the cached one after a run:
    it is left as it is or, being nan, written back. *)
Lemma cached_waveform_kept channel waveform frequency amplitude offset phase
    duty_cycle symmetry d w done rest :
  target d waveform = Some w ->
  steps channel w frequency amplitude offset phase duty_cycle symmetry = done ++ rest ->
  target (commit_all (applied d done) d) waveform = Some w.
Proof.
  intros Ht Hl. destruct waveform as [x|]; [exact Ht|]. simpl in *.
  destruct done as [|st0 done']; [exact Ht|].
  unfold steps, basic_steps in Hl. cbn [app] in Hl. injection Hl as <- Hl.
  assert (Hrest : forall st, In st (applied d done') -> field st <> "Waveform").
  { intros st Hst. unfold applied in Hst. apply filter_In in Hst as [Hst _].
    assert (Hin : In st (done' ++ rest)) by (apply in_or_app; left; exact Hst).
    rewrite <- Hl in Hin. simpl in Hin.
    destruct Hin as [<-|[<-|[<-|[<-|[<-|[<-|[]]]]]]]; discriminate. }
  unfold applied in *. cbn [List.filter].
  match goal with |- context [pending d ?st] => destruct (pending d st) end.
  - unfold commit_all. cbn [fold_left].
    match goal with
    | |- fold_left commit ?l ?d1 !! _ = _ =>
        change (commit_all l d1 !! "Waveform" = Some w)
    end.
    rewrite commit_all_lookup_ne by exact Hrest.
    unfold commit. cbn [request field]. apply lookup_insert_eq.
  - rewrite commit_all_lookup_ne by exact Hrest. exact Ht.
Qed.

(** An argument that is not nan. *)
Definition not_nan (x : option number) : Prop := x <> Some NaN.

Lemma steps_comparable channel w frequency amplitude offset phase duty_cycle symmetry :
  is_nan w = false ->
  Forall not_nan [frequency; amplitude; offset; phase; duty_cycle; symmetry] ->
  Forall comparable
    (steps channel w frequency amplitude offset phase duty_cycle symmetry).
Proof.
  intros Hw Hall.
  assert (Hnum : forall x : option number, not_nan x ->
            forall (f : number -> value * string * string),
            (forall y, fst (fst (f y)) = VNum y) ->
            match f <$> x with
            | Some (v, _, _) => is_nan v = false
            | None => True
            end).
  { intros [y|] Hx f Hf; [|exact I]. simpl.
    specialize (Hf y). destruct (f y) as [[v c] m]. simpl in Hf. subst v.
    destruct y; try reflexivity. exfalso. apply Hx. reflexivity. }
  repeat match goal with
  | H : Forall _ (_ :: _) |- _ =>
      let Hx := fresh "Hx" in inversion H as [|? ? Hx ?]; subst; clear H
  end.
  unfold steps, basic_steps, duty_cycle_step, symmetry_step, comparable. cbn [app].
  repeat (apply List.Forall_cons; [cbn [request]|]); try apply List.Forall_nil;
    try exact Hw; apply Hnum; try assumption; reflexivity.
Qed.

(** The waveform the cache holds for the channel, if it holds one, is not
    nan. *)
Definition waveform_not_nan (s : state) (channel : Z) : Prop :=
  forall d w, config_output s !! inl channel = Some (inl d) ->
              d !! "Waveform" = Some w -> is_nan w = false.

Lemma target_not_nan (s : state) channel waveform d w :
  (waveform = None -> waveform_not_nan s channel) ->
  config_output s !! inl channel = Some (inl d) ->
  target d waveform = Some w -> is_nan w = false.
Proof.
  intros H Hd Ht. destruct waveform as [x|]; simpl in Ht.
  - injection Ht as <-. reflexivity.
  - exact (H eq_refl d w Hd Ht).
Qed.

Theorem re_config_output_again channel waveform frequency amplitude offset phase
    duty_cycle symmetry print_changes (s : state) r s' t :
  re_config_output channel waveform frequency amplitude offset phase
    duty_cycle symmetry print_changes s = (r, s', t) ->
  r <> Raises VisaIOError ->
  Forall not_nan [frequency; amplitude; offset; phase; duty_cycle; symmetry] ->
  (waveform = None -> waveform_not_nan s (effective (nchannels s) channel)) ->
  exists t',
    re_config_output channel waveform frequency amplitude offset phase
      duty_cycle symmetry print_changes s' = (r, s', t') /\
    writes t' = [] /\ queries t' = [].
Proof.
  intros Hrun Hr Hargs Hwave. set (ch := effective (nchannels s) channel).
  destruct (config_output s !! inl ch) as [[d|q]|] eqn:Hd.
  1: destruct (target d waveform) as [w|] eqn:Ht.
  2-4: (assert (Hno : forall d w, config_output s !! inl ch = Some (inl d) ->
                                   target d waveform <> Some w) by congruence;
        destruct (re_config_output_no_state _ _ _ _ _ _ _ _ _ _ _ _ _ Hno Hrun)
          as (-> & Hw & Hq & _);
        exists t; auto).
  destruct (re_config_output_spec _ _ _ _ _ _ _ _ _ _ _ _ _ _ _ Hd Ht Hrun)
    as (done & rest & t0 & extra & Hl & Hn & Hc & _).
  fold ch in Hl, Hc.
  rewrite re_config_output_steps in Hrun. rewrite re_config_output_steps.
  unfold mbind, M_bind, bind in *. rewrite coerce_channel_eq in *.
  rewrite Hn. fold ch in Hrun |- *.
  rewrite (recognize_target _ _ _ _ _ Hd Ht) in Hrun.
  assert (Hd' : config_output s' !! inl ch
                = Some (inl (commit_all (applied d done) d)))
    by (rewrite Hc; apply lookup_insert_eq).
  rewrite (recognize_target ch waveform s' _ w Hd'
             (cached_waveform_kept _ _ _ _ _ _ _ _ _ _ _ _ Ht Hl)).
  destruct (run_steps ch w print_changes
              (steps ch w frequency amplitude offset phase duty_cycle symmetry) s)
    as [[r2 s2] t2] eqn:Hsteps.
  injection Hrun as <- <- <-.
  rewrite (run_steps_again _ _ _ _ _ _ _ _ _ (steps_NoDup _ _ _ _ _ _ _ _)
             (steps_comparable _ _ _ _ _ _ _ _ (target_not_nan _ _ _ _ _ Hwave Hd Ht) Hargs)
             Hd Hsteps Hr).
  eexists. split; [reflexivity|].
  destruct (diagnostic_silent (nchannels s) channel) as [Hdw Hdq].
  destruct (warning_silent waveform) as [Hww Hwq].
  rewrite !writes_app, !queries_app, Hdw, Hdq, Hww, Hwq. split; reflexivity.
Qed.

(** *** Properties of the waveform recognizer *)

Lemma scan_settled d tok :
  (forall kv, In kv d -> is_in (fst kv) tok = false) -> scan d tok = tok.
Proof.
  induction d as [|[k v] d IH]; intros H; [reflexivity|].
  unfold scan in *. simpl.
  pose proof (H (k, v) (or_introl eq_refl)) as Hk. simpl in Hk. rewrite Hk.
  apply IH. intros kv Hkv. apply H. right. exact Hkv.
Qed.

Lemma scan_unmatched d w : matching w d = [] -> scan d w = w.
Proof.
  induction d as [|[k v] d IH]; intros H; [reflexivity|].
  unfold scan, matching in *. simpl in *.
  destruct (is_in k w); [discriminate|]. apply IH, H.
Qed.

Lemma scan_first_match d w k tok rest :
  matching w d = (k, tok) :: rest ->
  (forall kv, In kv d -> is_in (fst kv) tok = false) ->
  scan d w = tok.
Proof.
  induction d as [|[k0 v0] d IH]; intros H Hs; [discriminate|].
  unfold scan, matching in *. simpl in *.
  destruct (is_in k0 w).
  - injection H as -> -> _. apply scan_settled.
    intros kv Hkv. apply Hs. right. exact Hkv.
  - apply IH; [exact H|]. intros kv Hkv. apply Hs. right. exact Hkv.
Qed.

(** No key of the table occurs in one of its tokens: once the loop has
    assigned a token, no later key matches. *)
Lemma tokens_settled tok kv :
  In tok (values dic) -> In kv dic -> is_in (fst kv) tok = false.
Proof.
  intros Htok Hkv.
  assert (H : forallb (fun tok => forallb (fun kv => negb (is_in (fst kv) tok)) dic)
                (values dic) = true) by reflexivity.
  rewrite forallb_forall in H. specialize (H tok Htok).
  rewrite forallb_forall in H. specialize (H kv Hkv).
  apply negb_true_iff in H. exact H.
Qed.

Lemma lower_not_token x : str_in (lower x) (values dic) = false.
Proof.
  destruct (str_in (lower x) (values dic)) eqn:H; [|reflexivity].
  unfold str_in in H. apply existsb_exists in H as (tok & Htok & Heq).
  apply String.eqb_eq in Heq.
  simpl in Htok.
  repeat (destruct Htok as [<-|Htok];
          [apply lower_head in Heq; discriminate|]).
  destruct Htok.
Qed.

Lemma normalize_first_match x k tok rest :
  is_in "c" (lower x) = false ->
  matching (lower x) dic = (k, tok) :: rest ->
  normalize x = (tok, []).
Proof.
  intros Hc Hm. unfold normalize. rewrite Hc.
  assert (Hin : In (k, tok) dic).
  { assert (H : In (k, tok) (matching (lower x) dic)) by (rewrite Hm; left; reflexivity).
    apply filter_In in H as [H _]. exact H. }
  assert (Htok : In tok (values dic)) by (apply (in_map snd) in Hin; exact Hin).
  rewrite (scan_first_match _ _ _ _ _ Hm) by (intros kv; apply tokens_settled, Htok).
  assert (Hv : str_in tok (values dic) = true).
  { unfold str_in. apply existsb_exists. exists tok. split; [exact Htok|apply String.eqb_refl]. }
  rewrite Hv. reflexivity.
Qed.

Lemma normalize_default x :
  is_in "c" (lower x) = false ->
  matching (lower x) dic = [] ->
  normalize x = ("SIN", [Print "Unrecognized Waveform ('SIN' as default)."]).
Proof.
  intros Hc Hm. unfold normalize. rewrite Hc.
  rewrite (scan_unmatched _ _ Hm), lower_not_token. reflexivity.
Qed.

(** *** What [get_config_output] stores *)

Lemma gen_query_inv cmd (s : state) a s' t :
  gen_query cmd s = (Returns a, s', t) ->
  dev_query T (gen s) cmd = Some a /\ s' = s /\ t = [Query cmd].
Proof.
  unfold gen_query. destruct (dev_query T (gen s) cmd); intros [=]; subst; auto.
Qed.

Lemma subscript_inv c channel (s : state) d s' t :
  subscript c channel s = (Returns d, s', t) ->
  c !! inl channel = Some (inl d) /\ s' = s /\ t = [].
Proof.
  unfold subscript. destruct (c !! inl channel) as [[d0|q]|]; intros [=]; subst; auto.
Qed.

Lemma local_set_inv c channel k v (s : state) c' s' t :
  local_set c channel k v s = (Returns c', s', t) ->
  exists d, c !! inl channel = Some (inl d) /\
            c' = <[inl channel := inl (<[k := v]> d)]> c /\ s' = s /\ t = [].
Proof.
  unfold local_set, subscript, mbind, M_bind, bind.
  destruct (c !! inl channel) as [[d|q]|]; simpl; intros [=]; subst. eauto.
Qed.

(** The duty-cycle query of a channel is answered and the answer parses. *)
Definition duty_cycle_answered (s : state) (channel : Z) : Prop :=
  exists a n, dev_query T (gen s) (SOUR channel ":PULS:DCYC?") = Some a /\
              find_1st_number a = Returns n.

(** The state of channel [c], if the configuration has one, is a [dict]
    without the key ['Duty Cycle']. *)
Definition lacks_duty_cycle (c : Z)
    (cfg : gmap (Z + string) (gmap string value + value)) : Prop :=
  forall e, cfg !! inl c = Some e -> exists d, e = inl d /\ d !! "Duty Cycle" = None.

Definition has_field (c : Z) (k : string)
    (cfg : gmap (Z + string) (gmap string value + value)) : Prop :=
  exists d, cfg !! inl c = Some (inl d) /\ is_Some (d !! k).

Definition top_level_duty_cycle
    (cfg : gmap (Z + string) (gmap string value + value)) : Prop :=
  exists n, cfg !! inr "Duty Cycle" = Some (inr (VNum (Finite n))).

(** How the configuration being built relates to an earlier one, while the
    loop is at [channel]. *)
Definition evolves (s : state) (channel : Z)
    (cfg cfg' : gmap (Z + string) (gmap string value + value)) : Prop :=
  (forall c, (c = channel -> duty_cycle_answered s channel) ->
             lacks_duty_cycle c cfg -> lacks_duty_cycle c cfg') /\
  (forall c k, has_field c k cfg -> has_field c k cfg') /\
  (top_level_duty_cycle cfg -> top_level_duty_cycle cfg').

Lemma evolves_refl s channel c : evolves s channel c c.
Proof. repeat split; auto. Qed.

Lemma evolves_trans s channel c1 c2 c3 :
  evolves s channel c1 c2 -> evolves s channel c2 c3 -> evolves s channel c1 c3.
Proof.
  intros (A1 & B1 & C1) (A2 & B2 & C2). repeat split.
  - intros c Hc H. apply A2, A1; assumption.
  - intros c k H. apply B2, B1, H.
  - intros H. apply C2, C1, H.
Qed.

Lemma has_field_insert (c channel : Z) (k k' : string) (v : value)
    (d : gmap string value)
    (cfg : gmap (Z + string) (gmap string value + value)) :
  cfg !! inl channel = Some (inl d) ->
  has_field c k' cfg ->
  has_field c k' (<[inl channel := inl (<[k := v]> d)]> cfg).
Proof.
  intros Hd (d' & Hd' & Hk). unfold has_field.
  destruct (decide (c = channel)) as [->|Hne].
  - rewrite lookup_insert_eq. exists (<[k := v]> d). split; [reflexivity|].
    rewrite Hd in Hd'. injection Hd' as <-.
    destruct (decide (k = k')) as [->|Hk'].
    + rewrite lookup_insert_eq. eauto.
    + rewrite lookup_insert_ne by exact Hk'. exact Hk.
  - rewrite lookup_insert_ne by congruence. eauto.
Qed.

Lemma local_set_evolves sq c channel k v (s : state) c' s' t :
  local_set c channel k v s = (Returns c', s', t) ->
  s' = s /\ has_field channel k c' /\
  (k <> "Duty Cycle" \/ ~ duty_cycle_answered sq channel -> evolves sq channel c c').
Proof.
  intros H. apply local_set_inv in H as (d & Hd & -> & -> & ->).
  split; [reflexivity|]. split.
  { exists (<[k := v]> d). rewrite !lookup_insert_eq. eauto. }
  intros Hk. repeat split.
  - intros c0 Hc0 Hl e. destruct (decide (c0 = channel)) as [->|Hne].
    + rewrite lookup_insert_eq. intros [= <-]. exists (<[k := v]> d). split; [reflexivity|].
      destruct Hk as [Hk|Hk]; [|exfalso; apply Hk, Hc0; reflexivity].
      rewrite lookup_insert_ne by exact Hk.
      destruct (Hl _ Hd) as (d0 & [= <-] & Hd0). exact Hd0.
    + rewrite lookup_insert_ne by congruence. apply Hl.
  - intros c0 k0. apply has_field_insert, Hd.
  - intros [n Hn]. exists n. rewrite lookup_insert_ne by discriminate. exact Hn.
Qed.

Lemma query_duty_cycle_returns cfg channel (s : state) cfg' s' t :
  query_duty_cycle cfg channel s = (Returns cfg', s', t) ->
  s' = s /\ evolves s channel cfg cfg' /\
  (duty_cycle_answered s channel -> top_level_duty_cycle cfg').
Proof.
  intros H. unfold query_duty_cycle, mbind, M_bind in H.
  apply try_except_inv in H as [H | (e & s1 & t1 & t2 & H & Hh & ->)].
  - do 2 invert_bind H. injection H as <- <- <-.
    apply gen_query_inv in H0 as (Hq & -> & ->).
    apply lift_outcome_inv in H1 as (Hn & -> & ->).
    split; [reflexivity|]. split; [|intros _; eexists; apply lookup_insert_eq].
    repeat split.
    + intros c _ Hl e. rewrite lookup_insert_ne by discriminate. apply Hl.
    + intros c k (d & Hd & Hk). exists d. rewrite lookup_insert_ne by discriminate. eauto.
    + intros _. eexists. apply lookup_insert_eq.
  - assert (Hno : s1 = s /\ ~ duty_cycle_answered s channel).
    { unfold bind, gen_query, duty_cycle_answered in *.
      destruct (dev_query T (gen s) (SOUR channel ":PULS:DCYC?")) as [a|] eqn:Hq.
      - destruct (find_1st_number a) as [n|e'] eqn:Hf; simpl in H; [discriminate|].
        injection H as <- <- <-. split; [reflexivity|].
        intros (a' & n' & [= <-] & Hn'). congruence.
      - injection H as <- <- <-. split; [reflexivity|].
        intros (a' & n' & [=] & _). }
    destruct Hno as [-> Hno].
    apply (local_set_evolves s) in Hh as (-> & _ & Hev).
    split; [reflexivity|]. split; [apply Hev; right; exact Hno|].
    intros Ha. exfalso. apply Hno, Ha.
Qed.

Lemma query_symmetry_returns cfg channel (s : state) cfg' s' t :
  query_symmetry cfg channel s = (Returns cfg', s', t) ->
  s' = s /\ evolves s channel cfg cfg'.
Proof.
  intros H. unfold query_symmetry, mbind, M_bind in H.
  apply try_except_inv in H as [H | (e & s1 & t1 & t2 & H & Hh & ->)].
  - do 2 invert_bind H.
    apply gen_query_inv in H0 as (Hq & -> & ->).
    apply lift_outcome_inv in H1 as (Hn & -> & ->).
    apply (local_set_evolves s) in H as (-> & _ & Hev).
    split; [reflexivity|]. apply Hev. left. discriminate.
  - assert (Hs1 : s1 = s).
    { unfold bind, gen_query, local_set, subscript, mbind, M_bind, bind in H.
      destruct (dev_query T (gen s) (SOUR channel ":FUNC:RAMP:SYMM?")) as [a|].
      - destruct (find_1st_number a) as [n|e']; simpl in H.
        + destruct (cfg !! inl channel) as [[d|q]|]; simpl in H; congruence.
        + congruence.
      - congruence. }
    subst s1. apply (local_set_evolves s) in Hh as (-> & _ & Hev).
    split; [reflexivity|]. apply Hev. left. discriminate.
Qed.

Lemma get_config_channel_returns cfg channel (s : state) cfg' s' t :
  get_config_channel cfg channel s = (Returns cfg', s', t) ->
  s' = s /\ evolves s channel cfg cfg' /\
  (forall k, In k ["Waveform"; "Frequency"; "Amplitude"; "Offset"; "Phase"] ->
             has_field channel k cfg') /\
  (duty_cycle_answered s channel -> top_level_duty_cycle cfg').
Proof.
  intros H. unfold get_config_channel, mbind, M_bind in H.
  do 21 invert_bind H.
  injection H as <- <- <-.
  repeat match goal with
  | H : gen_query _ _ = _ |- _ => apply gen_query_inv in H as (_ & -> & ->)
  | H : lift_opt _ _ _ = _ |- _ => apply lift_opt_inv in H as (_ & -> & ->)
  | H : lift_outcome _ _ = _ |- _ => apply lift_outcome_inv in H as (_ & -> & ->)
  | H : subscript _ _ _ = _ |- _ => apply subscript_inv in H as (_ & -> & ->)
  | H : local_set _ _ _ _ _ = _ |- _ =>
      let Hf := fresh "Hf" in let Hev := fresh "Hev" in
      apply (local_set_evolves s) in H as (-> & Hf & Hev);
      specialize (Hev ltac:(left; discriminate))
  end.
  match goal with
  | H : query_duty_cycle _ _ _ = _ |- _ =>
      apply query_duty_cycle_returns in H as (-> & Hev5 & Htop)
  end.
  match goal with
  | H : query_symmetry _ _ _ = _ |- _ =>
      apply query_symmetry_returns in H as (-> & Hev6)
  end.
  split; [reflexivity|]. split.
  { repeat (eapply evolves_trans; [eassumption|]). apply evolves_refl. }
  split.
  - intros k Hk. simpl in Hk.
    assert (Hlater : forall c1 c2 k0, evolves s channel c1 c2 ->
              has_field channel k0 c1 -> has_field channel k0 c2)
      by (intros c1 c2 k0 (_ & B & _); apply B).
    destruct Hk as [<-|[<-|[<-|[<-|[<-|[]]]]]];
      repeat (first [eassumption | eapply Hlater; [eassumption|]]).
  - intros Ha. destruct Hev6 as (_ & _ & C). apply C, Htop, Ha.
Qed.

Lemma for_channels_returns channels :
  forall cfg (s : state) cfg' s' t,
  for_channels channels cfg s = (Returns cfg', s', t) ->
  s' = s /\
  (forall c, duty_cycle_answered s c -> lacks_duty_cycle c cfg -> lacks_duty_cycle c cfg') /\
  (forall c k, has_field c k cfg -> has_field c k cfg') /\
  (forall c k, In c channels ->
     In k ["Waveform"; "Frequency"; "Amplitude"; "Offset"; "Phase"] ->
     has_field c k cfg') /\
  ((exists c, In c channels /\ duty_cycle_answered s c) \/ top_level_duty_cycle cfg ->
   top_level_duty_cycle cfg').
Proof.
  induction channels as [|channel rest IH]; intros cfg s cfg' s' t H.
  - injection H as <- <- <-. repeat split; try tauto.
    + intros c k [].
    + intros [(c & [] & _)|H]; exact H.
  - simpl in H. unfold mbind, M_bind in H. invert_bind H.
    apply get_config_channel_returns in H0 as (-> & (A1 & B1 & C1) & F1 & T1).
    apply IH in H as (-> & A2 & B2 & F2 & T2).
    split; [reflexivity|]. repeat split.
    + intros c Hc Hl. apply A2; [exact Hc|]. apply A1; [|exact Hl].
      intros ->. exact Hc.
    + intros c k Hk. apply B2, B1, Hk.
    + intros c k [<-|Hc] Hk; [apply B2, F1, Hk|apply F2; assumption].
    + intros [(c & [<-|Hc] & Ha)|Htop]; apply T2.
      * right. apply T1, Ha.
      * left. eauto.
      * right. apply C1, Htop.
Qed.

Lemma fresh_configuration (l : list Z) c e :
  (list_to_map (map (fun i => (inl i, inl ∅)) l)
     : gmap (Z + string) (gmap string value + value)) !! inl c = Some e ->
  e = inl ∅.
Proof.
  induction l as [|i l IH]; simpl.
  - rewrite lookup_empty. discriminate.
  - destruct (decide (i = c)) as [->|Hne].
    + rewrite lookup_insert_eq. congruence.
    + rewrite lookup_insert_ne by congruence. exact IH.
Qed.

(** Every channel whose duty-cycle query is answered gets a state with the
    five fields queried before it and without ['Duty Cycle'], which lands
    at the top level of the configuration. *)
Theorem get_config_output_returns (s : state) cfg s' t :
  get_config_output s = (Returns cfg, s', t) ->
  s' = s /\
  (forall c, In c (channel_range (nchannels s)) -> duty_cycle_answered s c ->
     exists d, cfg !! inl c = Some (inl d) /\ d !! "Duty Cycle" = None /\
       forall k, In k ["Waveform"; "Frequency"; "Amplitude"; "Offset"; "Phase"] ->
                 is_Some (d !! k)) /\
  ((exists c, In c (channel_range (nchannels s)) /\ duty_cycle_answered s c) ->
   top_level_duty_cycle cfg).
Proof.
  unfold get_config_output, mbind, M_bind, bind, gets. simpl.
  destruct (for_channels _ _ s) as [[r s1] t1] eqn:H.
  intros [= -> -> <-].
  apply for_channels_returns in H as (-> & A & _ & F & Top).
  split; [reflexivity|]. split.
  - intros c Hc Ha.
    assert (Hl : lacks_duty_cycle c cfg).
    { apply A; [exact Ha|]. intros e He. apply fresh_configuration in He as ->.
      exists ∅. split; [reflexivity|apply lookup_empty]. }
    destruct (F c "Phase" Hc ltac:(simpl; tauto)) as (d & Hd & _).
    exists d. split; [exact Hd|].
    destruct (Hl _ Hd) as (d0 & [= <-] & Hno). split; [exact Hno|].
    intros k Hk. destruct (F c k Hc Hk) as (d1 & Hd1 & Hk1). congruence.
  - intros H. apply Top. left. exact H.
Qed.


(** *** A step that cannot pass

    When a requested step is invalid for the waveform, or its field is
    missing from the cache, the run never returns: it raises at that step,
    or at an earlier one. *)

Definition stuck (waveform : value) (d : gmap string value) (st : step) : option exn :=
  match blocked waveform st with
  | Some msg => Some (ValueError msg)
  | None =>
      match d !! field st with
      | None => Some (KeyError (inr (field st)))
      | Some _ => None
      end
  end.

Lemma stuck_not_passed waveform d st e :
  is_Some (request st) -> stuck waveform d st = Some e -> ~ passed waveform d st.
Proof.
  unfold stuck, passed. intros Hr Hs Hp. destruct (Hp Hr) as [Hb [old Hold]].
  rewrite Hb, Hold in Hs. discriminate.
Qed.

Lemma commands_applied_in d done c :
  In c (commands (applied d done)) -> In c (commands done).
Proof.
  unfold commands, applied. rewrite <- !list_elem_of_In, !list_elem_of_omap.
  intros (st & Hst & Hc). exists st. split; [|exact Hc].
  apply list_elem_of_In. apply list_elem_of_In, filter_In in Hst as [Hst _]. exact Hst.
Qed.

Lemma commands_app l1 l2 : commands (l1 ++ l2) = commands l1 ++ commands l2.
Proof. apply omap_app. Qed.

Definition reliable : Prop := forall g cmd, dev_write T g cmd <> None.

Theorem run_steps_stuck channel waveform print_changes l pre g post
    (s : state) d e r s' t :
  l = pre ++ g :: post ->
  List.NoDup (map field l) ->
  config_output s !! inl channel = Some (inl d) ->
  is_Some (request g) ->
  stuck waveform d g = Some e ->
  run_steps channel waveform print_changes l s = (r, s', t) ->
  (exists e', r = Raises e') /\
  (forall c, In c (writes t) -> In c (commands pre)) /\
  (reliable -> Forall (passed waveform d) pre -> r = Raises e).
Proof.
  intros Hl Hnd Hd Hreq Hstuck Hrun.
  destruct (run_steps_spec _ _ _ _ _ _ _ _ _ Hnd Hd Hrun)
    as (done & rest & t0 & extra & Hsplit & _ & _ & -> & Hw & _ & Hf & Hs).
  rewrite Hl in Hsplit. symmetry in Hsplit.
  assert (Hatg : rest = g :: post -> commands done = commands pre ->
            (exists e', r = Raises e') /\
            (forall c, In c (writes (t0 ++ map Write extra)) -> In c (commands pre)) /\
            (reliable -> Forall (passed waveform d) pre -> r = Raises e)).
  { intros -> Hcs.
    inversion Hs as [|st rest' msg Hr Hb|st rest' Hr Hb Hm|st rest' cmd Hc Hb Hp Hwr]; subst.
    - split; [eauto|]. split.
      + intros c. rewrite writes_app, writes_Write, app_nil_r, Hw, <- Hcs.
        apply commands_applied_in.
      + intros _ _. unfold stuck in Hstuck. rewrite Hb in Hstuck. congruence.
    - split; [eauto|]. split.
      + intros c. rewrite writes_app, writes_Write, app_nil_r, Hw, <- Hcs.
        apply commands_applied_in.
      + intros _ _. unfold stuck in Hstuck. rewrite Hb, Hm in Hstuck. congruence.
    - exfalso. unfold stuck in Hstuck. rewrite Hb in Hstuck.
      unfold pending in Hp. destruct (request g) as [[[v ?] ?]|]; [|discriminate].
      destruct (d !! field g); discriminate. }
  apply app_eq_app in Hsplit as [mid [[-> Hrest]|[-> Hrest]]].
  { (* the steps done reach the step or go past it *)
    destruct mid as [|x mid]; simpl in Hrest.
    - rewrite app_nil_r in *. apply Hatg; [congruence|reflexivity].
    - injection Hrest as <- _. exfalso.
      apply (stuck_not_passed _ _ _ _ Hreq Hstuck).
      apply List.Forall_forall with (x := g) in Hf; [exact Hf|].
      apply in_or_app. right. left. reflexivity. }
  (* the run stopped before the step *)
  destruct mid as [|x mid]; simpl in Hrest.
  { rewrite app_nil_r in *. apply Hatg; [exact Hrest|reflexivity]. }
  subst rest.
  inversion Hs as [|st rest' msg Hr Hb|st rest' Hr Hb Hm|st rest' cmd Hc Hb Hp Hwr]; subst.
  - split; [eauto|]. split.
    + intros c. rewrite writes_app, writes_Write, app_nil_r, Hw. intros Hc.
      apply commands_applied_in in Hc. rewrite commands_app. apply in_or_app. left. exact Hc.
    + intros _ Hpre. exfalso.
      apply List.Forall_forall with (x := x) in Hpre;
        [|apply in_or_app; right; left; reflexivity].
      destruct (Hpre Hr) as [Hb' _]. congruence.
  - split; [eauto|]. split.
    + intros c. rewrite writes_app, writes_Write, app_nil_r, Hw. intros Hc.
      apply commands_applied_in in Hc. rewrite commands_app. apply in_or_app. left. exact Hc.
    + intros _ Hpre. exfalso.
      apply List.Forall_forall with (x := x) in Hpre;
        [|apply in_or_app; right; left; reflexivity].
      destruct (Hpre Hr) as [_ [old Hold]]. congruence.
  - split; [eauto|]. split.
    + intros c. rewrite writes_app, writes_Write, Hw. intros Hin.
      rewrite !commands_app. apply in_app_or in Hin as [Hin|[<-|[]]].
      * apply in_or_app. left. apply (commands_applied_in d), Hin.
      * apply in_or_app. right. unfold commands. simpl. rewrite Hc. left. reflexivity.
    + intros Hrel _. exfalso. apply (Hrel _ _ Hwr).
Qed.

Theorem re_config_output_stuck channel waveform frequency amplitude offset phase
    duty_cycle symmetry print_changes (s : state) d w pre g post e r s' t :
  let ch := effective (nchannels s) channel in
  config_output s !! inl ch = Some (inl d) ->
  target d waveform = Some w ->
  steps ch w frequency amplitude offset phase duty_cycle symmetry = pre ++ g :: post ->
  is_Some (request g) ->
  stuck w d g = Some e ->
  re_config_output channel waveform frequency amplitude offset phase
    duty_cycle symmetry print_changes s = (r, s', t) ->
  (exists e', r = Raises e') /\
  (forall c, In c (writes t) -> In c (commands pre)) /\
  (reliable -> Forall (passed w d) pre -> r = Raises e).
Proof.
  intros ch Hd Ht Hl Hreq Hstuck. rewrite re_config_output_steps.
  unfold mbind, M_bind, bind. rewrite coerce_channel_eq. fold ch.
  rewrite (recognize_target _ _ _ _ _ Hd Ht).
  destruct (run_steps ch w print_changes
              (steps ch w frequency amplitude offset phase duty_cycle symmetry) s)
    as [[r2 s2] t2] eqn:Hrun.
  intros [= <- <- <-].
  destruct (run_steps_stuck _ _ _ _ _ _ _ _ _ _ _ _ _ Hl
              (steps_NoDup _ _ _ _ _ _ _ _) Hd Hreq Hstuck Hrun) as (Hr & Hw & He).
  split; [exact Hr|]. split; [|exact He].
  destruct (diagnostic_silent (nchannels s) channel) as [Hdw _].
  destruct (warning_silent waveform) as [Hww _].
  intros c. rewrite !writes_app, Hdw, Hww. apply Hw.
Qed.

Lemma SOUR_inj channel a b : SOUR channel a = SOUR channel b -> a = b.
Proof. unfold SOUR. intros H. do 2 apply append_inv_head in H. exact H. Qed.

Definition DCYC (channel : Z) (x : number) : string :=
  SOUR channel (":PULS:DCYC " +:+ fmt_1f x).

Definition SYMM (channel : Z) (x : number) : string :=
  SOUR channel (":FUNC:RAMP:SYMM " +:+ fmt_1f x).

Lemma basic_commands channel w frequency amplitude offset phase c x :
  In c (commands (basic_steps channel w frequency amplitude offset phase)) ->
  c <> DCYC channel x /\ c <> SYMM channel x.
Proof.
  unfold commands, basic_steps, DCYC, SYMM. intros H.
  destruct frequency, amplitude, offset, phase; simpl in H;
    repeat (destruct H as [<-|H];
            [split; intros E; apply SOUR_inj in E; discriminate|]);
    destruct H.
Qed.

Definition basic_fields : list string :=
  ["Waveform"; "Frequency"; "Amplitude"; "Offset"; "Phase"].

Lemma basic_steps_passed channel w frequency amplitude offset phase d :
  (forall k, In k basic_fields -> is_Some (d !! k)) ->
  Forall (passed w d) (basic_steps channel w frequency amplitude offset phase).
Proof.
  intros H. unfold basic_steps.
  repeat (constructor; [intros _; split; [reflexivity|apply H; simpl; tauto]|]).
  constructor.
Qed.

(** The duty cycle is refused on any waveform but ['PULS'], and no command
    for it is sent. *)
Theorem duty_cycle_gated channel waveform frequency amplitude offset phase
    q symmetry print_changes (s : state) d w r s' t :
  let ch := effective (nchannels s) channel in
  config_output s !! inl ch = Some (inl d) ->
  target d waveform = Some w ->
  py_ne w (VStr "PULS") = true ->
  re_config_output channel waveform frequency amplitude offset phase
    (Some q) symmetry print_changes s = (r, s', t) ->
  (exists e, r = Raises e) /\
  ~ In (DCYC ch q) (writes t) /\
  (reliable -> (forall k, In k basic_fields -> is_Some (d !! k)) ->
   r = Raises (ValueError "Can only set duty cycle on 'PULS'")).
Proof.
  intros ch Hd Ht Hw Hrun.
  destruct (re_config_output_stuck _ _ _ _ _ _ _ _ _ _ d w
              (basic_steps ch w frequency amplitude offset phase)
              (duty_cycle_step ch (Some q)) [symmetry_step ch symmetry]
              (ValueError "Can only set duty cycle on 'PULS'") _ _ _
              Hd Ht eq_refl ltac:(simpl; eauto)
              ltac:(unfold stuck, blocked; simpl; rewrite Hw; reflexivity) Hrun)
    as (Hr & Hc & He).
  split; [exact Hr|]. split.
  - intros Hin. apply Hc in Hin. apply (basic_commands _ _ _ _ _ _ _ q) in Hin as [Hin _].
    apply Hin. reflexivity.
  - intros Hrel Hk. apply He; [exact Hrel|]. apply basic_steps_passed, Hk.
Qed.

(** Likewise the symmetry on any waveform but ['RAMP']. *)
Theorem symmetry_gated channel waveform frequency amplitude offset phase
    duty_cycle q print_changes (s : state) d w r s' t :
  let ch := effective (nchannels s) channel in
  config_output s !! inl ch = Some (inl d) ->
  target d waveform = Some w ->
  py_ne w (VStr "RAMP") = true ->
  re_config_output channel waveform frequency amplitude offset phase
    duty_cycle (Some q) print_changes s = (r, s', t) ->
  (exists e, r = Raises e) /\
  ~ In (SYMM ch q) (writes t) /\
  (reliable -> (forall k, In k basic_fields -> is_Some (d !! k)) ->
   passed w d (duty_cycle_step ch duty_cycle) ->
   r = Raises (ValueError "Can only set symmetry on 'RAMP'")).
Proof.
  intros ch Hd Ht Hw Hrun.
  destruct (re_config_output_stuck _ _ _ _ _ _ _ _ _ _ d w
              (basic_steps ch w frequency amplitude offset phase
                 ++ [duty_cycle_step ch duty_cycle])
              (symmetry_step ch (Some q)) []
              (ValueError "Can only set symmetry on 'RAMP'") _ _ _
              Hd Ht eq_refl ltac:(simpl; eauto)
              ltac:(unfold stuck, blocked; simpl; rewrite Hw; reflexivity) Hrun)
    as (Hr & Hc & He).
  split; [exact Hr|]. split.
  - intros Hin. apply Hc in Hin. rewrite commands_app in Hin.
    apply in_app_or in Hin as [Hin|Hin].
    + apply (basic_commands _ _ _ _ _ _ _ q) in Hin as [_ Hin]. apply Hin. reflexivity.
    + unfold commands, SYMM in Hin. destruct duty_cycle; simpl in Hin; [|destruct Hin].
      destruct Hin as [Hin|[]]. apply SOUR_inj in Hin. discriminate.
  - intros Hrel Hk Hduty. apply He; [exact Hrel|].
    apply Forall_app. split; [apply basic_steps_passed, Hk|].
    constructor; [exact Hduty|constructor].
Qed.

(** *** The writes of a call and the cache after it *)

Lemma commit_all_lookup_in l d st v c m :
  List.NoDup (map field l) -> In st l -> request st = Some (v, c, m) ->
  commit_all l d !! field st = Some v.
Proof.
  revert d. induction l as [|x l IH]; intros d Hnd Hin Hreq; [destruct Hin|].
  inversion Hnd as [|? ? Hnotin Hnd']; subst.
  unfold commit_all in *. simpl. destruct Hin as [->|Hin].
  - fold (commit_all l (commit d st)). rewrite commit_all_lookup_ne.
    + unfold commit. rewrite Hreq. apply lookup_insert_eq.
    + apply fields_apart, Hnotin.
  - apply IH; assumption.
Qed.

Lemma applied_fields_NoDup d l :
  List.NoDup (map field l) -> List.NoDup (map field (applied d l)).
Proof.
  induction l as [|x l IH]; intros Hnd; [constructor|].
  inversion Hnd as [|? ? Hnotin Hnd']; subst.
  unfold applied in *. simpl. destruct (pending d x); [|apply IH, Hnd'].
  simpl. constructor; [|apply IH, Hnd'].
  intros Hin. apply Hnotin. apply in_map_iff in Hin as (y & Hy & Hin).
  apply filter_In in Hin as [Hin _]. rewrite <- Hy. apply in_map, Hin.
Qed.

Lemma fields_determine l (x y : step) :
  List.NoDup (map field l) -> In x l -> In y l -> field x = field y -> x = y.
Proof.
  induction l as [|z l IH]; intros Hnd Hx Hy Heq; [destruct Hx|].
  inversion Hnd as [|? ? Hnotin Hnd']; subst.
  destruct Hx as [->|Hx], Hy as [->|Hy]; auto.
  - exfalso. apply Hnotin. rewrite Heq. apply in_map, Hy.
  - exfalso. apply Hnotin. rewrite <- Heq. apply in_map, Hx.
Qed.

Lemma commands_length d l : length (commands (applied d l)) = length (applied d l).
Proof.
  unfold commands, applied. induction l as [|x l IH]; [reflexivity|].
  simpl. destruct (pending d x) eqn:Hp; [|exact IH].
  simpl. unfold pending, command in *.
  destruct (request x) as [[[v c] m]|]; [|discriminate]. simpl. f_equal. exact IH.
Qed.

Lemma unpending_kept d l st :
  List.NoDup (map field l) -> In st l -> pending d st = false ->
  commit_all (applied d l) d !! field st = d !! field st.
Proof.
  intros Hnd Hin Hp. apply commit_all_lookup_ne. intros x Hx Heq.
  unfold applied in Hx. apply filter_In in Hx as [Hx Hpx].
  rewrite (fields_determine l x st Hnd Hx Hin Heq) in Hpx. congruence.
Qed.

(** A call that returns has sent one command for each requested field that
    differed from the cache, and has overwritten exactly those entries. *)
Theorem re_config_output_minimal channel waveform frequency amplitude offset phase
    duty_cycle symmetry print_changes (s : state) s' t :
  re_config_output channel waveform frequency amplitude offset phase
    duty_cycle symmetry print_changes s = (Returns tt, s', t) ->
  let ch := effective (nchannels s) channel in
  exists d w,
    config_output s !! inl ch = Some (inl d) /\
    target d waveform = Some w /\
    let l := steps ch w frequency amplitude offset phase duty_cycle symmetry in
    let todo := applied d l in
    writes t = commands todo /\
    length (writes t) = length todo /\
    List.NoDup (map field todo) /\
    queries t = [] /\
    config_output s' = <[inl ch := inl (commit_all todo d)]> (config_output s) /\
    (forall st v c m, In st todo -> request st = Some (v, c, m) ->
       commit_all todo d !! field st = Some v) /\
    (forall st, In st l -> pending d st = false ->
       commit_all todo d !! field st = d !! field st).
Proof.
  intros Hrun ch.
  destruct (config_output s !! inl ch) as [[d|q]|] eqn:Hd.
  1: destruct (target d waveform) as [w|] eqn:Ht.
  2-4: (assert (Hno : forall d w, config_output s !! inl ch = Some (inl d) ->
                                   target d waveform <> Some w) by congruence;
        destruct (re_config_output_no_state _ _ _ _ _ _ _ _ _ _ _ _ _ Hno Hrun)
          as (_ & _ & _ & e & [=] & _)).
  exists d, w. split; [first [exact Hd|reflexivity]|]. split; [exact Ht|].
  destruct (re_config_output_spec _ _ _ _ _ _ _ _ _ _ _ _ _ _ _ Hd Ht Hrun)
    as (done & rest & t0 & extra & Hl & _ & Hc & -> & Hw & Hq & _ & Hs).
  fold ch in Hl, Hc. inversion Hs; subst. rewrite app_nil_r in Hl. subst done.
  pose proof (steps_NoDup ch w frequency amplitude offset phase duty_cycle symmetry) as Hnd.
  cbv zeta. change (map Write []) with (@nil event). rewrite !app_nil_r.
  repeat split; try assumption.
  - rewrite Hw. apply commands_length.
  - apply applied_fields_NoDup, Hnd.
  - intros st v c m. apply commit_all_lookup_in, applied_fields_NoDup, Hnd.
  - intros st. apply unpending_kept, Hnd.
Qed.

(** A call whose write fails stops there: the fields before keep what was
    committed, the field of the failed write and those after it are as they
    were, and the failed command is the last thing the call did. *)
Theorem re_config_output_transport_failure channel waveform frequency amplitude
    offset phase duty_cycle symmetry print_changes (s : state) s' t :
  re_config_output channel waveform frequency amplitude offset phase
    duty_cycle symmetry print_changes s = (Raises VisaIOError, s', t) ->
  let ch := effective (nchannels s) channel in
  exists d w done st rest cmd t0,
    config_output s !! inl ch = Some (inl d) /\
    target d waveform = Some w /\
    steps ch w frequency amplitude offset phase duty_cycle symmetry
      = done ++ st :: rest /\
    command st = Some cmd /\ pending d st = true /\
    dev_write T (gen s') cmd = None /\
    t = t0 ++ [Write cmd] /\
    writes t0 = commands (applied d done) /\
    let d' := commit_all (applied d done) d in
    config_output s' = <[inl ch := inl d']> (config_output s) /\
    (forall x v c m, In x (applied d done) -> request x = Some (v, c, m) ->
       d' !! field x = Some v) /\
    (forall x, In x (st :: rest) -> d' !! field x = d !! field x).
Proof.
  intros Hrun ch.
  destruct (config_output s !! inl ch) as [[d|q]|] eqn:Hd.
  1: destruct (target d waveform) as [w|] eqn:Ht.
  2-4: (assert (Hno : forall d w, config_output s !! inl ch = Some (inl d) ->
                                   target d waveform <> Some w) by congruence;
        destruct (re_config_output_no_state _ _ _ _ _ _ _ _ _ _ _ _ _ Hno Hrun)
          as (_ & _ & _ & e & [= <-] & [[=]|[k [=]]])).
  destruct (re_config_output_spec _ _ _ _ _ _ _ _ _ _ _ _ _ _ _ Hd Ht Hrun)
    as (done & rest & t0 & extra & Hl & _ & Hc & -> & Hw & Hq & _ & Hs).
  fold ch in Hl, Hc.
  inversion Hs as [| | |st rest' cmd Hcmd Hb Hp Hwr]; subst.
  pose proof (steps_NoDup ch w frequency amplitude offset phase duty_cycle symmetry) as Hnd.
  rewrite Hl in Hnd.
  exists d, w, done, st, rest', cmd, t0. repeat split; try assumption.
  - intros x v c m. apply commit_all_lookup_in, applied_fields_NoDup.
    rewrite map_app in Hnd. apply NoDup_app_remove_r in Hnd. exact Hnd.
  - intros x Hx. apply commit_all_lookup_ne. intros y Hy Heq.
    unfold applied in Hy. apply filter_In in Hy as [Hy _].
    assert (Hxy : y = x).
    { apply (fields_determine (done ++ st :: rest')); try assumption.
      - apply in_or_app. left. exact Hy.
      - apply in_or_app. right. exact Hx. }
    subst y. rewrite map_app in Hnd.
    apply NoDup_ListNoDup, NoDup_app in Hnd as (_ & Hdisj & _).
    apply (Hdisj (field x)); apply list_elem_of_In, in_map; assumption.
Qed.

(** Whatever the outcome, the call asks the device nothing, and every
    entry whose command the device took holds the value sent. *)
Theorem re_config_output_write_through channel waveform frequency amplitude
    offset phase duty_cycle symmetry print_changes (s : state) r s' t :
  re_config_output channel waveform frequency amplitude offset phase
    duty_cycle symmetry print_changes s = (r, s', t) ->
  let ch := effective (nchannels s) channel in
  queries t = [] /\
  forall d w,
    config_output s !! inl ch = Some (inl d) ->
    target d waveform = Some w ->
    exists done rest refused,
      steps ch w frequency amplitude offset phase duty_cycle symmetry = done ++ rest /\
      writes t = commands (applied d done) ++ refused /\
      stop w d s' r rest refused /\
      let d' := commit_all (applied d done) d in
      config_output s' = <[inl ch := inl d']> (config_output s) /\
      forall x v c m, In x (applied d done) -> request x = Some (v, c, m) ->
        d' !! field x = Some v.
Proof.
  intros Hrun ch. split.
  - destruct (config_output s !! inl ch) as [[d|q]|] eqn:Hd.
    1: destruct (target d waveform) as [w|] eqn:Ht.
    2-4: (assert (Hno : forall d w, config_output s !! inl ch = Some (inl d) ->
                                     target d waveform <> Some w) by congruence;
          destruct (re_config_output_no_state _ _ _ _ _ _ _ _ _ _ _ _ _ Hno Hrun)
            as (_ & _ & Hq & _); exact Hq).
    destruct (re_config_output_spec _ _ _ _ _ _ _ _ _ _ _ _ _ _ _ Hd Ht Hrun)
      as (done & rest & t0 & extra & _ & _ & _ & -> & _ & Hq & _).
    rewrite queries_app, Hq, queries_Write. reflexivity.
  - intros d w Hd Ht.
    destruct (re_config_output_spec _ _ _ _ _ _ _ _ _ _ _ _ _ _ _ Hd Ht Hrun)
      as (done & rest & t0 & extra & Hl & _ & Hc & -> & Hw & _ & _ & Hs).
    exists done, rest, extra. fold ch in Hl, Hc.
    split; [exact Hl|]. split; [rewrite writes_app, writes_Write, Hw; reflexivity|].
    split; [exact Hs|]. split; [exact Hc|].
    intros x v c m. apply commit_all_lookup_in, applied_fields_NoDup.
    pose proof (steps_NoDup ch w frequency amplitude offset phase duty_cycle symmetry) as Hnd.
    rewrite Hl, map_app in Hnd. apply NoDup_app_remove_r in Hnd. exact Hnd.
Qed.

(** One block: when it has sent its command, the entry holds the value,
    before anything else happens. *)
Lemma reconfigure_write_through channel F v cmd changed print_changes
    (s : state) s1 t1 :
  reconfigure channel F v cmd changed print_changes s = (Returns tt, s1, t1) ->
  In (Write cmd) t1 ->
  config_item channel F s1 = (Returns v, s1, []) /\ queries t1 = [].
Proof.
  destruct (config_output s !! inl channel) as [[d|q]|] eqn:Hd.
  2-3: (unfold reconfigure, mbind, M_bind, bind; rewrite config_item_eq, Hd; discriminate).
  rewrite (reconfigure_eq _ _ _ _ _ _ _ _ Hd).
  destruct (d !! F) as [old|]; [|discriminate].
  destruct (py_ne old v).
  - destruct (dev_write T (gen s) cmd) as [g|]; [|discriminate].
    intros [= <- <-] _. rewrite config_item_eq. unfold store. simpl.
    rewrite !lookup_insert_eq. split; [reflexivity|].
    destruct print_changes; reflexivity.
  - intros [= <- <-] [].
Qed.

(** *** Both limits at once *)

Lemma not_PULS_or_not_RAMP w :
  py_ne w (VStr "PULS") = false -> py_ne w (VStr "RAMP") = true.
Proof.
  unfold py_ne. destruct w as [b|x|q]; simpl; try discriminate.
  intros H. apply negb_false_iff, String.eqb_eq in H. subst x. reflexivity.
Qed.

Theorem duty_cycle_and_symmetry channel waveform frequency amplitude offset phase
    q q' print_changes (s : state) r s' t :
  re_config_output channel waveform frequency amplitude offset phase
    (Some q) (Some q') print_changes s = (r, s', t) ->
  let ch := effective (nchannels s) channel in
  (exists e, r = Raises e) /\
  forall d w,
    config_output s !! inl ch = Some (inl d) ->
    target d waveform = Some w ->
    reliable ->
    (forall k, In k basic_fields -> is_Some (d !! k)) ->
    (py_ne w (VStr "PULS") = true /\
     r = Raises (ValueError "Can only set duty cycle on 'PULS'")) \/
    (w = VStr "PULS" /\
     (is_Some (d !! "Duty Cycle") ->
      r = Raises (ValueError "Can only set symmetry on 'RAMP'"))).
Proof.
  intros Hrun ch. split.
  - destruct (config_output s !! inl ch) as [[d|x]|] eqn:Hd.
    1: destruct (target d waveform) as [w|] eqn:Ht.
    2-4: (assert (Hno : forall d w, config_output s !! inl ch = Some (inl d) ->
                                     target d waveform <> Some w) by congruence;
          destruct (re_config_output_no_state _ _ _ _ _ _ _ _ _ _ _ _ _ Hno Hrun)
            as (_ & _ & _ & e & -> & _); eauto).
    destruct (py_ne w (VStr "PULS")) eqn:Hw.
    + apply (duty_cycle_gated _ _ _ _ _ _ _ _ _ _ _ _ _ _ _ Hd Ht Hw Hrun).
    + apply (symmetry_gated _ _ _ _ _ _ _ _ _ _ _ _ _ _ _ Hd Ht
               (not_PULS_or_not_RAMP _ Hw) Hrun).
  - intros d w Hd Ht Hrel Hk.
    destruct (py_ne w (VStr "PULS")) eqn:Hw.
    + left. split; [reflexivity|].
      apply (duty_cycle_gated _ _ _ _ _ _ _ _ _ _ _ _ _ _ _ Hd Ht Hw Hrun); assumption.
    + right. split.
      { unfold py_ne in Hw. destruct w as [b|x|y]; simpl in Hw; try discriminate.
        apply negb_false_iff, String.eqb_eq in Hw. congruence. }
      intros Hdc.
      apply (symmetry_gated _ _ _ _ _ _ _ _ _ _ _ _ _ _ _ Hd Ht
               (not_PULS_or_not_RAMP _ Hw) Hrun); try assumption.
      intros _. split; [|exact Hdc].
      unfold blocked. simpl. rewrite Hw. reflexivity.
Qed.

(** [re_config_output()] with the defaults of its signature. *)
Definition re_config_output_defaults : Mg unit :=
  re_config_output 1 (Some "sin") (Some (Finite 1000)) (Some (Finite 1)) (Some (Finite 0)) (Some (Finite 0))
    (Some (Finite 50)) (Some (Finite 50)) false.

(** *** A cache without the duty cycle *)

Theorem duty_cycle_missing channel waveform frequency amplitude offset phase
    q symmetry print_changes (s : state) d r s' t :
  let ch := effective (nchannels s) channel in
  config_output s !! inl ch = Some (inl d) ->
  target d waveform = Some (VStr "PULS") ->
  d !! "Duty Cycle" = None ->
  re_config_output channel waveform frequency amplitude offset phase
    (Some q) symmetry print_changes s = (r, s', t) ->
  (exists e, r = Raises e) /\
  ~ In (DCYC ch q) (writes t) /\
  (reliable -> (forall k, In k basic_fields -> is_Some (d !! k)) ->
   r = Raises (KeyError (inr "Duty Cycle"))).
Proof.
  intros ch Hd Ht Hno Hrun.
  destruct (re_config_output_stuck _ _ _ _ _ _ _ _ _ _ d (VStr "PULS")
              (basic_steps ch (VStr "PULS") frequency amplitude offset phase)
              (duty_cycle_step ch (Some q)) [symmetry_step ch symmetry]
              (KeyError (inr "Duty Cycle")) _ _ _
              Hd Ht eq_refl ltac:(simpl; eauto)
              ltac:(unfold stuck, blocked; simpl; rewrite Hno; reflexivity) Hrun)
    as (Hr & Hc & He).
  split; [exact Hr|]. split.
  - intros Hin. apply Hc in Hin. apply (basic_commands _ _ _ _ _ _ _ q) in Hin as [Hin _].
    apply Hin. reflexivity.
  - intros Hrel Hk. apply He; [exact Hrel|]. apply basic_steps_passed, Hk.
Qed.

(** *** A channel out of range *)

Theorem re_config_output_out_of_range channel waveform frequency amplitude
    offset phase duty_cycle symmetry print_changes (s : state) :
  in_range (nchannels s) channel = false ->
  coerce_channel channel s =
    (Returns 1, s, [Print "Unrecognized output channel ('CH1' as default)."]) /\
  re_config_output channel waveform frequency amplitude offset phase
    duty_cycle symmetry print_changes s =
  prepend (Print "Unrecognized output channel ('CH1' as default).")
    ((waveform ← recognize 1 waveform;
      run_steps 1 waveform print_changes
        (steps 1 waveform frequency amplitude offset phase duty_cycle symmetry)) s) /\
  (in_range (nchannels s) 1 = true ->
   re_config_output channel waveform frequency amplitude offset phase
     duty_cycle symmetry print_changes s =
   prepend (Print "Unrecognized output channel ('CH1' as default).")
     (re_config_output 1 waveform frequency amplitude offset phase
        duty_cycle symmetry print_changes s)).
Proof.
  intros Hout.
  assert (Hco : coerce_channel channel s =
    (Returns 1, s, [Print "Unrecognized output channel ('CH1' as default)."])).
  { rewrite coerce_channel_eq. unfold effective, diagnostic. rewrite Hout. reflexivity. }
  split; [exact Hco|].
  assert (Hfirst : re_config_output channel waveform frequency amplitude offset phase
     duty_cycle symmetry print_changes s =
     prepend (Print "Unrecognized output channel ('CH1' as default).")
       ((waveform ← recognize 1 waveform;
         run_steps 1 waveform print_changes
           (steps 1 waveform frequency amplitude offset phase duty_cycle symmetry)) s)).
  { rewrite re_config_output_steps. unfold mbind at 1, M_bind at 1, bind at 1.
    rewrite Hco. unfold prepend.
    destruct ((waveform0 ← recognize 1 waveform;
               run_steps 1 waveform0 print_changes
                 (steps 1 waveform0 frequency amplitude offset phase duty_cycle symmetry)) s)
      as [[r2 s2] t2]. reflexivity. }
  split; [exact Hfirst|].
  intros Hin. rewrite Hfirst. f_equal. symmetry.
  rewrite re_config_output_steps. unfold mbind at 1, M_bind at 1, bind at 1.
  rewrite coerce_channel_eq. unfold effective, diagnostic. rewrite Hin.
  destruct ((waveform0 ← recognize 1 waveform;
             run_steps 1 waveform0 print_changes
               (steps 1 waveform0 frequency amplitude offset phase duty_cycle symmetry)) s)
    as [[r2 s2] t2]. reflexivity.
Qed.

(** *** A call that succeeds *)

(** When every requested field is valid for the waveform and present in
    the cache, and the transport takes every write, the call returns. *)
Theorem re_config_output_returns channel waveform frequency amplitude offset phase
    duty_cycle symmetry print_changes (s : state) d w :
  let ch := effective (nchannels s) channel in
  config_output s !! inl ch = Some (inl d) ->
  target d waveform = Some w ->
  reliable ->
  Forall (passed w d)
    (steps ch w frequency amplitude offset phase duty_cycle symmetry) ->
  exists s' t,
    re_config_output channel waveform frequency amplitude offset phase
      duty_cycle symmetry print_changes s = (Returns tt, s', t).
Proof.
  intros ch Hd Ht Hrel Hall.
  destruct (re_config_output channel waveform frequency amplitude offset phase
              duty_cycle symmetry print_changes s) as [[r s'] t] eqn:Hrun.
  destruct (re_config_output_spec _ _ _ _ _ _ _ _ _ _ _ _ _ _ _ Hd Ht Hrun)
    as (done & rest & t0 & extra & Hl & _ & _ & _ & _ & _ & _ & Hs).
  fold ch in Hl. rewrite Hl in Hall. apply Forall_app in Hall as [_ Hall].
  inversion Hs as [|st rest' msg Hr Hb|st rest' Hr Hb Hm|st rest' cmd Hc Hb Hp Hwr]; subst.
  - eauto.
  - exfalso. inversion Hall as [|? ? Hst _]; subst. destruct (Hst Hr) as [Hb' _]. congruence.
  - exfalso. inversion Hall as [|? ? Hst _]; subst.
    destruct (Hst Hr) as [_ [old Hold]]. congruence.
  - exfalso. apply (Hrel _ _ Hwr).
Qed.


(** *** Stopping at a step

    A step that cannot pass stops the run with its own exception, unless
    an earlier step has stopped it. *)
Theorem run_steps_stops channel waveform print_changes l pre g post
    (s : state) d e r s' t :
  l = pre ++ g :: post ->
  List.NoDup (map field l) ->
  config_output s !! inl channel = Some (inl d) ->
  is_Some (request g) ->
  stuck waveform d g = Some e ->
  run_steps channel waveform print_changes l s = (r, s', t) ->
  r = Raises e \/
  exists x rest refused, In x pre /\ stop waveform d s' r (x :: rest) refused.
Proof.
  intros Hl Hnd Hd Hreq Hstuck Hrun.
  destruct (run_steps_spec _ _ _ _ _ _ _ _ _ Hnd Hd Hrun)
    as (done & rest & t0 & extra & Hsplit & _ & _ & _ & _ & _ & Hf & Hs).
  rewrite Hl in Hsplit. symmetry in Hsplit.
  assert (Hatg : rest = g :: post -> r = Raises e).
  { intros ->.
    inversion Hs as [|st rest' msg Hr Hb|st rest' Hr Hb Hm|st rest' cmd Hc Hb Hp Hwr]; subst.
    - unfold stuck in Hstuck. rewrite Hb in Hstuck. congruence.
    - unfold stuck in Hstuck. rewrite Hb, Hm in Hstuck. congruence.
    - exfalso. unfold stuck in Hstuck. rewrite Hb in Hstuck.
      unfold pending in Hp. destruct (request g) as [[[v ?] ?]|]; [|discriminate].
      destruct (d !! field g); discriminate. }
  apply app_eq_app in Hsplit as [mid [[-> Hrest]|[-> Hrest]]].
  - destruct mid as [|x mid]; simpl in Hrest.
    + left. apply Hatg. congruence.
    + injection Hrest as <- _. exfalso.
      apply (stuck_not_passed _ _ _ _ Hreq Hstuck).
      apply List.Forall_forall with (x := g) in Hf; [exact Hf|].
      apply in_or_app. right. left. reflexivity.
  - destruct mid as [|x mid]; simpl in Hrest.
    + left. apply Hatg. exact Hrest.
    + subst rest. right. exists x, (mid ++ g :: post), extra.
      split; [|exact Hs]. apply in_or_app. right. left. reflexivity.
Qed.

Theorem re_config_output_stops channel waveform frequency amplitude offset phase
    duty_cycle symmetry print_changes (s : state) d w pre g post e r s' t :
  let ch := effective (nchannels s) channel in
  config_output s !! inl ch = Some (inl d) ->
  target d waveform = Some w ->
  steps ch w frequency amplitude offset phase duty_cycle symmetry = pre ++ g :: post ->
  is_Some (request g) ->
  stuck w d g = Some e ->
  re_config_output channel waveform frequency amplitude offset phase
    duty_cycle symmetry print_changes s = (r, s', t) ->
  r = Raises e \/
  exists x rest refused, In x pre /\ stop w d s' r (x :: rest) refused.
Proof.
  intros ch Hd Ht Hl Hreq Hstuck. rewrite re_config_output_steps.
  unfold mbind, M_bind, bind. rewrite coerce_channel_eq. fold ch.
  rewrite (recognize_target _ _ _ _ _ Hd Ht).
  destruct (run_steps ch w print_changes
              (steps ch w frequency amplitude offset phase duty_cycle symmetry) s)
    as [[r2 s2] t2] eqn:Hrun.
  intros [= <- <- <-].
  exact (run_steps_stops _ _ _ _ _ _ _ _ _ _ _ _ _ Hl
           (steps_NoDup _ _ _ _ _ _ _ _) Hd Hreq Hstuck Hrun).
Qed.

(** *** A write the device refuses *)

(** The device after it has taken the commands one after the other, or
    [None] when it refuses one of them. *)
Fixpoint feed (g : dev T) (cmds : list string) : option (dev T) :=
  match cmds with
  | [] => Some g
  | cmd :: cmds' =>
      match dev_write T g cmd with
      | Some g' => feed g' cmds'
      | None => None
      end
  end.

Lemma run_steps_app channel waveform print_changes l1 l2 (s : state) :
  run_steps channel waveform print_changes (l1 ++ l2) s =
  bind (run_steps channel waveform print_changes l1)
       (fun _ => run_steps channel waveform print_changes l2) s.
Proof.
  revert s. induction l1 as [|x l1 IH]; intros s.
  - simpl. unfold bind, mret, M_ret, ret.
    destruct (run_steps channel waveform print_changes l2 s) as [[r2 s2] t2]. reflexivity.
  - change ((x :: l1) ++ l2) with (x :: (l1 ++ l2)).
    unfold bind at 1. rewrite !run_steps_cons. unfold bind.
    destruct (run_step channel waveform print_changes x s) as [[[[]|e] s1] t1];
      [|reflexivity].
    rewrite IH. unfold bind.
    destruct (run_steps channel waveform print_changes l1 s1) as [[[[]|e] s2] t2];
      [|reflexivity].
    destruct (run_steps channel waveform print_changes l2 s2) as [[r3 s3] t3].
    rewrite app_assoc. reflexivity.
Qed.

Lemma applied_cons d x l :
  applied d (x :: l) = if pending d x then x :: applied d l else applied d l.
Proof. reflexivity. Qed.

Lemma commands_cons x l :
  commands (x :: l) =
  match command x with
  | Some c => c :: commands l
  | None => commands l
  end.
Proof. reflexivity. Qed.

(** Steps that can all pass, on a device that takes their commands: the
    run returns. *)
Lemma run_steps_through channel waveform print_changes l :
  forall (s : state) d g',
  List.NoDup (map field l) ->
  config_output s !! inl channel = Some (inl d) ->
  Forall (passed waveform d) l ->
  feed (gen s) (commands (applied d l)) = Some g' ->
  exists s' t,
    run_steps channel waveform print_changes l s = (Returns tt, s', t) /\
    nchannels s' = nchannels s /\
    config_output s' =
      <[inl channel := inl (commit_all (applied d l) d)]> (config_output s) /\
    gen s' = g' /\
    writes t = commands (applied d l) /\
    queries t = [].
Proof.
  induction l as [|x l IH]; intros s d g' Hnd Hd Hall Hfeed.
  - injection Hfeed as <-. exists s, []. repeat split.
    symmetry. apply insert_id, Hd.
  - inversion Hnd as [|? ? Hnotin Hnd']; subst.
    inversion Hall as [|? ? Hx Hall']; subst.
    pose proof (fields_apart x l Hnotin) as Hapart.
    rewrite run_steps_cons. unfold bind.
    rewrite (run_step_eq _ _ _ _ _ _ Hd).
    rewrite applied_cons in Hfeed |- *.
    unfold passed in Hx.
    destruct (pending d x) eqn:Hp.
    + unfold pending in Hp.
      destruct (request x) as [[[v cmd] changed]|] eqn:Hreq; [|discriminate].
      destruct (Hx ltac:(eauto)) as [-> _].
      destruct (d !! field x) as [old|] eqn:Hold; [|discriminate]. rewrite Hp.
      rewrite commands_cons in Hfeed. unfold command in Hfeed. rewrite Hreq in Hfeed.
      cbn [feed] in Hfeed.
      destruct (dev_write T (gen s) cmd) as [g1|]; [|discriminate].
      set (d1 := <[field x := v]> d).
      set (s1 := store channel d1 (set_gen g1 s)).
      assert (Hagree : forall st, In st l -> d1 !! field st = d !! field st).
      { intros st Hst. unfold d1. apply lookup_insert_ne.
        intros Heq. apply (Hapart st Hst). congruence. }
      assert (Hd1 : config_output s1 !! inl channel = Some (inl d1))
        by (unfold s1, store; simpl; apply lookup_insert_eq).
      assert (Hall1 : Forall (passed waveform d1) l).
      { apply List.Forall_forall. intros st Hst.
        apply (passed_agree waveform d1 d); [symmetry; apply Hagree, Hst|].
        revert st Hst. apply List.Forall_forall. exact Hall'. }
      rewrite <- (applied_agree d d1 l Hagree) in Hfeed.
      destruct (IH s1 d1 g' Hnd' Hd1 Hall1 Hfeed)
        as (s' & t & -> & Hn & Hc & Hg & Hw & Hq).
      rewrite (applied_agree d d1 l Hagree) in Hc, Hw.
      eexists _, _. split; [reflexivity|]. split; [exact Hn|]. split.
      { rewrite Hc. unfold s1, store, set_config, set_gen. cbn [config_output].
        rewrite insert_insert_eq.
        assert (Hcm : commit_all (x :: applied d l) d = commit_all (applied d l) d1).
        { unfold commit_all. cbn [fold_left]. f_equal.
          unfold commit. rewrite Hreq. reflexivity. }
        rewrite Hcm. reflexivity. }
      split; [exact Hg|]. split.
      * rewrite writes_app, Hw, commands_cons. unfold command. rewrite Hreq.
        destruct print_changes; reflexivity.
      * rewrite queries_app, Hq. destruct print_changes; reflexivity.
    + assert (Hstep : match request x with
                      | Some (v, cmd, changed) =>
                          match blocked waveform x with
                          | Some msg => (Raises (ValueError msg), s, [])
                          | None =>
                              match d !! field x with
                              | Some old =>
                                  if py_ne old v
                                  then
                                    match dev_write T (gen s) cmd with
                                    | Some g =>
                                        (Returns tt,
                                         store channel (<[field x:=v]> d) (set_gen g s),
                                         Write cmd ::
                                           (if print_changes then [Print changed] else []))
                                    | None => (Raises VisaIOError, s, [Write cmd])
                                    end
                                  else (Returns tt, s, [])
                              | None => (Raises (KeyError (inr (field x))), s, [])
                              end
                          end
                      | None => (Returns tt, s, [])
                      end = (Returns tt, s, @nil event)).
      { unfold pending in Hp.
        destruct (request x) as [[[v cmd] changed]|]; [|reflexivity].
        destruct (Hx ltac:(eauto)) as [-> [old Hold]].
        rewrite Hold in Hp |- *. rewrite Hp. reflexivity. }
      rewrite Hstep.
      destruct (IH s d g' Hnd' Hd Hall' Hfeed) as (s' & t & -> & H).
      exists s', t. split; [reflexivity|exact H].
Qed.

Lemma partial_entries d done st rest :
  List.NoDup (map field (done ++ st :: rest)) ->
  let d' := commit_all (applied d done) d in
  (forall x v c m, In x (applied d done) -> request x = Some (v, c, m) ->
     d' !! field x = Some v) /\
  (forall x, In x (st :: rest) -> d' !! field x = d !! field x).
Proof.
  intros Hnd d'. split.
  - intros x v c m. apply commit_all_lookup_in, applied_fields_NoDup.
    rewrite map_app in Hnd. apply NoDup_app_remove_r in Hnd. exact Hnd.
  - intros x Hx. apply commit_all_lookup_ne. intros y Hy Heq.
    unfold applied in Hy. apply filter_In in Hy as [Hy _].
    assert (Hxy : y = x).
    { apply (fields_determine (done ++ st :: rest)); try assumption.
      - apply in_or_app. left. exact Hy.
      - apply in_or_app. right. exact Hx. }
    subst y. rewrite map_app in Hnd.
    apply NoDup_ListNoDup, NoDup_app in Hnd as (_ & Hdisj & _).
    apply (Hdisj (field x)); apply list_elem_of_In, in_map; assumption.
Qed.

(** The steps [done] pass and the device takes their commands; the next
    step is to be written and the device refuses its command.  The run
    raises the transport's exception there, with what was done before
    committed. *)
Theorem run_steps_refused channel waveform print_changes l done st rest cmd
    (s : state) d g' :
  l = done ++ st :: rest ->
  List.NoDup (map field l) ->
  config_output s !! inl channel = Some (inl d) ->
  Forall (passed waveform d) done ->
  feed (gen s) (commands (applied d done)) = Some g' ->
  blocked waveform st = None ->
  command st = Some cmd ->
  pending d st = true ->
  dev_write T g' cmd = None ->
  exists s' t0,
    run_steps channel waveform print_changes l s
      = (Raises VisaIOError, s', t0 ++ [Write cmd]) /\
    nchannels s' = nchannels s /\
    config_output s' =
      <[inl channel := inl (commit_all (applied d done) d)]> (config_output s) /\
    gen s' = g' /\
    writes t0 = commands (applied d done) /\
    queries t0 = [].
Proof.
  intros -> Hnd Hd Hall Hfeed Hb Hcmd Hp Hwr.
  assert (Hnd1 : List.NoDup (map field done))
    by (rewrite map_app in Hnd; apply NoDup_app_remove_r in Hnd; exact Hnd).
  destruct (run_steps_through channel waveform print_changes done s d g'
              Hnd1 Hd Hall Hfeed) as (s1 & t1 & Hrun & Hn & Hc & Hg & Hw & Hq).
  exists s1, t1. rewrite run_steps_app. unfold bind at 1. rewrite Hrun.
  rewrite run_steps_cons. unfold bind.
  assert (Hd1 : config_output s1 !! inl channel
                = Some (inl (commit_all (applied d done) d)))
    by (rewrite Hc; apply lookup_insert_eq).
  rewrite (run_step_eq _ _ _ _ _ _ Hd1), Hb.
  destruct (partial_entries d done st rest Hnd) as [_ Hkeep].
  rewrite (Hkeep st (or_introl eq_refl)).
  unfold command in Hcmd. unfold pending in Hp.
  destruct (request st) as [[[v c] m]|]; [|discriminate].
  injection Hcmd as ->.
  destruct (d !! field st) as [old|]; [|discriminate].
  rewrite Hp, Hg, Hwr. repeat split; assumption.
Qed.

Theorem re_config_output_refused channel waveform frequency amplitude offset phase
    duty_cycle symmetry print_changes (s : state) d w done st rest cmd g' :
  let ch := effective (nchannels s) channel in
  config_output s !! inl ch = Some (inl d) ->
  target d waveform = Some w ->
  steps ch w frequency amplitude offset phase duty_cycle symmetry = done ++ st :: rest ->
  Forall (passed w d) done ->
  feed (gen s) (commands (applied d done)) = Some g' ->
  blocked w st = None ->
  command st = Some cmd ->
  pending d st = true ->
  dev_write T g' cmd = None ->
  exists s' t0,
    re_config_output channel waveform frequency amplitude offset phase
      duty_cycle symmetry print_changes s
      = (Raises VisaIOError, s', t0 ++ [Write cmd]) /\
    writes t0 = commands (applied d done) /\
    queries t0 = [] /\
    nchannels s' = nchannels s /\
    gen s' = g' /\
    let d' := commit_all (applied d done) d in
    config_output s' = <[inl ch := inl d']> (config_output s) /\
    (forall x v c m, In x (applied d done) -> request x = Some (v, c, m) ->
       d' !! field x = Some v) /\
    (forall x, In x (st :: rest) -> d' !! field x = d !! field x).
Proof.
  intros ch Hd Ht Hl Hall Hfeed Hb Hcmd Hp Hwr.
  pose proof (steps_NoDup ch w frequency amplitude offset phase duty_cycle symmetry)
    as Hnd.
  destruct (run_steps_refused ch w print_changes _ done st rest cmd s d g'
              Hl Hnd Hd Hall Hfeed Hb Hcmd Hp Hwr)
    as (s' & t0 & Hrun & Hn & Hc & Hg & Hw & Hq).
  exists s', (diagnostic (nchannels s) channel ++ warning waveform ++ t0).
  destruct (diagnostic_silent (nchannels s) channel) as [Hdw Hdq].
  destruct (warning_silent waveform) as [Hww Hwq].
  split.
  { rewrite re_config_output_steps. unfold mbind, M_bind, bind.
    rewrite coerce_channel_eq. fold ch. rewrite (recognize_target _ _ _ _ _ Hd Ht).
    rewrite Hrun. rewrite <- !app_assoc. reflexivity. }
  split; [rewrite !writes_app, Hdw, Hww; exact Hw|].
  split; [rewrite !queries_app, Hdq, Hwq; exact Hq|].
  split; [exact Hn|]. split; [exact Hg|].
  cbv zeta. split; [exact Hc|].
  rewrite Hl in Hnd. exact (partial_entries d done st rest Hnd).
Qed.

(** *** The fields that differ *)

(** The step asks for a value and the cache holds another one, or none. *)
Definition differs (d : gmap string value) (st : step) : bool :=
  match request st with
  | Some (v, _, _) =>
      match d !! field st with
      | Some old => py_ne old v
      | None => true
      end
  | None => false
  end.

Lemma passed_differs waveform d st :
  passed waveform d st -> pending d st = differs d st.
Proof.
  unfold passed, pending, differs. intros H.
  destruct (request st) as [[[v c] m]|]; [|reflexivity].
  destruct (H ltac:(eauto)) as [_ [old ->]]. reflexivity.
Qed.

Lemma applied_differs waveform d l :
  Forall (passed waveform d) l -> applied d l = List.filter (differs d) l.
Proof.
  intros H. unfold applied. apply filter_ext_in. intros st Hst.
  apply (passed_differs waveform).
  revert st Hst. apply List.Forall_forall. exact H.
Qed.

Lemma pending_differs d st : pending d st = true -> differs d st = true.
Proof.
  unfold pending, differs. destruct (request st) as [[[v c] m]|]; [|discriminate].
  destruct (d !! field st); [auto|discriminate].
Qed.

Lemma differs_fields_NoDup d l :
  List.NoDup (map field l) -> List.NoDup (map field (List.filter (differs d) l)).
Proof.
  induction l as [|x l IH]; intros Hnd; [constructor|].
  inversion Hnd as [|? ? Hnotin Hnd']; subst.
  simpl. destruct (differs d x); [|apply IH, Hnd'].
  simpl. constructor; [|apply IH, Hnd'].
  intros Hin. apply Hnotin. apply in_map_iff in Hin as (y & Hy & Hin).
  apply filter_In in Hin as [Hin _]. rewrite <- Hy. apply in_map, Hin.
Qed.

Lemma differs_commands_length d l :
  length (commands (List.filter (differs d) l)) = length (List.filter (differs d) l).
Proof.
  unfold commands. induction l as [|x l IH]; [reflexivity|].
  simpl. destruct (differs d x) eqn:Hp; [|exact IH].
  simpl. unfold differs, command in *.
  destruct (request x) as [[[v c] m]|]; [|discriminate]. simpl. f_equal. exact IH.
Qed.

(** Whatever the outcome, the commands sent are the first ones of those of
    the fields that differ, in the order of the table: those of the steps
    done before the call stopped, and the one the device refused if it
    refused one; so all of them when the call returns.  The entry of a
    field that does not differ is as it was. *)
Theorem re_config_output_writes channel waveform frequency amplitude offset phase
    duty_cycle symmetry print_changes (s : state) d w r s' t :
  let ch := effective (nchannels s) channel in
  config_output s !! inl ch = Some (inl d) ->
  target d waveform = Some w ->
  re_config_output channel waveform frequency amplitude offset phase
    duty_cycle symmetry print_changes s = (r, s', t) ->
  let l := steps ch w frequency amplitude offset phase duty_cycle symmetry in
  let todo := List.filter (differs d) l in
  exists more d',
    commands todo = writes t ++ more /\
    (r = Returns tt -> more = []) /\
    (exists done rest refused,
       l = done ++ rest /\
       stop w d s' r rest refused /\
       writes t = commands (List.filter (differs d) done) ++ refused) /\
    length (commands todo) = length todo /\
    List.NoDup (map field todo) /\
    queries t = [] /\
    config_output s' = <[inl ch := inl d']> (config_output s) /\
    (forall st, In st l -> differs d st = false -> d' !! field st = d !! field st) /\
    (r = Returns tt ->
     forall st v c m, In st todo -> request st = Some (v, c, m) ->
       d' !! field st = Some v).
Proof.
  intros ch Hd Ht Hrun l todo.
  destruct (re_config_output_spec _ _ _ _ _ _ _ _ _ _ _ _ _ _ _ Hd Ht Hrun)
    as (done & rest & t0 & extra & Hl & _ & Hc & -> & Hw & Hq & Hpassed & Hs).
  fold ch in Hl, Hc. fold l in Hl.
  pose proof (steps_NoDup ch w frequency amplitude offset phase duty_cycle symmetry)
    as Hnd. fold l in Hnd.
  assert (Htodo : todo = applied d done ++ List.filter (differs d) rest).
  { unfold todo. rewrite Hl, List.filter_app, (applied_differs w d done Hpassed).
    reflexivity. }
  exists (skipn (length extra) (commands (List.filter (differs d) rest))),
         (commit_all (applied d done) d).
  split.
  { rewrite Htodo, commands_app, writes_app, writes_Write, Hw, <- app_assoc. f_equal.
    inversion Hs as [|st rest' msg Hr Hb|st rest' Hr Hb Hm|st rest' cmd Hcmd Hb Hp Hwr];
      subst; try reflexivity.
    change (List.filter (differs d) (st :: rest'))
      with (if differs d st then st :: List.filter (differs d) rest'
            else List.filter (differs d) rest').
    rewrite (pending_differs _ _ Hp), commands_cons, Hcmd. reflexivity. }
  split.
  { intros ->. inversion Hs; subst. reflexivity. }
  split.
  { exists done, rest, extra. split; [exact Hl|]. split; [exact Hs|].
    rewrite writes_app, writes_Write, Hw, (applied_differs w d done Hpassed).
    reflexivity. }
  split; [apply differs_commands_length|].
  split; [apply differs_fields_NoDup, Hnd|].
  split; [rewrite queries_app, Hq, queries_Write; reflexivity|].
  split; [exact Hc|]. split.
  - intros st Hst Hdiff. apply commit_all_lookup_ne. intros x Hx Heq.
    unfold applied in Hx. apply filter_In in Hx as [Hx Hpx].
    assert (Hxl : In x l) by (rewrite Hl; apply in_or_app; left; exact Hx).
    rewrite (fields_determine l x st Hnd Hxl Hst Heq) in Hpx.
    apply pending_differs in Hpx. congruence.
  - intros ->. inversion Hs; subst. rewrite app_nil_r in Htodo, Hl. subst done.
    rewrite Htodo. intros st v c m.
    apply commit_all_lookup_in, applied_fields_NoDup, Hnd.
Qed.

(** *** What a guarded field raises *)

(** A duty cycle on a waveform other than ['PULS']: the call raises the
    [ValueError] of the duty cycle, unless a field before it stops the
    call first. *)
Theorem duty_cycle_stops channel waveform frequency amplitude offset phase
    q symmetry print_changes (s : state) d w r s' t :
  let ch := effective (nchannels s) channel in
  config_output s !! inl ch = Some (inl d) ->
  target d waveform = Some w ->
  py_ne w (VStr "PULS") = true ->
  re_config_output channel waveform frequency amplitude offset phase
    (Some q) symmetry print_changes s = (r, s', t) ->
  r = Raises (ValueError "Can only set duty cycle on 'PULS'") \/
  exists x rest refused,
    In x (basic_steps ch w frequency amplitude offset phase) /\
    stop w d s' r (x :: rest) refused.
Proof.
  intros ch Hd Ht Hw Hrun.
  exact (re_config_output_stops _ _ _ _ _ _ _ _ _ _ d w
           (basic_steps ch w frequency amplitude offset phase)
           (duty_cycle_step ch (Some q)) [symmetry_step ch symmetry]
           (ValueError "Can only set duty cycle on 'PULS'") _ _ _
           Hd Ht eq_refl ltac:(simpl; eauto)
           ltac:(unfold stuck, blocked; simpl; rewrite Hw; reflexivity) Hrun).
Qed.

(** Likewise a symmetry on a waveform other than ['RAMP']; the fields
    before it include the duty cycle. *)
Theorem symmetry_stops channel waveform frequency amplitude offset phase
    duty_cycle q print_changes (s : state) d w r s' t :
  let ch := effective (nchannels s) channel in
  config_output s !! inl ch = Some (inl d) ->
  target d waveform = Some w ->
  py_ne w (VStr "RAMP") = true ->
  re_config_output channel waveform frequency amplitude offset phase
    duty_cycle (Some q) print_changes s = (r, s', t) ->
  r = Raises (ValueError "Can only set symmetry on 'RAMP'") \/
  exists x rest refused,
    In x (basic_steps ch w frequency amplitude offset phase
            ++ [duty_cycle_step ch duty_cycle]) /\
    stop w d s' r (x :: rest) refused.
Proof.
  intros ch Hd Ht Hw Hrun.
  exact (re_config_output_stops _ _ _ _ _ _ _ _ _ _ d w
           (basic_steps ch w frequency amplitude offset phase
              ++ [duty_cycle_step ch duty_cycle])
           (symmetry_step ch (Some q)) []
           (ValueError "Can only set symmetry on 'RAMP'") _ _ _
           Hd Ht eq_refl ltac:(simpl; eauto)
           ltac:(unfold stuck, blocked; simpl; rewrite Hw; reflexivity) Hrun).
Qed.

End Gen.

End Gen.

(** ** A bench to run the drivers on *)

Module Bench.

(** A device that keeps the commands it has taken, refuses those listed in
    [broken], and answers queries from a table. *)
Definition recorder (broken : list string) (answers : table) : transport :=
  {| dev := list string;
     dev_write := fun d cmd => if str_in cmd broken then None else Some (d ++ [cmd]);
     dev_query := fun _ q => item answers q |}.

Definition digit (c : ascii) : option Z :=
  let n := Z.of_N (N_of_ascii c) in
  if (48 <=? n) && (n <=? 57) then Some (n - 48) else None.

(** The first run of decimal digits of a string. *)
Fixpoint first_digits (s : string) (acc : option Z) : option Z :=
  match s with
  | EmptyString => acc
  | String c s' =>
      match digit c, acc with
      | Some k, Some a => first_digits s' (Some (10 * a + k))
      | Some k, None => first_digits s' (Some k)
      | None, Some a => Some a
      | None, None => first_digits s' None
      end
  end.

Definition first_number (s : string) : outcome Q :=
  match first_digits s None with
  | Some z => Returns (inject_Z z)
  | None => Raises (OtherError "no number")
  end.

Definition int_of (s : string) : option Z :=
  if forallb (fun c => bool_decide (is_Some (digit c))) (list_ascii_of_string s)
  then first_digits s None else None.

Definition show (x : number) : string :=
  match x with
  | Finite q => pretty (Qnum q) +:+ "/" +:+ pretty (Zpos (Qden q))
  | Infinity negative => if negative then "-inf" else "inf"
  | NaN => "nan"
  end.

Definition answers : table :=
  [ ("MEASU:IMM:SOU?", "CH1"); ("MEASU:IMM:TYP?", "MINIMUM");
    ("OUTP1:STAT?", "1"); ("SOUR1:FUNC:SHAP?", "SIN"); ("SOUR1:FREQ?", "1000");
    ("SOUR1:VOLT:LEV:IMM:AMPL?", "1"); ("SOUR1:VOLT:LEV:IMM:OFFS?", "0");
    ("SOUR1:PHAS?", "0"); ("SOUR1:PULS:DCYC?", "50");
    ("SOUR1:FUNC:RAMP:SYMM?", "50") ].

Definition T0 : transport := recorder [] answers.

(** A channel as the docstring of [get_config_output] shows it. *)
Definition channel0 : gmap string value :=
  <["Status" := VBool true]> (<["Waveform" := VStr "SIN"]>
  (<["Frequency" := VNum 1000]> (<["Amplitude" := VNum 1]>
  (<["Offset" := VNum 0]> (<["Phase" := VNum 0]>
  (<["Symmetry" := VNum 50]> (<["Duty Cycle" := VNum 50]> ∅))))))).

Definition gen0 : Gen.state T0 :=
  {| Gen.nchannels := 2;
     Gen.config_output := <[inl 1 := inl channel0]> (<[inl 2 := inl channel0]> ∅);
     Gen.gen := ([] : dev T0) |}.

Definition osci0 : Osci.state T0 :=
  {| Osci.config_measure := <["Source" := VNum 1]> (<["Type" := VStr "FREQ"]> ∅);
     Osci.osci := ([] : dev T0) |}.

(** An oscilloscope that answers with the words it is sent. *)
Definition echo : transport :=
  recorder [] [("MEASU:IMM:SOU?", "CH2"); ("MEASU:IMM:TYP?", "MINI")].

Definition echo_osci : Osci.state echo :=
  {| Osci.config_measure := <["Source" := VNum 1]> (<["Type" := VStr "FREQ"]> ∅);
     Osci.osci := ([] : dev echo) |}.

(** A generator whose transport fails on one amplitude command. *)
Definition faulty : transport := recorder ["SOUR1:VOLT:LEV:IMM:AMPL 2/1"] answers.

Definition faulty_gen : Gen.state faulty :=
  {| Gen.nchannels := 2;
     Gen.config_output := <[inl 1 := inl channel0]> (<[inl 2 := inl channel0]> ∅);
     Gen.gen := ([] : dev faulty) |}.

(** A generator with one channel, as [__init__] finds it: no cache yet. *)
Definition fresh_gen : Gen.state T0 :=
  {| Gen.nchannels := 1; Gen.config_output := ∅; Gen.gen := ([] : dev T0) |}.

(** The configuration [get_config_output] returns on it. *)
Definition fresh_config : gmap (Z + string) (gmap string value + value) :=
  match Gen.get_config_output T0 first_number int_of fresh_gen with
  | (Returns c, _, _) => c
  | _ => ∅
  end.

Definition connected_gen : Gen.state T0 :=
  {| Gen.nchannels := 1; Gen.config_output := fresh_config; Gen.gen := ([] : dev T0) |}.

End Bench.

(** ** Methods that only ask

    A method is [read_only] when, however it ends, it has sent no command
    and has left the attributes of the instance as they were. *)

Definition read_only {S A : Type} (m : M S A) : Prop :=
  forall s r s' t, m s = (r, s', t) -> s' = s /\ writes t = [].

Lemma read_only_ret {S A} (a : A) : read_only (ret a : M S A).
Proof. intros s r s' t [= <- <- <-]. auto. Qed.

Lemma read_only_raise {S A} e : read_only (raise e : M S A).
Proof. intros s r s' t [= <- <- <-]. auto. Qed.

Lemma read_only_bind {S A B} (m : M S A) (f : A -> M S B) :
  read_only m -> (forall a, read_only (f a)) -> read_only (bind m f).
Proof.
  intros Hm Hf s r s' t H.
  apply bind_inv in H as [(e & H & ->) | (a & s1 & t1 & t2 & H & H2 & ->)].
  - apply Hm in H. exact H.
  - apply Hm in H as [-> Hw1]. apply Hf in H2 as [-> Hw2].
    rewrite writes_app, Hw1, Hw2. auto.
Qed.

Lemma read_only_try_except {S A} (m h : M S A) :
  read_only m -> read_only h -> read_only (try_except m h).
Proof.
  intros Hm Hh s r s' t. unfold try_except.
  destruct (m s) as [[[a|e] s1] t1] eqn:H1.
  - intros [= <- <- <-]. apply (Hm _ _ _ _ H1).
  - destruct (h s1) as [[r2 s2] t2] eqn:H2. intros [= <- <- <-].
    apply Hm in H1 as [-> Hw1]. apply Hh in H2 as [-> Hw2].
    rewrite writes_app, Hw1, Hw2. auto.
Qed.

Lemma read_only_lift_opt {S A} e (o : option A) : read_only (lift_opt e o : M S A).
Proof. destruct o; [apply read_only_ret|apply read_only_raise]. Qed.

Lemma read_only_lift_outcome {S A} (o : outcome A) : read_only (lift_outcome o : M S A).
Proof. destruct o; [apply read_only_ret|apply read_only_raise]. Qed.

Lemma read_only_print {S} line : read_only (print line : M S unit).
Proof. intros s r s' t [= <- <- <-]. auto. Qed.

Lemma read_only_gets {S A} (f : S -> A) : read_only (gets f).
Proof. intros s r s' t [= <- <- <-]. auto. Qed.

(** ** The other methods of the function generator *)

Module GenMethods.

Section GenMethods.

Context (T : transport).
Context (find_1st_number : string -> outcome Q).
Context (py_int : string -> option Z).
Context (str_num : number -> string) (fmt_1f : number -> string).

Local Abbreviation state := (Gen.state T).
Local Abbreviation config := (gmap (Z + string) (gmap string value + value)).
Local Abbreviation Mg := (M (Gen.state T)).

(** [Gen.__init__], from the resource [rm.open_resource] has returned on:
    it runs on an instance that holds the resource and nothing else yet. *)
Definition init (nchannels : Z) : Mg unit :=
  r ← Gen.gen_query T "*IDN?";
  print r;;
  modify (fun s => {| Gen.nchannels := nchannels;
                      Gen.config_output := Gen.config_output T s;
                      Gen.gen := Gen.gen T s |});;
  Gen.init_config_output T find_1st_number py_int.

(** The keyword arguments [**output_config] of [Gen.output]: a key may be
    absent, or be given, possibly as [None]. *)
Record kwargs : Type := {
  kw_waveform : option (option string);
  kw_frequency : option (option number);
  kw_amplitude : option (option number);
  kw_offset : option (option number);
  kw_phase : option (option number);
  kw_duty_cycle : option (option number);
  kw_symmetry : option (option number)
}.

(** No keyword given, as in [output(False)]. *)
Definition no_kwargs : kwargs :=
  {| kw_waveform := None; kw_frequency := None; kw_amplitude := None;
     kw_offset := None; kw_phase := None; kw_duty_cycle := None;
     kw_symmetry := None |}.

(** [output_config[key]] once the loop has filled the absent keys. *)
Definition arg {A : Type} (v : option (option A)) : option A :=
  match v with
  | Some a => a
  | None => None
  end.

(** No number among the keyword arguments is nan. *)
Definition no_nan (output_config : kwargs) : Prop :=
  Forall Gen.not_nan
    [ arg (kw_frequency output_config); arg (kw_amplitude output_config);
      arg (kw_offset output_config); arg (kw_phase output_config);
      arg (kw_duty_cycle output_config); arg (kw_symmetry output_config) ].

(** One round of [for key in keys]. *)
Definition announce {A : Type} (channel : Z) (key : string) (v : option A) : Mg unit :=
  match v with
  | Some _ => print ("Changing " +:+ key +:+ " on CH" +:+ pretty channel)
  | None => mret tt
  end.

(** ['OUTP{}...'.format(channel)] *)
Definition OUTP (channel : Z) (rest : string) : string :=
  "OUTP" +:+ pretty channel +:+ rest.

Definition output (status : bool) (channel : Z) (print_changes : bool)
    (output_config : kwargs) : Mg unit :=
  channel ← (if negb (bool_decide (channel ∈ [1; 2])) then
               print "Unrecognized output channel (default 'CH1')";;
               mret 1
             else mret channel);
  announce channel "waveform" (kw_waveform output_config);;
  announce channel "frequency" (kw_frequency output_config);;
  announce channel "amplitude" (kw_amplitude output_config);;
  announce channel "offset" (kw_offset output_config);;
  announce channel "phase" (kw_phase output_config);;
  announce channel "duty_cycle" (kw_duty_cycle output_config);;
  announce channel "symmetry" (kw_symmetry output_config);;
  Gen.re_config_output T str_num fmt_1f channel
    (arg (kw_waveform output_config))
    (arg (kw_frequency output_config))
    (arg (kw_amplitude output_config))
    (arg (kw_offset output_config))
    (arg (kw_phase output_config))
    (arg (kw_duty_cycle output_config))
    (arg (kw_symmetry output_config))
    print_changes;;
  Gen.gen_write T (OUTP channel (":STAT " +:+ (if status then "1" else "0")));;
  if status then
    print ("Output CH" +:+ pretty channel +:+ " ON");;
    Gen.config_set T channel "Status" (VBool true)
  else
    print ("Output CH" +:+ pretty channel +:+ " OFF");;
    Gen.config_set T channel "Status" (VBool false).

(** *** What [get_config_output] asks and stores *)

Lemma gen_query_read_only cmd : read_only (Gen.gen_query T cmd).
Proof.
  intros s r s' t. unfold Gen.gen_query.
  destruct (dev_query T (Gen.gen T s) cmd); intros [= <- <- <-]; auto.
Qed.

Lemma subscript_read_only c channel : read_only (Gen.subscript T c channel).
Proof.
  unfold Gen.subscript. destruct (c !! inl channel) as [[d|q]|];
    first [apply read_only_ret | apply read_only_raise].
Qed.

Lemma local_set_read_only c channel k v : read_only (Gen.local_set T c channel k v).
Proof.
  unfold Gen.local_set. apply read_only_bind; [apply subscript_read_only|].
  intros d. apply read_only_ret.
Qed.

Ltac asks :=
  repeat first
    [ apply read_only_bind | apply read_only_try_except | apply read_only_ret
    | apply read_only_raise | apply read_only_lift_opt | apply read_only_lift_outcome
    | apply read_only_print | apply read_only_gets | apply gen_query_read_only
    | apply subscript_read_only | apply local_set_read_only | intro ].

Lemma get_config_channel_read_only cfg channel :
  read_only (Gen.get_config_channel T find_1st_number py_int cfg channel).
Proof.
  unfold Gen.get_config_channel, Gen.query_duty_cycle, Gen.query_symmetry.
  unfold mbind, M_bind, mret, M_ret. asks.
Qed.

Lemma for_channels_read_only channels :
  forall cfg, read_only (Gen.for_channels T find_1st_number py_int channels cfg).
Proof.
  induction channels as [|channel rest IH]; intros cfg; simpl.
  - apply read_only_ret.
  - apply read_only_bind; [apply get_config_channel_read_only|exact IH].
Qed.

Lemma get_config_output_read_only :
  read_only (Gen.get_config_output T find_1st_number py_int).
Proof.
  unfold Gen.get_config_output. apply read_only_bind; [apply read_only_gets|].
  intros n. apply for_channels_read_only.
Qed.

(** The number the device answers to a query, when it answers one. *)
Definition parsed (s : state) (cmd : string) : option Q :=
  match dev_query T (Gen.gen T s) cmd with
  | Some a =>
      match find_1st_number a with
      | Returns n => Some n
      | Raises _ => None
      end
  | None => None
  end.

(** The eight queries of one channel, in the order they are sent. *)
Definition channel_queries (channel : Z) : list string :=
  [ OUTP channel ":STAT?";
    Gen.SOUR channel ":FUNC:SHAP?";
    Gen.SOUR channel ":FREQ?";
    Gen.SOUR channel ":VOLT:LEV:IMM:AMPL?";
    Gen.SOUR channel ":VOLT:LEV:IMM:OFFS?";
    Gen.SOUR channel ":PHAS?";
    Gen.SOUR channel ":PULS:DCYC?";
    Gen.SOUR channel ":FUNC:RAMP:SYMM?" ].

(** The state of a channel as the device's answers make it, from the state
    [d] the channel has when its round of the loop starts: [None] when one
    of the first six queries fails or its answer does not parse. *)
Definition channel_state (s : state) (channel : Z) (d : gmap string value)
    : option (gmap string value) :=
  r ← dev_query T (Gen.gen T s) (OUTP channel ":STAT?");
  z ← py_int r;
  w ← dev_query T (Gen.gen T s) (Gen.SOUR channel ":FUNC:SHAP?");
  f ← parsed s (Gen.SOUR channel ":FREQ?");
  a ← parsed s (Gen.SOUR channel ":VOLT:LEV:IMM:AMPL?");
  o ← parsed s (Gen.SOUR channel ":VOLT:LEV:IMM:OFFS?");
  p ← parsed s (Gen.SOUR channel ":PHAS?");
  let d := <["Phase" := VNum (Finite p)]> (<["Offset" := VNum (Finite o)]>
           (<["Amplitude" := VNum (Finite a)]>
           (<["Frequency" := VNum (Finite f)]> (<["Waveform" := VStr w]>
           (<["Status" := VBool (negb (z =? 0))]> d))))) in
  let d := match parsed s (Gen.SOUR channel ":PULS:DCYC?") with
           | Some _ => d
           | None => <["Duty Cycle" := VNum 50]> d
           end in
  Some (<["Symmetry" := VNum (default 50%Q (parsed s (Gen.SOUR channel ":FUNC:RAMP:SYMM?")))]> d).

Lemma channel_state_any s channel d d' :
  is_Some (channel_state s channel d) -> is_Some (channel_state s channel d').
Proof.
  unfold channel_state.
  destruct (dev_query T (Gen.gen T s) (OUTP channel ":STAT?")) as [r|]; simpl; [|auto].
  destruct (py_int r) as [z|]; simpl; [|auto].
  destruct (dev_query T (Gen.gen T s) (Gen.SOUR channel ":FUNC:SHAP?")) as [w|]; simpl; [|auto].
  destruct (parsed s (Gen.SOUR channel ":FREQ?")) as [f|]; simpl; [|auto].
  destruct (parsed s (Gen.SOUR channel ":VOLT:LEV:IMM:AMPL?")) as [a|]; simpl; [|auto].
  destruct (parsed s (Gen.SOUR channel ":VOLT:LEV:IMM:OFFS?")) as [o|]; simpl; [|auto].
  destruct (parsed s (Gen.SOUR channel ":PHAS?")) as [p|]; simpl; [|auto].
  eauto.
Qed.

Lemma parsed_inv cmd (s : state) a n :
  dev_query T (Gen.gen T s) cmd = Some a -> find_1st_number a = Returns n ->
  parsed s cmd = Some n.
Proof. intros Hq Hn. unfold parsed. rewrite Hq, Hn. reflexivity. Qed.

Lemma query_duty_cycle_inv cfg channel (s : state) cfg' s' t :
  Gen.query_duty_cycle T find_1st_number cfg channel s = (Returns cfg', s', t) ->
  s' = s /\ t = [Query (Gen.SOUR channel ":PULS:DCYC?")] /\
  match parsed s (Gen.SOUR channel ":PULS:DCYC?") with
  | Some n => cfg' = <[inr "Duty Cycle" := inr (VNum (Finite n))]> cfg
  | None => exists d, cfg !! inl channel = Some (inl d) /\
              cfg' = <[inl channel := inl (<["Duty Cycle" := VNum 50]> d)]> cfg
  end.
Proof.
  unfold Gen.query_duty_cycle, try_except, mbind, M_bind, bind, Gen.gen_query, parsed.
  destruct (dev_query T (Gen.gen T s) (Gen.SOUR channel ":PULS:DCYC?")) as [a|].
  - destruct (find_1st_number a) as [n|e]; simpl.
    + intros [= <- <- <-]. auto.
    + destruct (Gen.local_set T cfg channel "Duty Cycle" (VNum 50) s)
        as [[r2 s2] t2] eqn:Hl.
      intros [= -> <- <-]. apply Gen.local_set_inv in Hl as (d & Hd & -> & -> & ->).
      eauto.
  - destruct (Gen.local_set T cfg channel "Duty Cycle" (VNum 50) s)
      as [[r2 s2] t2] eqn:Hl.
    intros [= -> <- <-]. apply Gen.local_set_inv in Hl as (d & Hd & -> & -> & ->).
    eauto.
Qed.

Lemma query_symmetry_inv cfg channel (s : state) cfg' s' t :
  Gen.query_symmetry T find_1st_number cfg channel s = (Returns cfg', s', t) ->
  s' = s /\ t = [Query (Gen.SOUR channel ":FUNC:RAMP:SYMM?")] /\
  exists d, cfg !! inl channel = Some (inl d) /\
    cfg' = <[inl channel :=
               inl (<["Symmetry" :=
                        VNum (default 50%Q (parsed s (Gen.SOUR channel ":FUNC:RAMP:SYMM?")))]> d)]>
             cfg.
Proof.
  unfold Gen.query_symmetry, try_except, mbind, M_bind, bind, Gen.gen_query, parsed.
  destruct (dev_query T (Gen.gen T s) (Gen.SOUR channel ":FUNC:RAMP:SYMM?")) as [a|].
  - destruct (find_1st_number a) as [n|e]; simpl.
    + destruct (Gen.local_set T cfg channel "Symmetry" (VNum (Finite n)) s)
        as [[[c1|e1] s1] t1] eqn:Hl.
      * intros [= <- <- <-]. apply Gen.local_set_inv in Hl as (d & Hd & -> & -> & ->).
        eauto.
      * destruct (Gen.local_set T cfg channel "Symmetry" (VNum 50) s1)
          as [[r2 s2] t2] eqn:Hl2.
        intros [= -> <- <-].
        assert (Hs1 : s1 = s /\ t1 = []).
        { unfold Gen.local_set, Gen.subscript, mbind, M_bind, bind in Hl.
          destruct (cfg !! inl channel) as [[d|q]|]; simpl in Hl;
            injection Hl as _ <- <-; auto. }
        destruct Hs1 as [-> ->].
        apply Gen.local_set_inv in Hl2 as (d & Hd & _ & _ & _).
        unfold Gen.local_set, Gen.subscript, mbind, M_bind, bind in Hl.
        rewrite Hd in Hl. discriminate.
    + destruct (Gen.local_set T cfg channel "Symmetry" (VNum 50) s)
        as [[r2 s2] t2] eqn:Hl.
      intros [= -> <- <-]. apply Gen.local_set_inv in Hl as (d & Hd & -> & -> & ->).
      eauto.
  - destruct (Gen.local_set T cfg channel "Symmetry" (VNum 50) s)
      as [[r2 s2] t2] eqn:Hl.
    intros [= -> <- <-]. apply Gen.local_set_inv in Hl as (d & Hd & -> & -> & ->).
    eauto.
Qed.

(** One round of the loop that returns: the eight queries and nothing else
    have happened, the other channels are as they were, and the channel
    holds the answers. *)
Lemma get_config_channel_inv cfg channel (s : state) cfg' s' t :
  Gen.get_config_channel T find_1st_number py_int cfg channel s = (Returns cfg', s', t) ->
  s' = s /\ t = map Query (channel_queries channel) /\
  (forall c, c <> channel -> cfg' !! inl c = cfg !! inl c) /\
  (forall k, cfg' !! inr k =
     match parsed s (Gen.SOUR channel ":PULS:DCYC?") with
     | Some n => <[inr "Duty Cycle" := inr (VNum (Finite n))]> cfg !! inr k
     | None => cfg !! inr k
     end) /\
  exists d0 d, cfg !! inl channel = Some (inl d0) /\
    channel_state s channel d0 = Some d /\
    cfg' !! inl channel = Some (inl d).
Proof.
  intros H. unfold Gen.get_config_channel, mbind, M_bind in H.
  do 21 invert_bind H.
  injection H as <- <- <-.
  repeat match goal with
  | H : Gen.gen_query _ _ _ = _ |- _ => apply Gen.gen_query_inv in H as (? & -> & ->)
  | H : lift_opt _ _ _ = _ |- _ => apply lift_opt_inv in H as (? & -> & ->)
  | H : lift_outcome _ _ = _ |- _ => apply lift_outcome_inv in H as (? & -> & ->)
  | H : Gen.subscript _ _ _ _ = _ |- _ => apply Gen.subscript_inv in H as (? & -> & ->)
  | H : Gen.local_set _ _ _ _ _ _ = _ |- _ =>
      apply Gen.local_set_inv in H as (? & ? & -> & -> & ->)
  | H : Gen.query_duty_cycle _ _ _ _ _ = _ |- _ =>
      apply query_duty_cycle_inv in H as (-> & -> & Hdc)
  | H : Gen.query_symmetry _ _ _ _ _ = _ |- _ =>
      apply query_symmetry_inv in H as (-> & -> & ? & ? & ->)
  end.
  repeat match goal with
  | H : <[_ := _]> _ !! _ = Some _ |- _ =>
      rewrite lookup_insert_eq in H; injection H as <-
  end.
  repeat match goal with
  | H : ?a = Some _, H' : ?a = Some _ |- _ => rewrite H in H'; injection H' as <-
  end.
  split; [reflexivity|]. split; [reflexivity|].
  repeat match goal with
  | H : dev_query _ _ _ = Some ?a, H' : find_1st_number ?a = Returns _ |- _ =>
      pose proof (parsed_inv _ _ _ _ H H'); clear H H'
  end.
  unfold channel_state, OUTP.
  destruct (parsed s (Gen.SOUR channel ":PULS:DCYC?")) as [n|] eqn:Hduty.
  - subst. split; [|split].
    + intros c Hc. rewrite !lookup_insert_ne by congruence. reflexivity.
    + intros k. destruct (decide (k = "Duty Cycle")) as [->|Hk].
      * repeat first [ rewrite lookup_insert_eq
                     | rewrite lookup_insert_ne by discriminate ].
        reflexivity.
      * rewrite !lookup_insert_ne by congruence. reflexivity.
    + rewrite lookup_insert_ne in * by discriminate.
      repeat match goal with
      | H : <[_ := _]> _ !! _ = Some _ |- _ =>
          rewrite lookup_insert_eq in H; injection H as <-
      end.
      eexists _, _. split; [eassumption|].
      repeat match goal with
      | H : _ = Some _ |- _ => rewrite H; clear H; cbn [mbind option_bind]
      end.
      split; [reflexivity|]. apply lookup_insert_eq.
  - destruct Hdc as (d5 & Hd5 & ->).
    repeat match goal with
    | H : <[_ := _]> _ !! _ = Some _ |- _ =>
        rewrite lookup_insert_eq in H; injection H as <-
    end.
    split; [|split].
    + intros c Hc. rewrite !lookup_insert_ne by congruence. reflexivity.
    + intros k. rewrite !lookup_insert_ne by discriminate. reflexivity.
    + eexists _, _. split; [eassumption|].
      repeat match goal with
      | H : _ = Some _ |- _ => rewrite H; clear H; cbn [mbind option_bind]
      end.
      split; [reflexivity|]. apply lookup_insert_eq.
Qed.

(** One round of the loop returns when the channel is in the configuration
    and the first six queries are answered, whatever happens to the last
    two. *)
Lemma get_config_channel_returns_if cfg channel (s : state) d0 :
  cfg !! inl channel = Some (inl d0) ->
  is_Some (channel_state s channel d0) ->
  exists cfg',
    Gen.get_config_channel T find_1st_number py_int cfg channel s =
    (Returns cfg', s, map Query (channel_queries channel)).
Proof.
  intros Hd [d Hstate]. unfold channel_state, parsed, OUTP in Hstate.
  destruct (dev_query T (Gen.gen T s) ("OUTP" +:+ pretty channel +:+ ":STAT?"))
    as [r|] eqn:Hq1; [|discriminate].
  cbn [mbind option_bind] in Hstate.
  destruct (py_int r) as [z|] eqn:Hz; [|discriminate].
  cbn [mbind option_bind] in Hstate.
  destruct (dev_query T (Gen.gen T s) (Gen.SOUR channel ":FUNC:SHAP?"))
    as [w|] eqn:Hq2; [|discriminate].
  cbn [mbind option_bind] in Hstate.
  destruct (dev_query T (Gen.gen T s) (Gen.SOUR channel ":FREQ?"))
    as [a3|] eqn:Hq3; [|discriminate].
  destruct (find_1st_number a3) as [n3|] eqn:Hn3; [|discriminate].
  cbn [mbind option_bind] in Hstate.
  destruct (dev_query T (Gen.gen T s) (Gen.SOUR channel ":VOLT:LEV:IMM:AMPL?"))
    as [a4|] eqn:Hq4; [|discriminate].
  destruct (find_1st_number a4) as [n4|] eqn:Hn4; [|discriminate].
  cbn [mbind option_bind] in Hstate.
  destruct (dev_query T (Gen.gen T s) (Gen.SOUR channel ":VOLT:LEV:IMM:OFFS?"))
    as [a5|] eqn:Hq5; [|discriminate].
  destruct (find_1st_number a5) as [n5|] eqn:Hn5; [|discriminate].
  cbn [mbind option_bind] in Hstate.
  destruct (dev_query T (Gen.gen T s) (Gen.SOUR channel ":PHAS?"))
    as [a6|] eqn:Hq6; [|discriminate].
  destruct (find_1st_number a6) as [n6|] eqn:Hn6; [|discriminate].
  clear Hstate.
  unfold Gen.get_config_channel, Gen.query_duty_cycle, Gen.query_symmetry, try_except,
    Gen.local_set, Gen.subscript, Gen.gen_query, lift_opt, lift_outcome,
    mbind, M_bind, bind, mret, M_ret, ret, raise.
  rewrite Hd. cbv beta iota.
  rewrite Hq1, Hz. cbv beta iota.
  rewrite lookup_insert_eq. cbv beta iota.
  rewrite Hq2. cbv beta iota. rewrite lookup_insert_eq. cbv beta iota.
  rewrite Hq3, Hn3. cbv beta iota. rewrite lookup_insert_eq. cbv beta iota.
  rewrite Hq4, Hn4. cbv beta iota. rewrite lookup_insert_eq. cbv beta iota.
  rewrite Hq5, Hn5. cbv beta iota. rewrite lookup_insert_eq. cbv beta iota.
  rewrite Hq6, Hn6. cbv beta iota. rewrite lookup_insert_eq. cbv beta iota.
  destruct (dev_query T (Gen.gen T s) (Gen.SOUR channel ":PULS:DCYC?")) as [a7|];
    [destruct (find_1st_number a7) as [n7|]|]; cbv beta iota;
    rewrite ?lookup_insert_eq; cbv beta iota;
    (destruct (dev_query T (Gen.gen T s) (Gen.SOUR channel ":FUNC:RAMP:SYMM?")) as [a8|];
     [destruct (find_1st_number a8) as [n8|]|]); cbv beta iota;
    rewrite ?lookup_insert_ne by discriminate; rewrite ?lookup_insert_eq; cbv beta iota;
    eexists; reflexivity.
Qed.

(** The answer to the duty-cycle query of the last channel, among those
    listed, that answers it. *)
Fixpoint last_answered (s : state) (channels : list Z) (acc : option Q) : option Q :=
  match channels with
  | [] => acc
  | c :: rest =>
      last_answered s rest
        match parsed s (Gen.SOUR c ":PULS:DCYC?") with
        | Some n => Some n
        | None => acc
        end
  end.

Lemma last_answered_acc s channels acc :
  last_answered s channels acc =
  match last_answered s channels None with
  | Some n => Some n
  | None => acc
  end.
Proof.
  revert acc. induction channels as [|c rest IH]; intros acc; [reflexivity|].
  cbn [last_answered].
  rewrite (IH (match parsed s (Gen.SOUR c ":PULS:DCYC?") with
               | Some n => Some n | None => acc end)).
  rewrite (IH (match parsed s (Gen.SOUR c ":PULS:DCYC?") with
               | Some n => Some n | None => None end)).
  destruct (last_answered s rest None); [reflexivity|].
  destruct (parsed s (Gen.SOUR c ":PULS:DCYC?")); reflexivity.
Qed.

Lemma last_answered_app s l1 l2 acc :
  last_answered s (l1 ++ l2) acc = last_answered s l2 (last_answered s l1 acc).
Proof.
  revert acc. induction l1 as [|c l1 IH]; intros acc; [reflexivity|].
  cbn [app last_answered]. apply IH.
Qed.

Lemma last_answered_unanswered s l acc :
  (forall c, In c l -> parsed s (Gen.SOUR c ":PULS:DCYC?") = None) ->
  last_answered s l acc = acc.
Proof.
  revert acc. induction l as [|c l IH]; intros acc H; [reflexivity|].
  cbn [last_answered]. rewrite (H c (or_introl eq_refl)).
  apply IH. intros c' Hc'. apply H. right. exact Hc'.
Qed.

(** The answer of a channel after which no channel answers is the last. *)
Lemma last_answered_last s pre c post acc n :
  parsed s (Gen.SOUR c ":PULS:DCYC?") = Some n ->
  (forall c', In c' post -> parsed s (Gen.SOUR c' ":PULS:DCYC?") = None) ->
  last_answered s (pre ++ c :: post) acc = Some n.
Proof.
  intros Hc Hpost. rewrite last_answered_app. cbn [last_answered]. rewrite Hc.
  apply last_answered_unanswered, Hpost.
Qed.

Lemma last_answered_some s l acc c n :
  In c l -> parsed s (Gen.SOUR c ":PULS:DCYC?") = Some n ->
  exists m, last_answered s l acc = Some m.
Proof.
  intros Hin Hc. apply in_split in Hin as (pre & post & ->).
  rewrite last_answered_app. cbn [last_answered]. rewrite Hc.
  rewrite last_answered_acc.
  destruct (last_answered s post None); eauto.
Qed.

(** The channels that come after a channel of the range. *)
Lemma channel_range_split n c :
  In c (Gen.channel_range n) ->
  exists pre post,
    Gen.channel_range n = pre ++ c :: post /\
    forall c', In c' post -> c < c' /\ In c' (Gen.channel_range n).
Proof.
  unfold Gen.channel_range. intros Hc.
  apply list_elem_of_In, elem_of_seqZ in Hc.
  exists (seqZ 1 (c - 1)), (seqZ (c + 1) (n - c)). split.
  - replace n with ((c - 1) + (n - c + 1)) at 1 by lia.
    rewrite seqZ_app by lia. f_equal.
    replace (1 + (c - 1)) with c by lia.
    rewrite seqZ_cons by lia. f_equal. f_equal; lia.
  - intros c' Hc'. apply list_elem_of_In, elem_of_seqZ in Hc'.
    split; [lia|]. apply list_elem_of_In, elem_of_seqZ. lia.
Qed.

Lemma for_channels_inv channels :
  forall cfg (s : state) cfg' s' t,
  List.NoDup channels ->
  Gen.for_channels T find_1st_number py_int channels cfg s = (Returns cfg', s', t) ->
  s' = s /\ t = map Query (flat_map channel_queries channels) /\
  (forall c, ~ In c channels -> cfg' !! inl c = cfg !! inl c) /\
  (forall k, cfg' !! inr k =
     match last_answered s channels None with
     | Some n => <[inr "Duty Cycle" := inr (VNum (Finite n))]> cfg !! inr k
     | None => cfg !! inr k
     end) /\
  (forall c, In c channels -> exists d0 d, cfg !! inl c = Some (inl d0) /\
     channel_state s c d0 = Some d /\ cfg' !! inl c = Some (inl d)).
Proof.
  induction channels as [|channel rest IH]; intros cfg s cfg' s' t Hnd H.
  - injection H as <- <- <-.
    do 4 (split; [reflexivity|]). intros c [].
  - simpl in H. unfold mbind, M_bind in H. invert_bind H.
    inversion Hnd as [|? ? Hnotin Hnd']; subst.
    apply get_config_channel_inv in H0
      as (-> & -> & Hframe & Htop & d0 & d & Hd0 & Hd & Hd').
    apply (IH _ _ _ _ _ Hnd') in H as (-> & -> & Hframe' & Htop' & Hin).
    split; [reflexivity|]. split; [cbn [flat_map]; rewrite List.map_app; reflexivity|].
    split; [|split].
    + intros c Hc. rewrite Hframe' by (intros Hin'; apply Hc; right; exact Hin').
      apply Hframe. intros ->. apply Hc. left. reflexivity.
    + intros k. rewrite Htop'. cbn [last_answered].
      rewrite (last_answered_acc s rest
                 (match parsed s (Gen.SOUR channel ":PULS:DCYC?") with
                  | Some n => Some n | None => None end)).
      destruct (last_answered s rest None) as [n'|].
      * destruct (decide (k = "Duty Cycle")) as [->|Hk].
        -- rewrite !lookup_insert_eq. reflexivity.
        -- rewrite !lookup_insert_ne by congruence. rewrite Htop.
           destruct (parsed s (Gen.SOUR channel ":PULS:DCYC?"));
             [rewrite lookup_insert_ne by congruence|]; reflexivity.
      * rewrite Htop. destruct (parsed s (Gen.SOUR channel ":PULS:DCYC?")); reflexivity.
    + intros c [<-|Hc].
      * exists d0, d. rewrite (Hframe' _ Hnotin). auto.
      * destruct (Hin c Hc) as (e0 & e & He0 & He & He').
        exists e0, e. rewrite <- Hframe; [auto|].
        intros ->. apply Hnotin, Hc.
Qed.

Lemma for_channels_returns_if channels :
  forall cfg (s : state),
  (forall c, In c channels ->
     (exists d0, cfg !! inl c = Some (inl d0)) /\ is_Some (channel_state s c ∅)) ->
  exists cfg' t,
    Gen.for_channels T find_1st_number py_int channels cfg s = (Returns cfg', s, t).
Proof.
  induction channels as [|channel rest IH]; intros cfg s H.
  - exists cfg, []. reflexivity.
  - destruct (H channel (or_introl eq_refl)) as [[d0 Hd0] Hsome].
    destruct (get_config_channel_returns_if cfg channel s d0 Hd0
                (channel_state_any _ _ _ _ Hsome)) as [cfg1 Hbody].
    destruct (IH cfg1 s) as (cfg' & t & Hrest).
    { intros c Hc. destruct (H c (or_intror Hc)) as [[e0 He0] He]. split; [|exact He].
      apply get_config_channel_inv in Hbody as (_ & _ & Hframe & _ & _ & d & _ & _ & Hd).
      destruct (decide (c = channel)) as [->|Hne]; [eauto|].
      rewrite (Hframe c Hne). eauto. }
    simpl. unfold mbind, M_bind, bind. rewrite Hbody, Hrest. eauto.
Qed.

Lemma fresh_lookup (l : list Z) c :
  In c l ->
  (list_to_map (map (fun i => (inl i, inl ∅)) l) : config) !! inl c = Some (inl ∅).
Proof.
  induction l as [|i l IH]; simpl; [intros []|].
  destruct (decide (i = c)) as [->|Hne].
  - intros _. apply lookup_insert_eq.
  - intros [H|H]; [congruence|]. rewrite lookup_insert_ne by congruence. apply IH, H.
Qed.

Lemma fresh_lookup_None (l : list Z) c :
  ~ In c l ->
  (list_to_map (map (fun i => (inl i, inl ∅)) l) : config) !! inl c = None.
Proof.
  induction l as [|i l IH]; simpl; intros H; [apply lookup_empty|].
  rewrite lookup_insert_ne by (intros [= ->]; apply H; left; reflexivity).
  apply IH. intros Hin. apply H. right. exact Hin.
Qed.

Lemma fresh_lookup_inr (l : list Z) k :
  (list_to_map (map (fun i => (inl i, inl ∅)) l) : config) !! inr k = None.
Proof.
  induction l as [|i l IH]; simpl; [apply lookup_empty|].
  rewrite lookup_insert_ne by discriminate. exact IH.
Qed.

Lemma channel_range_NoDup n : List.NoDup (Gen.channel_range n).
Proof. apply NoDup_ListNoDup, NoDup_seqZ. Qed.

(** A call of [get_config_output] that returns: what it has asked, and
    what the configuration holds for every channel number. *)
Lemma get_config_output_inv (s : state) cfg s' t :
  Gen.get_config_output T find_1st_number py_int s = (Returns cfg, s', t) ->
  s' = s /\
  t = map Query (flat_map channel_queries (Gen.channel_range (Gen.nchannels T s))) /\
  (forall c, In c (Gen.channel_range (Gen.nchannels T s)) ->
     exists d, channel_state s c ∅ = Some d /\ cfg !! inl c = Some (inl d)) /\
  (forall c, ~ In c (Gen.channel_range (Gen.nchannels T s)) -> cfg !! inl c = None) /\
  (forall k, cfg !! inr k =
     match last_answered s (Gen.channel_range (Gen.nchannels T s)) None with
     | Some n => if String.eqb k "Duty Cycle" then Some (inr (VNum (Finite n))) else None
     | None => None
     end).
Proof.
  unfold Gen.get_config_output, mbind, M_bind, bind, gets. simpl.
  destruct (Gen.for_channels _ _ _ _ _ s) as [[r s1] t1] eqn:H.
  intros [= -> -> <-].
  apply for_channels_inv in H as (-> & -> & Hframe & Htop & Hin);
    [|apply channel_range_NoDup].
  split; [reflexivity|]. split; [reflexivity|]. split; [|split].
  - intros c Hc. destruct (Hin c Hc) as (d0 & d & Hd0 & Hd & Hd').
    rewrite (fresh_lookup _ _ Hc) in Hd0. injection Hd0 as <-. eauto.
  - intros c Hc. rewrite (Hframe c Hc). apply fresh_lookup_None, Hc.
  - intros k. rewrite Htop.
    destruct (last_answered s (Gen.channel_range (Gen.nchannels T s)) None) as [n|];
      [|apply fresh_lookup_inr].
    destruct (String.eqb k "Duty Cycle") eqn:Hk.
    + apply String.eqb_eq in Hk as ->. apply lookup_insert_eq.
    + apply String.eqb_neq in Hk. rewrite lookup_insert_ne by congruence.
      apply fresh_lookup_inr.
Qed.

Lemma get_config_output_returns_if (s : state) :
  (forall c, In c (Gen.channel_range (Gen.nchannels T s)) ->
     is_Some (channel_state s c ∅)) ->
  exists cfg t,
    Gen.get_config_output T find_1st_number py_int s = (Returns cfg, s, t).
Proof.
  intros H. unfold Gen.get_config_output, mbind, M_bind, bind, gets. simpl.
  destruct (for_channels_returns_if (Gen.channel_range (Gen.nchannels T s))
              (list_to_map (map (fun i => (inl i, inl ∅))
                              (Gen.channel_range (Gen.nchannels T s)))) s)
    as (cfg & t & Hrun).
  { intros c Hc. split; [|apply H, Hc]. exists ∅. apply fresh_lookup, Hc. }
  rewrite Hrun. eauto.
Qed.

(** *** What [output] does *)

(** The channel [output] works on. *)
Definition front (channel : Z) : Z :=
  if bool_decide (channel ∈ [1; 2]) then channel else 1.

Definition announcement {A : Type} (channel : Z) (key : string) (v : option A)
    : list event :=
  match v with
  | Some _ => [Print ("Changing " +:+ key +:+ " on CH" +:+ pretty channel)]
  | None => []
  end.

(** What [output] prints before it reconfigures. *)
Definition preamble (channel : Z) (output_config : kwargs) : list event :=
  (if bool_decide (channel ∈ [1; 2]) then []
   else [Print "Unrecognized output channel (default 'CH1')"]) ++
  announcement (front channel) "waveform" (kw_waveform output_config) ++
  announcement (front channel) "frequency" (kw_frequency output_config) ++
  announcement (front channel) "amplitude" (kw_amplitude output_config) ++
  announcement (front channel) "offset" (kw_offset output_config) ++
  announcement (front channel) "phase" (kw_phase output_config) ++
  announcement (front channel) "duty_cycle" (kw_duty_cycle output_config) ++
  announcement (front channel) "symmetry" (kw_symmetry output_config).

(** The call of [re_config_output] that [output] makes. *)
Definition reconfigured (channel : Z) (print_changes : bool)
    (output_config : kwargs) : Mg unit :=
  Gen.re_config_output T str_num fmt_1f (front channel)
    (arg (kw_waveform output_config))
    (arg (kw_frequency output_config))
    (arg (kw_amplitude output_config))
    (arg (kw_offset output_config))
    (arg (kw_phase output_config))
    (arg (kw_duty_cycle output_config))
    (arg (kw_symmetry output_config))
    print_changes.

(** The command that switches the output, and the line printed after it. *)
Definition STAT (channel : Z) (status : bool) : string :=
  OUTP channel (":STAT " +:+ (if status then "1" else "0")).

Definition switched (channel : Z) (status : bool) : string :=
  "Output CH" +:+ pretty channel +:+ (if status then " ON" else " OFF").

Lemma announce_eq {A : Type} channel key (v : option A) (s : state) :
  announce channel key v s = (Returns tt, s, announcement channel key v).
Proof. destruct v; reflexivity. Qed.

Lemma preamble_silent channel output_config :
  writes (preamble channel output_config) = [] /\
  queries (preamble channel output_config) = [].
Proof.
  unfold preamble, announcement.
  destruct (bool_decide (channel ∈ [1; 2])),
    (kw_waveform output_config), (kw_frequency output_config),
    (kw_amplitude output_config), (kw_offset output_config),
    (kw_phase output_config), (kw_duty_cycle output_config),
    (kw_symmetry output_config); split; reflexivity.
Qed.

(** [output] step by step: the reconfiguration, then the command that
    switches the output, then the line printed and the cache entry. *)
Lemma output_eq status channel print_changes output_config (s : state) :
  output status channel print_changes output_config s =
  match reconfigured channel print_changes output_config s with
  | (Raises e, s1, t1) => (Raises e, s1, preamble channel output_config ++ t1)
  | (Returns _, s1, t1) =>
      let ch := front channel in
      match dev_write T (Gen.gen T s1) (STAT ch status) with
      | None =>
          (Raises VisaIOError, s1,
           preamble channel output_config ++ t1 ++ [Write (STAT ch status)])
      | Some g =>
          let t := preamble channel output_config ++ t1 ++
                   [Write (STAT ch status); Print (switched ch status)] in
          match Gen.config_output T s1 !! inl ch with
          | Some (inl d) =>
              (Returns tt,
               Gen.store T ch (<["Status" := VBool status]> d) (Gen.set_gen T g s1), t)
          | Some (inr _) => (Raises TypeError, Gen.set_gen T g s1, t)
          | None => (Raises (KeyError (inl ch)), Gen.set_gen T g s1, t)
          end
      end
  end.
Proof.
  unfold output, reconfigured, preamble, front, STAT, switched.
  destruct (bool_decide (channel ∈ [1; 2])); unfold negb;
    unfold mbind, M_bind, bind, mret, M_ret, ret, print, emit; cbv beta iota;
    repeat (rewrite announce_eq; cbv beta iota);
    (destruct (Gen.re_config_output _ _ _ _ _ _ _ _ _ _ _ _ s) as [[[[]|e] s1] t1];
     cbv beta iota zeta;
     [|rewrite <- ?app_assoc; reflexivity]);
    unfold Gen.gen_write;
    (destruct (dev_write T (Gen.gen T s1) _) as [g|];
     [|cbv beta iota; rewrite <- ?app_assoc; reflexivity]);
    destruct status; cbv beta iota;
    unfold Gen.config_set, Gen.subscript, mbind, M_bind, bind, gets, modify, mret, M_ret,
      ret, raise, Gen.store; cbv beta iota;
    change (Gen.config_output T (Gen.set_gen T g s1)) with (Gen.config_output T s1);
    destruct (Gen.config_output T s1 !! inl _) as [[d|q]|]; cbv beta iota;
    rewrite <- ?app_assoc; reflexivity.
Qed.

(** *** What [re_config_output] leaves alone *)

Definition field_names : list string :=
  ["Waveform"; "Frequency"; "Amplitude"; "Offset"; "Phase"; "Duty Cycle"; "Symmetry"].

Lemma commit_all_dom l (d : gmap string value) :
  (forall st, In st l -> is_Some (d !! Gen.field st)) ->
  dom (Gen.commit_all l d) = dom d.
Proof.
  revert d. induction l as [|x l IH]; intros d H; [reflexivity|].
  unfold Gen.commit_all in *. simpl.
  assert (Hx : dom (Gen.commit d x) = dom d).
  { unfold Gen.commit. destruct (Gen.request x) as [[[v c] m]|]; [|reflexivity].
    rewrite dom_insert_L.
    apply subseteq_union_1_L, singleton_subseteq_l, elem_of_dom, H.
    left. reflexivity. }
  rewrite IH, Hx; [reflexivity|].
  intros st Hst. apply elem_of_dom. rewrite Hx. apply elem_of_dom, H. right. exact Hst.
Qed.

Lemma steps_commands_SOUR channel w frequency amplitude offset phase
    duty_cycle symmetry c :
  In c (Gen.commands (Gen.steps str_num fmt_1f channel w frequency amplitude
                        offset phase duty_cycle symmetry)) ->
  exists rest, c = Gen.SOUR channel rest.
Proof.
  unfold Gen.commands, Gen.steps, Gen.basic_steps. intros H.
  destruct frequency, amplitude, offset, phase, duty_cycle, symmetry; simpl in H;
    repeat (destruct H as [<-|H]; [eexists; reflexivity|]);
    destruct H.
Qed.

Lemma steps_command_in (l : list Gen.step) st cmd :
  In st l -> Gen.command st = Some cmd -> In cmd (Gen.commands l).
Proof.
  intros Hin Hc. unfold Gen.commands. apply list_elem_of_In, list_elem_of_omap.
  exists st. split; [apply list_elem_of_In, Hin|exact Hc].
Qed.

(** Whatever the outcome of a call: the number of channels, the other
    entries of the cache and the keys of the channel's state are as before,
    only the seven fields of the channel may hold a new value, and every
    command sent is a [SOUR] command of the channel. *)
Lemma re_config_output_frame channel waveform frequency amplitude offset phase
    duty_cycle symmetry print_changes (s : state) r s' t :
  Gen.re_config_output T str_num fmt_1f channel waveform frequency amplitude
    offset phase duty_cycle symmetry print_changes s = (r, s', t) ->
  let ch := Gen.effective (Gen.nchannels T s) channel in
  Gen.nchannels T s' = Gen.nchannels T s /\
  (forall k, k <> inl ch -> Gen.config_output T s' !! k = Gen.config_output T s !! k) /\
  (forall c, In c (writes t) -> exists rest, c = Gen.SOUR ch rest) /\
  match Gen.config_output T s !! inl ch with
  | Some (inl d) =>
      exists d', Gen.config_output T s' !! inl ch = Some (inl d') /\
        dom d' = dom d /\
        forall k, ~ In k field_names -> d' !! k = d !! k
  | other => Gen.config_output T s' !! inl ch = other
  end.
Proof.
  intros Hrun ch.
  assert (Hsame : s' = s -> writes t = [] ->
    Gen.nchannels T s' = Gen.nchannels T s /\
    (forall k, k <> inl ch -> Gen.config_output T s' !! k = Gen.config_output T s !! k) /\
    (forall c, In c (writes t) -> exists rest, c = Gen.SOUR ch rest) /\
    match Gen.config_output T s !! inl ch with
    | Some (inl d) =>
        exists d', Gen.config_output T s' !! inl ch = Some (inl d') /\
          dom d' = dom d /\
          forall k, ~ In k field_names -> d' !! k = d !! k
    | other => Gen.config_output T s' !! inl ch = other
    end).
  { intros -> ->. repeat split; [intros c []|].
    destruct (Gen.config_output T s !! inl ch) as [[d|q]|]; eauto. }
  destruct (Gen.config_output T s !! inl ch) as [[d|q]|] eqn:Hd.
  1: destruct (Gen.target d waveform) as [w|] eqn:Ht.
  2-4: (assert (Hno : forall d w, Gen.config_output T s !! inl ch = Some (inl d) ->
                                   Gen.target d waveform <> Some w) by congruence;
        destruct (Gen.re_config_output_no_state T str_num fmt_1f _ _ _ _ _ _ _ _ _ _ _ _ _
                    Hno Hrun) as (Hs & Hw & _);
        apply Hsame; assumption).
  clear Hsame.
  destruct (Gen.re_config_output_spec T str_num fmt_1f _ _ _ _ _ _ _ _ _ _ _ _ _ _ _
              Hd Ht Hrun)
    as (done & rest & t0 & extra & Hl & Hn & Hc & -> & Hw & _ & _ & Hs).
  fold ch in Hl, Hc.
  assert (Hdone : forall st, In st (Gen.applied d done) ->
            In st (Gen.steps str_num fmt_1f ch w frequency amplitude offset phase
                     duty_cycle symmetry) /\ Gen.pending d st = true).
  { intros st Hst. unfold Gen.applied in Hst. apply filter_In in Hst as [Hst Hp].
    split; [|exact Hp]. rewrite Hl. apply in_or_app. left. exact Hst. }
  split; [exact Hn|]. split; [|split].
  - intros k Hk. rewrite Hc. apply lookup_insert_ne. congruence.
  - intros c. rewrite writes_app, writes_Write, Hw. intros Hin.
    apply (steps_commands_SOUR ch w frequency amplitude offset phase duty_cycle symmetry).
    apply in_app_or in Hin as [Hin|Hin].
    + apply Gen.commands_applied_in in Hin. rewrite Hl, Gen.commands_app.
      apply in_or_app. left. exact Hin.
    + inversion Hs as [| | |st rest' cmd Hcmd Hb Hp Hwr]; subst.
      1-3: destruct Hin.
      destruct Hin as [<-|[]].
      apply (steps_command_in _ st); [|exact Hcmd].
      rewrite Hl. apply in_or_app. right. left. reflexivity.
  - exists (Gen.commit_all (Gen.applied d done) d).
    split; [rewrite Hc; apply lookup_insert_eq|]. split.
    + apply commit_all_dom. intros st Hst. destruct (Hdone st Hst) as [_ Hp].
      unfold Gen.pending in Hp. destruct (Gen.request st) as [[[v c] m]|]; [|discriminate].
      destruct (d !! Gen.field st); [eauto|discriminate].
    + intros k Hk. apply Gen.commit_all_lookup_ne. intros st Hst <-.
      apply Hk. destruct (Hdone st Hst) as [Hin _].
      apply (in_map Gen.field) in Hin. rewrite Gen.steps_fields in Hin. exact Hin.
Qed.

(** *** [__init__] *)

(** The instance once [nchannels] is assigned. *)
Definition with_nchannels (n : Z) (s : state) : state :=
  {| Gen.nchannels := n; Gen.config_output := Gen.config_output T s;
     Gen.gen := Gen.gen T s |}.

Lemma gen_init_inv n (s0 : state) s t :
  init n s0 = (Returns tt, s, t) ->
  exists idn cfg tq,
    dev_query T (Gen.gen T s0) "*IDN?" = Some idn /\
    Gen.get_config_output T find_1st_number py_int (with_nchannels n s0)
      = (Returns cfg, with_nchannels n s0, tq) /\
    s = Gen.set_config T cfg (with_nchannels n s0) /\
    t = [Query "*IDN?"; Print idn] ++ tq.
Proof.
  unfold init, Gen.init_config_output, mbind, M_bind, bind, Gen.gen_query, print, emit,
    modify.
  destruct (dev_query T (Gen.gen T s0) "*IDN?") as [idn|]; [|discriminate].
  cbv beta iota. fold (with_nchannels n s0).
  destruct (Gen.get_config_output T find_1st_number py_int (with_nchannels n s0))
    as [[[cfg|e] s1] tq] eqn:Hget; [|discriminate].
  intros [= <- <-].
  destruct (get_config_output_inv _ _ _ _ Hget) as (-> & _).
  exists idn, cfg, tq. do 3 (split; [reflexivity|]).
  simpl. rewrite app_nil_r. reflexivity.
Qed.

(** The fields a channel's state holds once the device has answered. *)
Lemma channel_state_fields (s : state) channel d0 d :
  channel_state s channel d0 = Some d ->
  (forall k, In k Gen.basic_fields -> is_Some (d !! k)) /\
  is_Some (d !! "Status") /\ is_Some (d !! "Symmetry").
Proof.
  unfold channel_state.
  destruct (dev_query T (Gen.gen T s) (OUTP channel ":STAT?")) as [r|]; [|discriminate].
  cbn [mbind option_bind].
  destruct (py_int r) as [z|]; [|discriminate]. cbn [mbind option_bind].
  destruct (dev_query T (Gen.gen T s) (Gen.SOUR channel ":FUNC:SHAP?")) as [w|];
    [|discriminate]. cbn [mbind option_bind].
  destruct (parsed s (Gen.SOUR channel ":FREQ?")) as [f|]; [|discriminate].
  cbn [mbind option_bind].
  destruct (parsed s (Gen.SOUR channel ":VOLT:LEV:IMM:AMPL?")) as [a|]; [|discriminate].
  cbn [mbind option_bind].
  destruct (parsed s (Gen.SOUR channel ":VOLT:LEV:IMM:OFFS?")) as [o|]; [|discriminate].
  cbn [mbind option_bind].
  destruct (parsed s (Gen.SOUR channel ":PHAS?")) as [p|]; [|discriminate].
  cbn [mbind option_bind]. cbv zeta. intros [= <-].
  destruct (parsed s (Gen.SOUR channel ":PULS:DCYC?")); split;
    try (intros k [<-|[<-|[<-|[<-|[<-|[]]]]]]);
    try split;
    repeat first [ rewrite lookup_insert_eq | rewrite lookup_insert_ne by discriminate ];
    eauto.
Qed.

(** A call that gives no waveform and no number compares the cached
    waveform with itself and does nothing. *)
Lemma re_config_output_unset channel print_changes (s : state) d w :
  Gen.config_output T s !! inl (Gen.effective (Gen.nchannels T s) channel) = Some (inl d) ->
  d !! "Waveform" = Some w ->
  is_nan w = false ->
  Gen.re_config_output T str_num fmt_1f channel None None None None None None None
    print_changes s
  = (Returns tt, s, Gen.diagnostic (Gen.nchannels T s) channel).
Proof.
  intros Hd Hw Hnan. rewrite Gen.re_config_output_steps.
  unfold mbind, M_bind, bind. rewrite Gen.coerce_channel_eq.
  rewrite (Gen.recognize_target T _ None s d w Hd Hw).
  unfold Gen.steps, Gen.basic_steps, Gen.duty_cycle_step, Gen.symmetry_step.
  cbn [app fmap option_fmap option_map].
  rewrite Gen.run_steps_cons. unfold bind.
  rewrite (Gen.run_step_settled T _ _ _ _ s d Hd).
  - cbn. unfold mbind, M_bind, bind, mret, M_ret, ret. cbn.
    rewrite ?app_nil_r. reflexivity.
  - intros _. split; [reflexivity|]. simpl. rewrite Hw. eauto.
  - unfold Gen.settled. simpl. exists w. split; [exact Hw|apply py_ne_refl, Hnan].
Qed.

Lemma front_in channel : In channel [1; 2] -> front channel = channel.
Proof.
  intros H. unfold front. rewrite bool_decide_eq_true_2; [reflexivity|].
  apply list_elem_of_In, H.
Qed.

Lemma front_range channel : In (front channel) [1; 2].
Proof.
  unfold front. destruct (bool_decide (channel ∈ [1; 2])) eqn:H.
  - apply bool_decide_eq_true_1 in H. apply list_elem_of_In, H.
  - left. reflexivity.
Qed.

Lemma STAT_not_SOUR channel status ch rest : STAT channel status <> Gen.SOUR ch rest.
Proof. unfold STAT, OUTP, Gen.SOUR. discriminate. Qed.

(** *** Calling again *)

Lemma run_steps_settled channel w print_changes l :
  forall (s : state) d,
  Gen.config_output T s !! inl channel = Some (inl d) ->
  Forall (fun st => Gen.passed w d st /\ Gen.settled d st) l ->
  Gen.run_steps T channel w print_changes l s = (Returns tt, s, []).
Proof.
  induction l as [|x l IH]; intros s d Hd Hall; [reflexivity|].
  inversion Hall as [|? ? [Hp Hs] Hall']; subst.
  rewrite Gen.run_steps_cons. unfold bind.
  rewrite (Gen.run_step_settled T _ _ _ _ _ _ Hd Hp Hs).
  rewrite (IH _ _ Hd Hall'). reflexivity.
Qed.

(** After a call that has returned, the cache holds every value the call
    asked for. *)
Lemma re_config_output_settles channel waveform frequency amplitude offset phase
    duty_cycle symmetry print_changes (s : state) s1 t1 :
  Gen.re_config_output T str_num fmt_1f channel waveform frequency amplitude
    offset phase duty_cycle symmetry print_changes s = (Returns tt, s1, t1) ->
  Forall Gen.not_nan [frequency; amplitude; offset; phase; duty_cycle; symmetry] ->
  (waveform = None ->
   Gen.waveform_not_nan T s (Gen.effective (Gen.nchannels T s) channel)) ->
  let ch := Gen.effective (Gen.nchannels T s) channel in
  Gen.nchannels T s1 = Gen.nchannels T s /\
  exists d1 w,
    Gen.config_output T s1 !! inl ch = Some (inl d1) /\
    Gen.target d1 waveform = Some w /\
    Forall (fun st => Gen.passed w d1 st /\ Gen.settled d1 st)
      (Gen.steps str_num fmt_1f ch w frequency amplitude offset phase
         duty_cycle symmetry).
Proof.
  intros Hrun Hargs Hwave ch.
  destruct (Gen.re_config_output_minimal T str_num fmt_1f _ _ _ _ _ _ _ _ _ _ _ _ Hrun)
    as (d & w & Hd & Ht & _ & _ & _ & _ & Hc & Hnew & Hold).
  fold ch in Hd, Hc, Hnew, Hold.
  pose proof (Gen.steps_comparable str_num fmt_1f ch w _ _ _ _ _ _
                (Gen.target_not_nan T _ _ _ _ _ Hwave Hd Ht) Hargs) as Hcmp.
  destruct (Gen.re_config_output_spec T str_num fmt_1f _ _ _ _ _ _ _ _ _ _ _ _ _ _ _
              Hd Ht Hrun)
    as (done & rest & t0 & extra & Hl & Hn & _ & _ & _ & _ & Hpassed & Hs).
  fold ch in Hl. inversion Hs; subst. rewrite app_nil_r in Hl. subst done.
  split; [exact Hn|].
  set (l := Gen.steps str_num fmt_1f ch w frequency amplitude offset phase
              duty_cycle symmetry) in *.
  exists (Gen.commit_all (Gen.applied d l) d), w.
  split; [rewrite Hc; apply lookup_insert_eq|]. split.
  { apply (Gen.cached_waveform_kept str_num fmt_1f ch waveform frequency amplitude
             offset phase duty_cycle symmetry d w l []); [exact Ht|].
    rewrite app_nil_r. reflexivity. }
  apply List.Forall_forall. intros st Hst.
  pose proof (proj1 (List.Forall_forall _ _) Hpassed st Hst) as Hp.
  unfold Gen.passed, Gen.settled in *.
  destruct (Gen.request st) as [[[v c] m]|] eqn:Hreq; [|split; [intros [? [=]]|exact I]].
  destruct (Hp ltac:(eauto)) as [Hb [old Hold']].
  destruct (Gen.pending d st) eqn:Hpend.
  - assert (Hin : In st (Gen.applied d l))
      by (unfold Gen.applied; apply filter_In; auto).
    rewrite (Hnew st v c m Hin Hreq). split; [eauto|].
    exists v. split; [reflexivity|apply py_ne_refl].
    pose proof (proj1 (List.Forall_forall _ _) Hcmp st Hst) as Hv.
    unfold Gen.comparable in Hv. rewrite Hreq in Hv. exact Hv.
  - rewrite (Hold st Hst Hpend), Hold'. split; [eauto|].
    exists old. split; [reflexivity|].
    unfold Gen.pending in Hpend. rewrite Hreq, Hold' in Hpend. exact Hpend.
Qed.

Lemma settled_beside_status w (d : gmap string value) v st :
  Gen.field st <> "Status" ->
  Gen.passed w d st /\ Gen.settled d st ->
  Gen.passed w (<["Status" := v]> d) st /\ Gen.settled (<["Status" := v]> d) st.
Proof.
  intros Hf. unfold Gen.passed, Gen.settled.
  rewrite lookup_insert_ne by congruence. auto.
Qed.

(** [output] called again with what it was called with, after it has
    returned: nothing is left to reconfigure. *)
Lemma output_again_eq status channel print_changes output_config (s : state) s' t :
  output status channel print_changes output_config s = (Returns tt, s', t) ->
  no_nan output_config ->
  (kw_waveform output_config = None \/ kw_waveform output_config = Some None ->
   Gen.waveform_not_nan T s (Gen.effective (Gen.nchannels T s) (front channel))) ->
  exists t0, writes t0 = [] /\ queries t0 = [] /\
    output status channel print_changes output_config s' =
    match dev_write T (Gen.gen T s') (STAT (front channel) status) with
    | Some g =>
        (Returns tt, Gen.set_gen T g s',
         t0 ++ [Write (STAT (front channel) status);
                Print (switched (front channel) status)])
    | None => (Raises VisaIOError, s', t0 ++ [Write (STAT (front channel) status)])
    end.
Proof.
  intros Hout Hargs Hwave. revert Hout.
  rewrite output_eq. unfold reconfigured.
  set (ch0 := front channel) in *.
  destruct (Gen.re_config_output T str_num fmt_1f ch0 _ _ _ _ _ _ _ print_changes s)
    as [[[[]|e] s1] t1] eqn:Hrun; [|discriminate].
  cbv zeta.
  destruct (dev_write T (Gen.gen T s1) (STAT ch0 status)) as [g|]; [|discriminate].
  destruct (Gen.config_output T s1 !! inl ch0) as [[dF|q]|] eqn:HdF; try discriminate.
  intros [= <- <-].
  assert (Hwave' : arg (kw_waveform output_config) = None ->
            Gen.waveform_not_nan T s (Gen.effective (Gen.nchannels T s) ch0)).
  { intros Harg. apply Hwave.
    destruct (kw_waveform output_config) as [[x|]|]; [discriminate Harg|auto|auto]. }
  destruct (re_config_output_settles _ _ _ _ _ _ _ _ _ _ _ _ Hrun Hargs Hwave')
    as (Hn & d1 & w & Hd1 & Ht & Hall).
  set (ch := Gen.effective (Gen.nchannels T s) ch0) in *.
  set (s' := Gen.store T ch0 (<["Status" := VBool status]> dF) (Gen.set_gen T g s1)).
  assert (Hn' : Gen.nchannels T s' = Gen.nchannels T s) by exact Hn.
  assert (Hstate : exists d',
            Gen.config_output T s' !! inl ch = Some (inl d') /\
            Gen.target d' (arg (kw_waveform output_config)) = Some w /\
            Forall (fun st => Gen.passed w d' st /\ Gen.settled d' st)
              (Gen.steps str_num fmt_1f ch w (arg (kw_frequency output_config))
                 (arg (kw_amplitude output_config)) (arg (kw_offset output_config))
                 (arg (kw_phase output_config)) (arg (kw_duty_cycle output_config))
                 (arg (kw_symmetry output_config)))).
  { unfold s', Gen.store. simpl. destruct (decide (ch = ch0)) as [Heq|Hne].
    - rewrite Heq in *. rewrite lookup_insert_eq.
      rewrite HdF in Hd1. injection Hd1 as <-.
      exists (<["Status" := VBool status]> dF). split; [reflexivity|]. split.
      + destruct (arg (kw_waveform output_config)); simpl in *; [exact Ht|].
        rewrite lookup_insert_ne by discriminate. exact Ht.
      + apply List.Forall_forall. intros st Hst.
        apply settled_beside_status;
          [|exact (proj1 (List.Forall_forall _ _) Hall st Hst)].
        apply (in_map Gen.field) in Hst. rewrite Gen.steps_fields in Hst.
        simpl in Hst. intros Heq'. rewrite Heq' in Hst.
        repeat (destruct Hst as [Hst|Hst]; [discriminate Hst|]). exact Hst.
    - rewrite lookup_insert_ne by congruence. eauto. }
  destruct Hstate as (d' & Hd' & Ht' & Hall').
  assert (Hre : Gen.re_config_output T str_num fmt_1f ch0
                  (arg (kw_waveform output_config)) (arg (kw_frequency output_config))
                  (arg (kw_amplitude output_config)) (arg (kw_offset output_config))
                  (arg (kw_phase output_config)) (arg (kw_duty_cycle output_config))
                  (arg (kw_symmetry output_config)) print_changes s'
                = (Returns tt, s',
                   Gen.diagnostic (Gen.nchannels T s) ch0 ++
                   Gen.warning (arg (kw_waveform output_config)) ++ [])).
  { rewrite Gen.re_config_output_steps. unfold mbind, M_bind, bind.
    rewrite Gen.coerce_channel_eq, Hn'. fold ch.
    rewrite (Gen.recognize_target T _ _ _ _ _ Hd' Ht').
    rewrite (run_steps_settled _ _ _ _ _ _ Hd' Hall'). reflexivity. }
  exists (preamble channel output_config ++
          Gen.diagnostic (Gen.nchannels T s) ch0 ++
          Gen.warning (arg (kw_waveform output_config)) ++ []).
  destruct (preamble_silent channel output_config) as [Hpw Hpq].
  destruct (Gen.diagnostic_silent (Gen.nchannels T s) ch0) as [Hdw Hdq].
  destruct (Gen.warning_silent (arg (kw_waveform output_config))) as [Hww Hwq].
  split; [rewrite !writes_app, Hpw, Hdw, Hww; reflexivity|].
  split; [rewrite !queries_app, Hpq, Hdq, Hwq; reflexivity|].
  rewrite output_eq. unfold reconfigured. fold ch0. rewrite Hre. cbv zeta.
  destruct (dev_write T (Gen.gen T s') (STAT ch0 status)) as [g'|];
    [|rewrite <- !app_assoc; reflexivity].
  assert (Hlook : Gen.config_output T s' !! inl ch0
                  = Some (inl (<["Status" := VBool status]> dF)))
    by (unfold s', Gen.store; simpl; apply lookup_insert_eq).
  rewrite Hlook. rewrite <- !app_assoc. f_equal. f_equal.
  unfold s', Gen.store, Gen.set_gen, Gen.set_config. simpl.
  rewrite !insert_insert_eq. reflexivity.
Qed.

End GenMethods.

End GenMethods.

(** ** The other methods of the oscilloscope *)

Module OsciMethods.

Section OsciMethods.

Context (T : transport).
Context (find_1st_number : string -> outcome Q).
(** Python's [float] on a string; [None] when it raises [ValueError]. *)
Context (py_float : string -> option Q).
(** ['{}'.format(x)] on a float. *)
Context (str_float : Q -> string).
(** The numbers PyVISA reads in an answer whose values are separated by
    [';'], the second half of [query_ascii_values]. *)
Context (ascii_values : string -> outcome (list Q)).

Local Abbreviation state := (Osci.state T).
Local Abbreviation Mo := (M (Osci.state T)).

Definition measure (mtype : string) (channel : Z) (print_result : bool) : Mo Q :=
  Osci.re_config_measure T find_1st_number mtype channel;;
  r ← Osci.osci_query T "MEASU:IMM:VAL?";
  result ← lift_opt (ValueError "could not convert string to float") (py_float r);
  units ← Osci.osci_query T "MEASU:IMM:UNI?";
  when print_result (print (str_float result +:+ " " +:+ units));;
  mret result.

(** [xze, xin, yze, ymu, yoff = ...]: five values, or [ValueError]. *)
Definition unpack5 (vs : list Q) : Mo (Q * Q * Q * Q * Q) :=
  match vs with
  | [xze; xin; yze; ymu; yoff] => mret (xze, xin, yze, ymu, yoff)
  | _ =>
      raise (ValueError (if (length vs <? 5)%nat then "not enough values to unpack"
                         else "too many values to unpack"))
  end.

Definition get_config_screen : Mo (gmap string value) :=
  let configuration : gmap string value := ∅ in
  r ← Osci.osci_query T "WFMPRE:XZE?;XIN?;YZE?;YMU?;YOFF?;";
  vs ← lift_outcome (ascii_values r);
  _ ← unpack5 vs;
  r ← Osci.osci_query T "MEASU:IMM:SOU?";
  n ← lift_outcome (find_1st_number r);
  let configuration := <["Source" := VNum (Finite n)]> configuration in
  r ← Osci.osci_query T "MEASU:IMM:TYP?";
  let configuration := <["Type" := VStr r]> configuration in
  mret configuration.

(** [Osci.__init__], from the resource [rm.open_resource] has returned on:
    it runs on an instance that holds the resource and nothing else yet, and
    its result here is the value it assigns to [self.config_screen]. *)
Definition init : Mo (gmap string value) :=
  r ← Osci.osci_query T "*IDN?";
  print r;;
  Osci.osci_write T "DAT:ENC RPB";;
  Osci.osci_write T "DAT:WID 1";;
  c ← Osci.get_config_measure T find_1st_number;
  modify (fun s => {| Osci.config_measure := c; Osci.osci := Osci.osci T s |});;
  get_config_screen.

(** The cache holds what the device answers now. *)
Definition mirrors (s : state) : Prop :=
  Osci.readback T find_1st_number (Osci.osci T s) = Some (Osci.config_measure T s).

Lemma osci_query_inv cmd (s : state) a s' t :
  Osci.osci_query T cmd s = (Returns a, s', t) ->
  dev_query T (Osci.osci T s) cmd = Some a /\ s' = s /\ t = [Query cmd].
Proof.
  unfold Osci.osci_query. destruct (dev_query T (Osci.osci T s) cmd);
    intros [=]; subst; auto.
Qed.

Lemma osci_query_read_only cmd : read_only (Osci.osci_query T cmd).
Proof.
  intros s r s' t. unfold Osci.osci_query.
  destruct (dev_query T (Osci.osci T s) cmd); intros [= <- <- <-]; auto.
Qed.

Lemma get_config_measure_read_only :
  read_only (Osci.get_config_measure T find_1st_number).
Proof.
  unfold Osci.get_config_measure, mbind, M_bind, mret, M_ret.
  repeat first [ apply read_only_bind | apply osci_query_read_only
               | apply read_only_lift_outcome | apply read_only_ret | intro ].
Qed.

Lemma unpack5_read_only vs : read_only (unpack5 vs).
Proof.
  unfold unpack5.
  destruct vs as [|? [|? [|? [|? [|? [|? ?]]]]]];
    first [apply read_only_ret | apply read_only_raise].
Qed.

Lemma get_config_screen_read_only : read_only get_config_screen.
Proof.
  unfold get_config_screen, mbind, M_bind, mret, M_ret.
  repeat first [ apply read_only_bind | apply osci_query_read_only
               | apply read_only_lift_outcome | apply unpack5_read_only
               | apply read_only_ret | intro ].
Qed.

(** [get_config_screen] is [get_config_measure] after the query of the
    waveform preamble, whose five values it drops. *)
Lemma get_config_screen_eq (s : state) :
  get_config_screen s =
  match dev_query T (Osci.osci T s) "WFMPRE:XZE?;XIN?;YZE?;YMU?;YOFF?;" with
  | None => (Raises VisaIOError, s, [Query "WFMPRE:XZE?;XIN?;YZE?;YMU?;YOFF?;"])
  | Some r =>
      match ascii_values r with
      | Raises e => (Raises e, s, [Query "WFMPRE:XZE?;XIN?;YZE?;YMU?;YOFF?;"])
      | Returns vs =>
          if (length vs =? 5)%nat then
            prepend (Query "WFMPRE:XZE?;XIN?;YZE?;YMU?;YOFF?;")
              (Osci.get_config_measure T find_1st_number s)
          else
            (Raises (ValueError (if (length vs <? 5)%nat
                                 then "not enough values to unpack"
                                 else "too many values to unpack")),
             s, [Query "WFMPRE:XZE?;XIN?;YZE?;YMU?;YOFF?;"])
      end
  end.
Proof.
  unfold get_config_screen, Osci.get_config_measure, Osci.osci_query, prepend,
    mbind, M_bind, bind, lift_outcome.
  destruct (dev_query T (Osci.osci T s) "WFMPRE:XZE?;XIN?;YZE?;YMU?;YOFF?;") as [r|];
    [|reflexivity].
  destruct (ascii_values r) as [vs|e]; [|reflexivity].
  destruct vs as [|? [|? [|? [|? [|? [|? ?]]]]]]; try reflexivity.
  unfold unpack5, mret, M_ret, ret, raise. cbn [length Nat.eqb]. cbv beta iota.
  destruct (dev_query T (Osci.osci T s) "MEASU:IMM:SOU?") as [r1|]; [|reflexivity].
  destruct (find_1st_number r1) as [n|e]; [|reflexivity].
  cbv beta iota.
  destruct (dev_query T (Osci.osci T s) "MEASU:IMM:TYP?") as [r2|]; reflexivity.
Qed.

(** A method keeps the cache when, however it ends, [config_measure] is as
    it was. *)
Definition keeps_cache {A : Type} (m : Mo A) : Prop :=
  forall s r s' t, m s = (r, s', t) ->
    Osci.config_measure T s' = Osci.config_measure T s.

Lemma keeps_cache_bind {A B} (m : Mo A) (f : A -> Mo B) :
  keeps_cache m -> (forall a, keeps_cache (f a)) -> keeps_cache (bind m f).
Proof.
  intros Hm Hf s r s' t H.
  apply bind_inv in H as [(e & H & ->) | (a & s1 & t1 & t2 & H & H2 & ->)].
  - apply Hm in H. exact H.
  - apply Hm in H. apply Hf in H2. congruence.
Qed.

Lemma read_only_keeps_cache {A} (m : Mo A) : read_only m -> keeps_cache m.
Proof. intros Hm s r s' t H. apply Hm in H as [-> _]. reflexivity. Qed.

Lemma osci_write_keeps_cache cmd : keeps_cache (Osci.osci_write T cmd).
Proof.
  intros s r s' t. unfold Osci.osci_write.
  destruct (dev_write T (Osci.osci T s) cmd); intros [= <- <- <-]; reflexivity.
Qed.

Lemma reconfigure_keeps_cache channel aux :
  keeps_cache (Osci.reconfigure T channel aux).
Proof.
  unfold Osci.reconfigure, Osci.config_item, when, mbind, M_bind, mret, M_ret.
  repeat first
    [ apply keeps_cache_bind
    | apply osci_write_keeps_cache
    | apply read_only_keeps_cache;
      first [ apply read_only_gets | apply read_only_lift_opt | apply read_only_print
            | apply read_only_ret ]
    | match goal with |- keeps_cache (if ?b then _ else _) => destruct b end
    | intro ].
Qed.

(** A call of [re_config_measure] that raises has not touched the cache,
    whatever it has sent before. *)
Lemma re_config_measure_raises mtype channel (s : state) e s' t :
  Osci.re_config_measure T find_1st_number mtype channel s = (Raises e, s', t) ->
  Osci.config_measure T s' = Osci.config_measure T s.
Proof.
  unfold Osci.re_config_measure, mbind, M_bind. intros H.
  apply bind_inv in H as [(e0 & H & _) | (ch & s1 & t1 & t2 & H1 & H & ->)].
  { rewrite Osci.measure_coerce_channel_eq in H. discriminate. }
  rewrite Osci.measure_coerce_channel_eq in H1. injection H1 as <- <- <-.
  apply bind_inv in H as [(e0 & H & _) | (aux & s1 & t1 & t3 & H1 & H & ->)].
  { apply Osci.recognize_silent in H as [-> _]. reflexivity. }
  apply Osci.recognize_silent in H1 as [-> _].
  apply bind_inv in H as [(e0 & H & _) | ([] & s2 & t1' & t4 & H1 & H & ->)].
  { apply reconfigure_keeps_cache in H. exact H. }
  apply reconfigure_keeps_cache in H1.
  apply bind_inv in H as [(e0 & H & _) | (c & s3 & t1'' & t5 & _ & H & _)].
  { apply get_config_measure_read_only in H as [-> _]. exact H1. }
  discriminate H.
Qed.

(** Whatever the outcome of [re_config_measure], the commands it has sent
    are the first ones of those [needed], all of them when it returns. *)
Lemma re_config_measure_writes mtype channel (s : state) r s' t aux tw src typ :
  Osci.re_config_measure T find_1st_number mtype channel s = (r, s', t) ->
  Osci.recognize T mtype s = (Returns aux, s, tw) ->
  Osci.config_measure T s !! "Source" = Some src ->
  Osci.config_measure T s !! "Type" = Some typ ->
  exists more,
    Osci.needed src typ (Osci.effective channel) aux = writes t ++ more /\
    (r = Returns tt -> more = []).
Proof.
  intros Hrun Hrec Hsrc Htyp. revert Hrun.
  unfold Osci.re_config_measure, mbind, M_bind, bind.
  rewrite Osci.measure_coerce_channel_eq, Hrec.
  rewrite (Osci.measure_reconfigure_eq T _ _ _ _ _ Hsrc Htyp).
  unfold Osci.needed. cbv zeta.
  destruct (Osci.measure_diagnostic_silent channel) as [Hdw _].
  destruct (Osci.recognize_silent T _ _ _ _ _ Hrec) as (_ & Hrw & _).
  assert (Hget : forall s2 r3 s3 t3,
            Osci.get_config_measure T find_1st_number s2 = (r3, s3, t3) ->
            writes t3 = []).
  { intros s2 r3 s3 t3 H. apply get_config_measure_read_only in H as [_ H]. exact H. }
  destruct (py_ne src (VInt (Osci.effective channel)));
    [destruct (dev_write T (Osci.osci T s) (Osci.SOU (Osci.effective channel)))|];
    (destruct (py_ne typ (VStr aux));
     [match goal with
      | |- context [dev_write T ?g (Osci.TYP aux)] =>
          destruct (dev_write T g (Osci.TYP aux))
      | _ => idtac
      end|]);
    cbv beta iota;
    try match goal with
    | |- context [Osci.get_config_measure T find_1st_number ?s2] =>
        let H := fresh "H" in
        destruct (Osci.get_config_measure T find_1st_number s2) as [[[c|e] s3] t3] eqn:H;
        apply Hget in H
    end;
    unfold modify; intros [= <- <- <-];
    repeat rewrite ?writes_app, ?writes_cons, ?Hdw, ?Hrw;
    try match goal with H : writes _ = [] |- _ => rewrite ?H end;
    change (writes []) with (@nil string); cbn [app];
    eexists; (split; [reflexivity|]);
    intros Hr; first [ discriminate Hr | reflexivity ].
Qed.

Lemma when_print_inv (b : bool) line (s : state) u s' t :
  when b (print line) s = (Returns u, s', t) ->
  s' = s /\ t = if b then [Print line] else [].
Proof. destruct b; intros [= <- <-]; auto. Qed.

(** A call of [measure] that returns. *)
Lemma measure_inv mtype channel print_result (s : state) v s' t :
  measure mtype channel print_result s = (Returns v, s', t) ->
  exists t1 ans units,
    Osci.re_config_measure T find_1st_number mtype channel s = (Returns tt, s', t1) /\
    dev_query T (Osci.osci T s') "MEASU:IMM:VAL?" = Some ans /\
    py_float ans = Some v /\
    dev_query T (Osci.osci T s') "MEASU:IMM:UNI?" = Some units /\
    t = t1 ++ [Query "MEASU:IMM:VAL?"; Query "MEASU:IMM:UNI?"] ++
        (if print_result then [Print (str_float v +:+ " " +:+ units)] else []).
Proof.
  unfold measure, mbind, M_bind. intros H.
  do 5 invert_bind H. injection H as <- <- <-.
  repeat match goal with
  | H : Osci.osci_query _ _ _ = _ |- _ => apply osci_query_inv in H as (? & -> & ->)
  | H : lift_opt _ _ _ = _ |- _ => apply lift_opt_inv in H as (? & -> & ->)
  | H : when _ _ _ = _ |- _ => apply when_print_inv in H as (-> & ->)
  | u : unit |- _ => destruct u
  end.
  eexists _, _, _. do 4 (split; [eassumption|]).
  cbn [app]. rewrite app_nil_r. reflexivity.
Qed.

Lemma osci_write_inv cmd (s : state) u s' t :
  Osci.osci_write T cmd s = (Returns u, s', t) ->
  exists d, dev_write T (Osci.osci T s) cmd = Some d /\
            s' = Osci.set_osci T d s /\ t = [Write cmd].
Proof.
  unfold Osci.osci_write. destruct (dev_write T (Osci.osci T s) cmd) as [d|];
    intros [=]; subst; eauto.
Qed.

(** A call of [get_config_screen] that returns. *)
Lemma get_config_screen_inv (s : state) c s' t :
  get_config_screen s = (Returns c, s', t) ->
  s' = s /\
  Osci.get_config_measure T find_1st_number s
    = (Returns c, s, [Query "MEASU:IMM:SOU?"; Query "MEASU:IMM:TYP?"]) /\
  t = [Query "WFMPRE:XZE?;XIN?;YZE?;YMU?;YOFF?;";
       Query "MEASU:IMM:SOU?"; Query "MEASU:IMM:TYP?"] /\
  exists r vs,
    dev_query T (Osci.osci T s) "WFMPRE:XZE?;XIN?;YZE?;YMU?;YOFF?;" = Some r /\
    ascii_values r = Returns vs /\ length vs = 5%nat.
Proof.
  rewrite get_config_screen_eq.
  destruct (dev_query T (Osci.osci T s) "WFMPRE:XZE?;XIN?;YZE?;YMU?;YOFF?;") as [r|];
    [|discriminate].
  destruct (ascii_values r) as [vs|e] eqn:Hvs; [|discriminate].
  destruct (length vs =? 5)%nat eqn:Hlen; [|discriminate].
  destruct (Osci.get_config_measure T find_1st_number s) as [[r1 s1] t1] eqn:Hget.
  unfold prepend. intros [= -> -> <-].
  destruct (Osci.get_config_measure_returns T find_1st_number _ _ _ _ Hget)
    as (_ & -> & ->).
  split; [reflexivity|]. split; [reflexivity|]. split; [reflexivity|].
  exists r, vs. split; [reflexivity|]. split; [exact Hvs|].
  apply Nat.eqb_eq, Hlen.
Qed.

(** [__init__] when it returns: the two commands of the general
    configuration are what it has sent, and both caches hold what the
    device answers after them. *)
Lemma osci_init_inv (s0 : state) screen s t :
  init s0 = (Returns screen, s, t) ->
  mirrors s /\ screen = Osci.config_measure T s /\
  writes t = ["DAT:ENC RPB"; "DAT:WID 1"] /\
  queries t = ["*IDN?"; "MEASU:IMM:SOU?"; "MEASU:IMM:TYP?";
               "WFMPRE:XZE?;XIN?;YZE?;YMU?;YOFF?;"; "MEASU:IMM:SOU?"; "MEASU:IMM:TYP?"].
Proof.
  unfold init, mbind, M_bind. intros H. do 6 invert_bind H.
  repeat match goal with
  | H : Osci.osci_query _ _ _ = _ |- _ => apply osci_query_inv in H as (? & -> & ->)
  | H : Osci.osci_write _ _ _ = _ |- _ => apply osci_write_inv in H as (? & ? & -> & ->)
  | H : print _ _ = _ |- _ => injection H as <- <- <-
  | H : modify _ _ = _ |- _ => injection H as <- <- <-
  | H : Osci.get_config_measure _ _ _ = (Returns _, _, _) |- _ =>
      apply Osci.get_config_measure_returns in H as (? & -> & ->)
  end.
  apply get_config_screen_inv in H as (-> & Hget & -> & _).
  apply Osci.get_config_measure_returns in Hget as (Hread & _ & _).
  simpl in Hread, H1. unfold mirrors. simpl.
  split; [congruence|]. split; [congruence|]. split; reflexivity.
Qed.

(** A call of [measure] that raises has left the cache as it was, or has
    reconfigured and holds what the device answers. *)
Lemma measure_raises mtype channel print_result (s : state) e s' t :
  measure mtype channel print_result s = (Raises e, s', t) ->
  Osci.config_measure T s' = Osci.config_measure T s \/ mirrors s'.
Proof.
  unfold measure, mbind, M_bind. intros H.
  apply bind_inv in H as [(e0 & H & _) | ([] & s1 & t1 & t2 & H1 & H & ->)].
  { left. apply (re_config_measure_raises _ _ _ _ _ _ H). }
  right.
  destruct (Osci.re_config_measure_returns T find_1st_number _ _ _ _ _ H1)
    as (_ & _ & _ & _ & _ & _ & _ & _ & _ & Hread & _).
  assert (Hro : read_only
            (bind (Osci.osci_query T "MEASU:IMM:VAL?") (fun r =>
             bind (lift_opt (ValueError "could not convert string to float")
                     (py_float r)) (fun result =>
             bind (Osci.osci_query T "MEASU:IMM:UNI?") (fun units =>
             bind (when print_result (print (str_float result +:+ " " +:+ units)))
                  (fun _ => ret result)))))).
  { repeat first [ apply read_only_bind | apply osci_query_read_only
                 | apply read_only_lift_opt | apply read_only_ret
                 | apply read_only_print
                 | match goal with |- read_only (when ?b _) => destruct b end
                 | intro ]. }
  apply Hro in H as [-> _]. exact Hread.
Qed.

End OsciMethods.

End OsciMethods.

(** ** A second bench *)

Module Lab.

(** A one-channel generator that names itself and answers every query. *)
Definition T1 : transport :=
  Bench.recorder [] (("*IDN?", "TEKTRONIX,AFG3021B") :: Bench.answers).

(** The same generator when it does not answer the duty-cycle query. *)
Definition T2 : transport :=
  Bench.recorder []
    [ ("*IDN?", "TEKTRONIX,AFG3021B");
      ("OUTP1:STAT?", "0"); ("SOUR1:FUNC:SHAP?", "RAMP"); ("SOUR1:FREQ?", "1000");
      ("SOUR1:VOLT:LEV:IMM:AMPL?", "1"); ("SOUR1:VOLT:LEV:IMM:OFFS?", "0");
      ("SOUR1:PHAS?", "0"); ("SOUR1:FUNC:RAMP:SYMM?", "20") ].

(** The instance [__init__] starts from: the resource and nothing else. *)
Definition unplugged (T : transport) (d : dev T) : Gen.state T :=
  {| Gen.nchannels := 0; Gen.config_output := ∅; Gen.gen := d |}.

(** [T2] with one channel declared and no cache yet. *)
Definition gen2 : Gen.state T2 :=
  {| Gen.nchannels := 1; Gen.config_output := ∅; Gen.gen := ([] : dev T2) |}.

(** The state of its channel, as [T2] answers. *)
Definition ramp_state : gmap string value :=
  <["Symmetry" := VNum 20]> (<["Duty Cycle" := VNum 50]>
  (<["Phase" := VNum 0]> (<["Offset" := VNum 0]>
  (<["Amplitude" := VNum 1]> (<["Frequency" := VNum 1000]>
  (<["Waveform" := VStr "RAMP"]> (<["Status" := VBool false]> ∅))))))).

(** An oscilloscope that names itself and answers every query. *)
Definition scope : transport :=
  Bench.recorder []
    [ ("*IDN?", "TEKTRONIX,TDS 1002B"); ("MEASU:IMM:SOU?", "CH1");
      ("MEASU:IMM:TYP?", "MINI"); ("MEASU:IMM:VAL?", "5"); ("MEASU:IMM:UNI?", "V");
      ("WFMPRE:XZE?;XIN?;YZE?;YMU?;YOFF?;", "0;1;0;1;0") ].

(** Its instance, with a cache that says source 2 and type ['FREQ']. *)
Definition scope_osci : Osci.state scope :=
  {| Osci.config_measure := <["Source" := VNum 2]> (<["Type" := VStr "FREQ"]> ∅);
     Osci.osci := ([] : dev scope) |}.

(** An oscilloscope that takes commands and answers nothing. *)
Definition mute : transport := Bench.recorder [] [].

Definition mute_osci : Osci.state mute :=
  {| Osci.config_measure := <["Source" := VNum 1]> (<["Type" := VStr "FREQ"]> ∅);
     Osci.osci := ([] : dev mute) |}.

(** The instance [Osci.__init__] starts from. *)
Definition unplugged_osci (T : transport) (d : dev T) : Osci.state T :=
  {| Osci.config_measure := ∅; Osci.osci := d |}.

Definition float_of (s : string) : option Q :=
  match Bench.first_number s with
  | Returns q => Some q
  | Raises _ => None
  end.

(** The pieces of a string between its semicolons. *)
Fixpoint pieces (s piece : string) : list string :=
  match s with
  | EmptyString => [piece]
  | String c s' =>
      if Ascii.eqb c ";" then piece :: pieces s' EmptyString
      else pieces s' (piece +:+ String c EmptyString)
  end.

Definition numbers (s : string) : outcome (list Q) :=
  fold_right (fun p acc =>
                match Bench.first_number p, acc with
                | Returns q, Returns l => Returns (q :: l)
                | Raises e, _ => Raises e
                | _, Raises e => Raises e
                end) (Returns []) (pieces s EmptyString).

(** A generator with two channels that answers every query. *)
Definition T3 : transport :=
  Bench.recorder []
    [ ("*IDN?", "TEKTRONIX,AFG3022B");
      ("OUTP1:STAT?", "0"); ("SOUR1:FUNC:SHAP?", "PULS"); ("SOUR1:FREQ?", "1000");
      ("SOUR1:VOLT:LEV:IMM:AMPL?", "1"); ("SOUR1:VOLT:LEV:IMM:OFFS?", "0");
      ("SOUR1:PHAS?", "0"); ("SOUR1:PULS:DCYC?", "30");
      ("SOUR1:FUNC:RAMP:SYMM?", "50");
      ("OUTP2:STAT?", "1"); ("SOUR2:FUNC:SHAP?", "PULS"); ("SOUR2:FREQ?", "2000");
      ("SOUR2:VOLT:LEV:IMM:AMPL?", "1"); ("SOUR2:VOLT:LEV:IMM:OFFS?", "0");
      ("SOUR2:PHAS?", "0"); ("SOUR2:PULS:DCYC?", "70");
      ("SOUR2:FUNC:RAMP:SYMM?", "50") ].

Definition gen3 : Gen.state T3 :=
  {| Gen.nchannels := 2; Gen.config_output := ∅; Gen.gen := ([] : dev T3) |}.

(** A square wave at 50 Hz. *)
Definition square_50 : GenMethods.kwargs :=
  {| GenMethods.kw_waveform := Some (Some "squ");
     GenMethods.kw_frequency := Some (Some (Finite 50));
     GenMethods.kw_amplitude := None; GenMethods.kw_offset := None;
     GenMethods.kw_phase := None; GenMethods.kw_duty_cycle := None;
     GenMethods.kw_symmetry := None |}.

(** A frequency and a duty cycle, and nothing else. *)
Definition duty_cycle_75 : GenMethods.kwargs :=
  {| GenMethods.kw_waveform := None; GenMethods.kw_frequency := Some (Some (Finite 50));
     GenMethods.kw_amplitude := None; GenMethods.kw_offset := None;
     GenMethods.kw_phase := None; GenMethods.kw_duty_cycle := Some (Some (Finite 75));
     GenMethods.kw_symmetry := None |}.

(** A ramp of amplitude 2 that only falls. *)
Definition falling_ramp : GenMethods.kwargs :=
  {| GenMethods.kw_waveform := Some (Some "ramp"); GenMethods.kw_frequency := None;
     GenMethods.kw_amplitude := Some (Some (Finite 2)); GenMethods.kw_offset := None;
     GenMethods.kw_phase := None; GenMethods.kw_duty_cycle := None;
     GenMethods.kw_symmetry := Some (Some (Finite 0)) |}.




(** The generator of the first bench with output 1 off. *)
Definition gen_off : Gen.state Bench.T0 :=
  Gen.store Bench.T0 1 (<["Status" := VBool false]> Bench.channel0) Bench.gen0.

End Lab.

(** ** The keyword recognizers *)

(** C1, as stated, for the waveform table: when two or more keys match,
    the token of the last one is the result. *)
Definition waveform_last_match_wins : Prop :=
  forall (x : string) pre k tok (s : Gen.state Bench.T0),
    is_in "c" (lower x) = false ->
    matching (lower x) Gen.dic = pre ++ [(k, tok)] ->
    pre <> [] ->
    Gen.recognize Bench.T0 1 (Some x) s = (Returns (VStr tok), s, []).

(** C1 fails on ['sine ramp']: both ['sin'] and ['ram'] occur in it, ['ram']
    is declared later, and the waveform recognized is ['SIN']. *)
Lemma waveform_last_match_counterexample :
  matching (lower "sine ramp") Gen.dic = [("sin", "SIN"); ("ram", "RAMP")] /\
  Gen.recognize Bench.T0 1 (Some "sine ramp") Bench.gen0
    = (Returns (VStr "SIN"), Bench.gen0, []) /\
  ~ waveform_last_match_wins.
Proof.
  split; [reflexivity|]. split; [reflexivity|].
  intros H.
  specialize (H "sine ramp" [("sin", "SIN")] "ram" "RAMP" Bench.gen0 eq_refl eq_refl).
  discriminate H. discriminate.
Qed.

(** C1 (amended): when the input has no ['c'] and matches keys of the table,
    the measurement type is the token of the last matching key, in
    declaration order, and the waveform is the token of the first. *)
Theorem keyword_precedence :
  (forall T (s : Osci.state T) mtype pre k tok,
     is_in "c" (lower mtype) = false ->
     matching (lower mtype) Osci.dic = pre ++ [(k, tok)] ->
     Osci.recognize T mtype s = (Returns tok, s, [])) /\
  (forall T (s : Gen.state T) channel x k tok rest,
     is_in "c" (lower x) = false ->
     matching (lower x) Gen.dic = (k, tok) :: rest ->
     Gen.recognize T channel (Some x) s = (Returns (VStr tok), s, [])).
Proof.
  split.
  - intros T s mtype pre k tok Hc Hm. exact (Osci.recognize_last_match T _ _ _ _ s Hc Hm).
  - intros T s channel x k tok rest Hc Hm.
    rewrite Gen.recognize_Some, (Gen.normalize_first_match _ _ _ _ Hc Hm). reflexivity.
Qed.

Lemma keyword_precedence_witness :
  Osci.recognize Bench.T0 "Min Max" Bench.osci0 = (Returns "MAXI", Bench.osci0, []) /\
  Gen.recognize Bench.T0 1 (Some "sine ramp") Bench.gen0
    = (Returns (VStr "SIN"), Bench.gen0, []).
Proof.
  split.
  - apply (proj1 keyword_precedence Bench.T0 Bench.osci0 "Min Max"
             [("min", "MINI")] "max" "MAXI"); reflexivity.
  - apply (proj2 keyword_precedence Bench.T0 Bench.gen0 1 "sine ramp"
             "sin" "SIN" [("ram", "RAMP")]); reflexivity.
Defined.

(** C2: an input without ['c'] that matches no key.  The waveform
    recognizer returns ['SIN'] and prints its warning; [re_config_measure]
    raises [UnboundLocalError] on its local [aux] before it reaches the
    default ['FREQ'], having sent nothing. *)
Theorem unknown_keyword :
  (forall T (s : Gen.state T) channel x,
     is_in "c" (lower x) = false ->
     matching (lower x) Gen.dic = [] ->
     Gen.recognize T channel (Some x) s
     = (Returns (VStr "SIN"), s, [Print "Unrecognized Waveform ('SIN' as default)."])) /\
  (forall T find_1st_number (s : Osci.state T) mtype channel,
     is_in "c" (lower mtype) = false ->
     matching (lower mtype) Osci.dic = [] ->
     Osci.re_config_measure T find_1st_number mtype channel s
     = (Raises (UnboundLocalError "aux"), s, Osci.diagnostic channel)).
Proof.
  split.
  - intros T s channel x Hc Hm.
    rewrite Gen.recognize_Some, (Gen.normalize_default _ Hc Hm). reflexivity.
  - intros T f s mtype channel Hc Hm. apply Osci.re_config_measure_no_match; assumption.
Qed.

Lemma unknown_keyword_witness :
  Gen.recognize Bench.T0 1 (Some "zzz") Bench.gen0
    = (Returns (VStr "SIN"), Bench.gen0,
       [Print "Unrecognized Waveform ('SIN' as default)."]) /\
  Osci.re_config_measure Bench.T0 Bench.first_number "zzz" 1 Bench.osci0
    = (Raises (UnboundLocalError "aux"), Bench.osci0, []).
Proof.
  split.
  - apply (proj1 unknown_keyword Bench.T0 Bench.gen0 1 "zzz"); reflexivity.
  - apply (proj2 unknown_keyword Bench.T0 Bench.first_number Bench.osci0 "zzz" 1);
      reflexivity.
Defined.

(** ** Validity gating *)

Lemma bench_reliable : Gen.reliable Bench.T0.
Proof. intros g cmd. discriminate. Qed.

Lemma channel0_fields k : In k Gen.basic_fields -> is_Some (Bench.channel0 !! k).
Proof.
  intros [<-|[<-|[<-|[<-|[<-|[]]]]]]; vm_compute; eauto.
Qed.






(** ** The cache after a write *)

(** C4, as stated, for the oscilloscope: a call asks the device nothing,
    and the type it has written is the type in the cache. *)
Definition measure_cache_write_through : Prop :=
  forall T find_1st_number mtype channel (s s' : Osci.state T) t aux,
    Osci.re_config_measure T find_1st_number mtype channel s = (Returns tt, s', t) ->
    queries t = [] /\
    (In (Write (Osci.TYP aux)) t ->
     Osci.config_measure T s' !! "Type" = Some (VStr aux)).

(** C4 fails on the oscilloscope: asked for ['min'] on a device that names
    the type ['MINIMUM'], the call writes ['MINI'], queries the device
    twice, and caches ['MINIMUM']. *)
Lemma measure_requery_counterexample :
  exists s' t,
    Osci.re_config_measure Bench.T0 Bench.first_number "min" 1 Bench.osci0
      = (Returns tt, s', t) /\
    writes t = ["MEASU:IMM:TYP MINI"] /\
    queries t = ["MEASU:IMM:SOU?"; "MEASU:IMM:TYP?"] /\
    Osci.config_measure Bench.T0 s' !! "Type" = Some (VStr "MINIMUM") /\
    ~ measure_cache_write_through.
Proof.
  eexists _, _. split; [reflexivity|].
  split; [reflexivity|]. split; [reflexivity|]. split; [reflexivity|].
  intros H.
  destruct (H Bench.T0 Bench.first_number "min" 1 Bench.osci0 _ _ "MINI" eq_refl)
    as [Hq _].
  discriminate Hq.
Qed.

(** C4 (amended): [Gen.re_config_output] asks the device nothing, and each
    entry whose command the device took holds the value sent, from the
    block that sent it on.  [Osci.re_config_measure] leaves its cache
    alone while it writes, then queries the device for the source and the
    type, and the answers are its new cache. *)
Theorem write_through :
  (forall T str_num fmt_1f channel waveform frequency amplitude offset phase
          duty_cycle symmetry print_changes (s : Gen.state T) r s' t,
     Gen.re_config_output T str_num fmt_1f channel waveform frequency amplitude
       offset phase duty_cycle symmetry print_changes s = (r, s', t) ->
     let ch := Gen.effective (Gen.nchannels T s) channel in
     queries t = [] /\
     forall d w,
       Gen.config_output T s !! inl ch = Some (inl d) ->
       Gen.target d waveform = Some w ->
       exists done rest refused,
         Gen.steps str_num fmt_1f ch w frequency amplitude offset phase
           duty_cycle symmetry = done ++ rest /\
         writes t = Gen.commands (Gen.applied d done) ++ refused /\
         Gen.stop T w d s' r rest refused /\
         let d' := Gen.commit_all (Gen.applied d done) d in
         Gen.config_output T s' = <[inl ch := inl d']> (Gen.config_output T s) /\
         forall x v c m, In x (Gen.applied d done) ->
           Gen.request x = Some (v, c, m) -> d' !! Gen.field x = Some v) /\
  (forall T channel F v cmd changed print_changes (s s1 : Gen.state T) t1,
     Gen.reconfigure T channel F v cmd changed print_changes s = (Returns tt, s1, t1) ->
     In (Write cmd) t1 ->
     Gen.config_item T channel F s1 = (Returns v, s1, []) /\ queries t1 = []) /\
  (forall T channel aux (s s' : Osci.state T) t,
     Osci.reconfigure T channel aux s = (Returns tt, s', t) ->
     Osci.config_measure T s' = Osci.config_measure T s /\ queries t = []) /\
  (forall T find_1st_number mtype channel (s s' : Osci.state T) t,
     Osci.re_config_measure T find_1st_number mtype channel s = (Returns tt, s', t) ->
     queries t = ["MEASU:IMM:SOU?"; "MEASU:IMM:TYP?"] /\
     Osci.readback T find_1st_number (Osci.osci T s') = Some (Osci.config_measure T s')).
Proof.
  split; [|split; [|split]].
  - intros. eapply Gen.re_config_output_write_through; eassumption.
  - intros. eapply Gen.reconfigure_write_through; eassumption.
  - intros T channel aux s s' t H.
    destruct (Osci.reconfigure_returns _ _ _ _ _ _ H) as (? & ? & _ & _ & Hc & _ & Hq & _).
    auto.
  - intros T f mtype channel s s' t H.
    destruct (Osci.re_config_measure_returns _ _ _ _ _ _ _ H)
      as (? & ? & ? & ? & _ & _ & _ & _ & Hq & Hr & _).
    auto.
Qed.

Lemma write_through_witness :
  (exists s' t,
     Gen.re_config_output Bench.T0 Bench.show Bench.show 1 (Some "squ") (Some (Finite 2000))
       None None None (Some (Finite 75)) None false Bench.gen0 = (Returns tt, s', t) /\
     queries t = [] /\
     exists d', Gen.config_output Bench.T0 s' !! inl 1 = Some (inl d') /\
       d' !! "Waveform" = Some (VStr "PULS") /\
       d' !! "Frequency" = Some (VNum 2000) /\
       d' !! "Duty Cycle" = Some (VNum 75)) /\
  (exists s' t,
     Osci.re_config_measure Bench.T0 Bench.first_number "min" 1 Bench.osci0
       = (Returns tt, s', t) /\
     queries t = ["MEASU:IMM:SOU?"; "MEASU:IMM:TYP?"] /\
     Osci.readback Bench.T0 Bench.first_number (Osci.osci Bench.T0 s')
       = Some (Osci.config_measure Bench.T0 s')).
Proof.
  destruct write_through as (Hgen & _ & _ & Hosci).
  split.
  - eexists _, _. split; [reflexivity|].
    match goal with
    | |- queries ?t = [] /\ _ =>
        destruct (Hgen Bench.T0 Bench.show Bench.show 1 (Some "squ") (Some (Finite 2000))
                    None None None (Some (Finite 75)) None false Bench.gen0 _ _ t eq_refl)
          as [Hq _]
    end.
    split; [exact Hq|].
    eexists. split; [reflexivity|]. repeat split; reflexivity.
  - eexists _, _. split; [reflexivity|].
    match goal with
    | |- queries ?t = _ /\ Osci.readback _ _ (Osci.osci _ ?s') = _ =>
        exact (Hosci Bench.T0 Bench.first_number "min" 1 Bench.osci0 s' t eq_refl)
    end.
Defined.

(** ** Minimal writes *)

(** C5, as stated, for the generator: the commands a call sends are those
    of the fields it is given that differ from the cache, an entry the
    cache does not hold counting as different. *)
Definition output_minimal : Prop :=
  forall T str_num fmt_1f channel waveform frequency amplitude offset phase
         duty_cycle symmetry print_changes (s : Gen.state T) d w r s' t,
    let ch := Gen.effective (Gen.nchannels T s) channel in
    Gen.config_output T s !! inl ch = Some (inl d) ->
    Gen.target d waveform = Some w ->
    Gen.re_config_output T str_num fmt_1f channel waveform frequency amplitude
      offset phase duty_cycle symmetry print_changes s = (r, s', t) ->
    writes t =
      Gen.commands
        (List.filter (Gen.differs d)
           (Gen.steps str_num fmt_1f ch w frequency amplitude offset phase
              duty_cycle symmetry)).

(** C5, as stated, for the oscilloscope: a call that sends no command
    leaves the cache as it was. *)
Definition measure_untouched : Prop :=
  forall T find_1st_number mtype channel (s : Osci.state T) r s' t,
    Osci.re_config_measure T find_1st_number mtype channel s = (r, s', t) ->
    writes t = [] ->
    Osci.config_measure T s' = Osci.config_measure T s.

(** C5 fails on both instruments.  Given a frequency of 2000 and a duty
    cycle of 75 on a channel cached at 1000 Hz, duty cycle 50 and ['SIN'],
    two fields differ and one command is sent: the guard of the duty cycle
    raises.  Asked for ['freq'] on source 1 with exactly that in the cache,
    on a device that answers ['MINIMUM'], the oscilloscope sends nothing
    and its cache says ['MINIMUM'] afterwards. *)
Lemma minimality_counterexample :
  (exists s' t,
     Gen.re_config_output Bench.T0 Bench.show Bench.show 1 None (Some (Finite 2000))
       None None None (Some (Finite 75)) None false Bench.gen0
     = (Raises (ValueError "Can only set duty cycle on 'PULS'"), s', t) /\
     writes t = ["SOUR1:FREQ 2000/1"] /\
     Gen.commands
       (List.filter (Gen.differs Bench.channel0)
          (Gen.steps Bench.show Bench.show 1 (VStr "SIN") (Some (Finite 2000))
             None None None (Some (Finite 75)) None))
     = ["SOUR1:FREQ 2000/1"; "SOUR1:PULS:DCYC 75/1"]) /\
  (exists s' t,
     Osci.re_config_measure Bench.T0 Bench.first_number "freq" 1 Bench.osci0
     = (Returns tt, s', t) /\
     writes t = [] /\
     Osci.config_measure Bench.T0 Bench.osci0 !! "Type" = Some (VStr "FREQ") /\
     Osci.config_measure Bench.T0 s' !! "Type" = Some (VStr "MINIMUM")) /\
  ~ output_minimal /\
  ~ measure_untouched.
Proof.
  split; [eexists _, _; repeat split; reflexivity|].
  split; [eexists _, _; repeat split; reflexivity|].
  split.
  - intros H.
    specialize (H Bench.T0 Bench.show Bench.show 1 None (Some (Finite 2000)) None
                  None None (Some (Finite 75)) None false Bench.gen0 Bench.channel0
                  (VStr "SIN") _ _ _ eq_refl eq_refl eq_refl).
    discriminate H.
  - intros H.
    specialize (H Bench.T0 Bench.first_number "freq" 1 Bench.osci0 _ _ _
                  eq_refl eq_refl).
    apply (f_equal (fun c : gmap string value => c !! "Type")) in H.
    discriminate H.
Qed.

(** C5 (amended).  For the generator, with [k] the fields given that
    differ from the cache: whatever the outcome, the commands sent are the
    first ones of the [k], in the order of the fields, one command a
    field; they are all the [k] when the call returns, and otherwise
    those of the fields before the one that stopped the call, and the
    command of that field if the device refused it.  The entry of every
    field that is equal to the cache or not given is as it was, and when
    the call returns the entries of the [k] hold the new values.  Without
    a state to compare with nothing is sent.  For the oscilloscope the same holds
    of the commands, with the source and the type for fields; its cache is
    not touched by a call that raises, and is replaced by what the device
    answers when the call returns, whatever [k] is. *)
Theorem minimality :
  (forall T str_num fmt_1f channel waveform frequency amplitude offset phase
          duty_cycle symmetry print_changes (s : Gen.state T) d w r s' t,
     let ch := Gen.effective (Gen.nchannels T s) channel in
     Gen.config_output T s !! inl ch = Some (inl d) ->
     Gen.target d waveform = Some w ->
     Gen.re_config_output T str_num fmt_1f channel waveform frequency amplitude
       offset phase duty_cycle symmetry print_changes s = (r, s', t) ->
     let l := Gen.steps str_num fmt_1f ch w frequency amplitude offset phase
                duty_cycle symmetry in
     let todo := List.filter (Gen.differs d) l in
     exists more d',
       Gen.commands todo = writes t ++ more /\
       (r = Returns tt -> more = []) /\
       (exists done rest refused,
          l = done ++ rest /\
          Gen.stop T w d s' r rest refused /\
          writes t = Gen.commands (List.filter (Gen.differs d) done) ++ refused) /\
       length (Gen.commands todo) = length todo /\
       List.NoDup (map Gen.field todo) /\
       queries t = [] /\
       Gen.config_output T s' = <[inl ch := inl d']> (Gen.config_output T s) /\
       (forall st, In st l -> Gen.differs d st = false ->
          d' !! Gen.field st = d !! Gen.field st) /\
       (r = Returns tt ->
        forall st v c m, In st todo -> Gen.request st = Some (v, c, m) ->
          d' !! Gen.field st = Some v)) /\
  (forall T str_num fmt_1f channel waveform frequency amplitude offset phase
          duty_cycle symmetry print_changes (s : Gen.state T) r s' t,
     let ch := Gen.effective (Gen.nchannels T s) channel in
     (forall d w, Gen.config_output T s !! inl ch = Some (inl d) ->
                  Gen.target d waveform <> Some w) ->
     Gen.re_config_output T str_num fmt_1f channel waveform frequency amplitude
       offset phase duty_cycle symmetry print_changes s = (r, s', t) ->
     s' = s /\ writes t = [] /\ exists e, r = Raises e) /\
  (forall T find_1st_number mtype channel (s : Osci.state T) r s' t aux tw src typ,
     Osci.re_config_measure T find_1st_number mtype channel s = (r, s', t) ->
     Osci.recognize T mtype s = (Returns aux, s, tw) ->
     Osci.config_measure T s !! "Source" = Some src ->
     Osci.config_measure T s !! "Type" = Some typ ->
     let todo :=
       (if py_ne src (VInt (Osci.effective channel))
        then [Osci.SOU (Osci.effective channel)] else []) ++
       (if py_ne typ (VStr aux) then [Osci.TYP aux] else []) in
     List.NoDup todo /\
     exists more, todo = writes t ++ more /\ (r = Returns tt -> more = [])) /\
  (forall T find_1st_number mtype channel (s : Osci.state T) r s' t,
     Osci.re_config_measure T find_1st_number mtype channel s = (r, s', t) ->
     match r with
     | Returns _ =>
         Osci.readback T find_1st_number (Osci.osci T s')
           = Some (Osci.config_measure T s')
     | Raises _ => Osci.config_measure T s' = Osci.config_measure T s
     end).
Proof.
  split; [|split; [|split]].
  - intros. eapply Gen.re_config_output_writes; eassumption.
  - intros T str_num fmt_1f channel waveform frequency amplitude offset phase
           duty_cycle symmetry pc s r s' t ch Hno Hrun.
    destruct (Gen.re_config_output_no_state T str_num fmt_1f _ _ _ _ _ _ _ _ _ _ _ _ _
                Hno Hrun) as (Hs & Hw & _ & e & He & _).
    eauto.
  - intros T f mtype channel s r s' t aux tw src typ Hrun Hrec Hsrc Htyp todo.
    split; [apply Osci.needed_NoDup|].
    exact (OsciMethods.re_config_measure_writes T f _ _ _ _ _ _ _ _ _ _
             Hrun Hrec Hsrc Htyp).
  - intros T f mtype channel s [[]|e] s' t Hrun.
    + destruct (Osci.re_config_measure_returns _ _ _ _ _ _ _ Hrun)
        as (? & ? & ? & ? & _ & _ & _ & _ & _ & Hr & _).
      exact Hr.
    + exact (OsciMethods.re_config_measure_raises T f _ _ _ _ _ _ Hrun).
Qed.

Lemma minimality_witness :
  (exists s' t,
     Gen.re_config_output Bench.T0 Bench.show Bench.show 1 (Some "squ") None None
       None None (Some (Finite 75)) None false Bench.gen0 = (Returns tt, s', t) /\
     writes t = ["SOUR1:FUNC:SHAP PULS"; "SOUR1:PULS:DCYC 75/1"] /\
     length (List.filter (Gen.differs Bench.channel0)
               (Gen.steps Bench.show Bench.show 1 (VStr "PULS") None None None None
                  (Some (Finite 75)) None)) = 2%nat) /\
  (exists s' t more,
     Gen.re_config_output Bench.T0 Bench.show Bench.show 1 None (Some (Finite 2000))
       None None None (Some (Finite 75)) None false Bench.gen0
     = (Raises (ValueError "Can only set duty cycle on 'PULS'"), s', t) /\
     ["SOUR1:FREQ 2000/1"; "SOUR1:PULS:DCYC 75/1"] = writes t ++ more) /\
  (exists s' t,
     Osci.re_config_measure Bench.T0 Bench.first_number "min" 2 Bench.osci0
       = (Returns tt, s', t) /\
     writes t = ["MEASU:IMM:SOU CH2"; "MEASU:IMM:TYP MINI"] /\
     List.NoDup (writes t)).
Proof.
  destruct minimality as (Hgen & _ & Hosci & _).
  split; [|split].
  - eexists _, _. split; [reflexivity|]. split; [reflexivity|].
    destruct (Hgen Bench.T0 Bench.show Bench.show 1 (Some "squ") None None None None
                (Some (Finite 75)) None false Bench.gen0 Bench.channel0 (VStr "PULS")
                _ _ _ eq_refl eq_refl eq_refl)
      as (more & d' & _ & _ & _ & Hlen & _).
    refine (eq_trans (eq_sym Hlen) _). reflexivity.
  - destruct (Gen.re_config_output Bench.T0 Bench.show Bench.show 1 None
                (Some (Finite 2000)) None None None (Some (Finite 75)) None false
                Bench.gen0) as [[r s'] t] eqn:Hrun.
    destruct (Hgen Bench.T0 Bench.show Bench.show 1 None (Some (Finite 2000)) None
                None None (Some (Finite 75)) None false Bench.gen0 Bench.channel0
                (VStr "SIN") r s' t eq_refl eq_refl Hrun)
      as (more & d' & Hpre & _).
    assert (Hr : r = Raises (ValueError "Can only set duty cycle on 'PULS'"))
      by (apply (f_equal (fun x => fst (fst x))) in Hrun; symmetry; exact Hrun).
    exists s', t, more. rewrite Hr. split; [reflexivity|exact Hpre].
  - destruct (Hosci Bench.T0 Bench.first_number "min" 2 Bench.osci0 _ _ _
                "MINI" [] (VNum 1) (VStr "FREQ") eq_refl eq_refl eq_refl eq_refl)
      as (Hnd & more & Hpre & Hall).
    eexists _, _. split; [reflexivity|]. split; [reflexivity|].
    exact Hnd.
Defined.

(** ** Idempotence *)

(** C6, as stated, for the oscilloscope: after a call that returned, the
    same call again writes nothing. *)
Definition measure_idempotent : Prop :=
  forall T find_1st_number mtype channel (s s1 s2 : Osci.state T) t1 r2 t2,
    Osci.re_config_measure T find_1st_number mtype channel s = (Returns tt, s1, t1) ->
    Osci.re_config_measure T find_1st_number mtype channel s1 = (r2, s2, t2) ->
    writes t2 = [].

(** C6, as stated, for the generator. *)
Definition output_idempotent : Prop :=
  forall T str_num fmt_1f channel waveform frequency amplitude offset phase
         duty_cycle symmetry print_changes (s s1 s2 : Gen.state T) t1 r2 t2,
    Gen.re_config_output T str_num fmt_1f channel waveform frequency amplitude
      offset phase duty_cycle symmetry print_changes s = (Returns tt, s1, t1) ->
    Gen.re_config_output T str_num fmt_1f channel waveform frequency amplitude
      offset phase duty_cycle symmetry print_changes s1 = (r2, s2, t2) ->
    writes t2 = [].

(** C6 fails on both instruments.  On an oscilloscope that names the type
    ['MINIMUM'], the cache read back after the first call never equals the
    token ['MINI'], and the second call writes the type again.  On the
    generator a frequency of nan differs from the nan the first call has
    cached, and the second call writes it again. *)
Lemma measure_rewrite_counterexample :
  (exists s1 t1 s2 t2,
     Osci.re_config_measure Bench.T0 Bench.first_number "min" 1 Bench.osci0
       = (Returns tt, s1, t1) /\
     Osci.config_measure Bench.T0 s1 !! "Type" = Some (VStr "MINIMUM") /\
     Osci.re_config_measure Bench.T0 Bench.first_number "min" 1 s1
       = (Returns tt, s2, t2) /\
     writes t2 = ["MEASU:IMM:TYP MINI"]) /\
  (exists s1 t1 s2 t2,
     Gen.re_config_output Bench.T0 Bench.show Bench.show 1 None (Some NaN) None None
       None None None false Bench.gen0 = (Returns tt, s1, t1) /\
     writes t1 = ["SOUR1:FREQ nan"] /\
     Gen.re_config_output Bench.T0 Bench.show Bench.show 1 None (Some NaN) None None
       None None None false s1 = (Returns tt, s2, t2) /\
     writes t2 = ["SOUR1:FREQ nan"]) /\
  ~ measure_idempotent /\
  ~ output_idempotent.
Proof.
  split; [eexists _, _, _, _; repeat split; reflexivity|].
  split; [eexists _, _, _, _; repeat split; reflexivity|].
  split.
  - intros H.
    specialize (H Bench.T0 Bench.first_number "min" 1 Bench.osci0 _ _ _ _ _
                  eq_refl eq_refl).
    discriminate H.
  - intros H.
    specialize (H Bench.T0 Bench.show Bench.show 1 None (Some NaN) None None None
                  None None false Bench.gen0 _ _ _ _ _ eq_refl eq_refl).
    discriminate H.
Qed.

(** C6 (amended): a call of [re_config_output] repeated with the same
    arguments, none of the numbers being nan (nor, when no waveform is
    given, the cached waveform), after a first call that did not fail at
    the transport, writes nothing, ends as the first did and leaves cache
    and device as they were.  For the oscilloscope, whose cache is what the
    device answers, this holds when the first call returned and the
    answers agree with the source and the type that were asked for. *)
Theorem idempotence :
  (forall T str_num fmt_1f channel waveform frequency amplitude offset phase
          duty_cycle symmetry print_changes (s : Gen.state T) r s' t,
     Gen.re_config_output T str_num fmt_1f channel waveform frequency amplitude
       offset phase duty_cycle symmetry print_changes s = (r, s', t) ->
     r <> Raises VisaIOError ->
     Forall Gen.not_nan [frequency; amplitude; offset; phase; duty_cycle; symmetry] ->
     (waveform = None ->
      Gen.waveform_not_nan T s (Gen.effective (Gen.nchannels T s) channel)) ->
     exists t',
       Gen.re_config_output T str_num fmt_1f channel waveform frequency amplitude
         offset phase duty_cycle symmetry print_changes s' = (r, s', t') /\
       writes t' = [] /\ queries t' = []) /\
  (forall T find_1st_number mtype channel (s s1 : Osci.state T) t1 aux tw,
     Osci.re_config_measure T find_1st_number mtype channel s = (Returns tt, s1, t1) ->
     Osci.recognize T mtype s = (Returns aux, s, tw) ->
     Osci.accurate T s1 (Osci.effective channel) aux ->
     exists t2,
       Osci.re_config_measure T find_1st_number mtype channel s1
         = (Returns tt, s1, t2) /\
       writes t2 = []).
Proof.
  split.
  - intros. eapply Gen.re_config_output_again; eassumption.
  - intros. eapply Osci.re_config_measure_again; eassumption.
Qed.

Lemma idempotence_witness :
  (exists s1 t1 t2,
     Gen.re_config_output Bench.T0 Bench.show Bench.show 1 (Some "squ") None None
       None None (Some (Finite 75)) None false Bench.gen0 = (Returns tt, s1, t1) /\
     Gen.re_config_output Bench.T0 Bench.show Bench.show 1 (Some "squ") None None
       None None (Some (Finite 75)) None false s1 = (Returns tt, s1, t2) /\
     writes t2 = []) /\
  (exists s1 t1 t2,
     Osci.re_config_measure Bench.echo Bench.first_number "min" 2 Bench.echo_osci
       = (Returns tt, s1, t1) /\
     Osci.re_config_measure Bench.echo Bench.first_number "min" 2 s1
       = (Returns tt, s1, t2) /\
     writes t2 = []).
Proof.
  destruct idempotence as (Hgen & Hosci).
  split.
  - destruct (Hgen Bench.T0 Bench.show Bench.show 1 (Some "squ") None None None None
                (Some (Finite 75)) None false Bench.gen0 _ _ _ eq_refl)
      as (t2 & H2 & Hw & _).
    + discriminate.
    + repeat constructor; discriminate.
    + discriminate.
    + eexists _, _, t2. split; [reflexivity|]. split; [exact H2|exact Hw].
  - destruct (Hosci Bench.echo Bench.first_number "min" 2 Bench.echo_osci _ _ "MINI" []
                eq_refl eq_refl)
      as (t2 & H2 & Hw).
    { exists (VNum 2), (VStr "MINI"). repeat split; reflexivity. }
    eexists _, _, t2. split; [reflexivity|]. split; [exact H2|exact Hw].
Defined.

(** ** A write that fails *)

(** C7: the fields before the [i]-th pass and the device takes their
    commands, the [i]-th field is to be written and the device refuses its
    command.  Then the call raises the transport's exception; that command
    is the last thing the call does, so no later field is attempted; the
    entries committed before hold their new values, and the entry of that
    field and of every later one is as it was.  Conversely, a call that
    ends in [VisaIOError] has stopped that way. *)
Theorem partial_application :
  (forall T str_num fmt_1f channel waveform frequency amplitude offset phase
          duty_cycle symmetry print_changes (s : Gen.state T) d w
          done st rest cmd g',
     let ch := Gen.effective (Gen.nchannels T s) channel in
     Gen.config_output T s !! inl ch = Some (inl d) ->
     Gen.target d waveform = Some w ->
     Gen.steps str_num fmt_1f ch w frequency amplitude offset phase
       duty_cycle symmetry = done ++ st :: rest ->
     Forall (Gen.passed w d) done ->
     Gen.feed T (Gen.gen T s) (Gen.commands (Gen.applied d done)) = Some g' ->
     Gen.blocked w st = None ->
     Gen.command st = Some cmd ->
     Gen.pending d st = true ->
     dev_write T g' cmd = None ->
     exists s' t0,
       Gen.re_config_output T str_num fmt_1f channel waveform frequency amplitude
         offset phase duty_cycle symmetry print_changes s
         = (Raises VisaIOError, s', t0 ++ [Write cmd]) /\
       writes t0 = Gen.commands (Gen.applied d done) /\
       queries t0 = [] /\
       Gen.nchannels T s' = Gen.nchannels T s /\
       Gen.gen T s' = g' /\
       let d' := Gen.commit_all (Gen.applied d done) d in
       Gen.config_output T s' = <[inl ch := inl d']> (Gen.config_output T s) /\
       (forall x v c m, In x (Gen.applied d done) ->
          Gen.request x = Some (v, c, m) -> d' !! Gen.field x = Some v) /\
       (forall x, In x (st :: rest) -> d' !! Gen.field x = d !! Gen.field x)) /\
  (forall T str_num fmt_1f channel waveform frequency amplitude offset phase
          duty_cycle symmetry print_changes (s s' : Gen.state T) t,
     Gen.re_config_output T str_num fmt_1f channel waveform frequency amplitude
       offset phase duty_cycle symmetry print_changes s = (Raises VisaIOError, s', t) ->
     let ch := Gen.effective (Gen.nchannels T s) channel in
     exists d w done st rest cmd t0,
       Gen.config_output T s !! inl ch = Some (inl d) /\
       Gen.target d waveform = Some w /\
       Gen.steps str_num fmt_1f ch w frequency amplitude offset phase
         duty_cycle symmetry = done ++ st :: rest /\
       Gen.command st = Some cmd /\ Gen.pending d st = true /\
       dev_write T (Gen.gen T s') cmd = None /\
       t = t0 ++ [Write cmd] /\
       writes t0 = Gen.commands (Gen.applied d done) /\
       let d' := Gen.commit_all (Gen.applied d done) d in
       Gen.config_output T s' = <[inl ch := inl d']> (Gen.config_output T s) /\
       (forall x v c m, In x (Gen.applied d done) ->
          Gen.request x = Some (v, c, m) -> d' !! Gen.field x = Some v) /\
       (forall x, In x (st :: rest) -> d' !! Gen.field x = d !! Gen.field x)).
Proof.
  split.
  - intros. eapply Gen.re_config_output_refused; eassumption.
  - intros. eapply Gen.re_config_output_transport_failure; eassumption.
Qed.

(** A frequency, an amplitude and an offset on a transport that refuses
    the command of the amplitude. *)
Lemma partial_application_witness :
  exists s' t,
    Gen.re_config_output Bench.faulty Bench.show Bench.show 1 None
      (Some (Finite 2000)) (Some (Finite 2)) (Some (Finite 1)) None None None false
      Bench.faulty_gen
    = (Raises VisaIOError, s', t) /\
    writes t = ["SOUR1:FREQ 2000/1"; "SOUR1:VOLT:LEV:IMM:AMPL 2/1"] /\
    Gen.gen Bench.faulty s' = ["SOUR1:FREQ 2000/1"] /\
    exists d', Gen.config_output Bench.faulty s' !! inl 1 = Some (inl d') /\
      d' !! "Frequency" = Some (VNum 2000) /\
      d' !! "Amplitude" = Some (VNum 1) /\
      d' !! "Offset" = Some (VNum 0).
Proof.
  set (l := Gen.steps Bench.show Bench.show 1 (VStr "SIN") (Some (Finite 2000))
              (Some (Finite 2)) (Some (Finite 1)) None None None).
  destruct (proj1 partial_application Bench.faulty Bench.show Bench.show 1 None
              (Some (Finite 2000)) (Some (Finite 2)) (Some (Finite 1)) None None None
              false Bench.faulty_gen Bench.channel0 (VStr "SIN")
              (firstn 2 l)
              {| Gen.field := "Amplitude"; Gen.required := None;
                 Gen.request :=
                   Some (Gen.numeric Bench.show 1 "Amplitude" ":VOLT:LEV:IMM:AMPL "
                           " V" (Finite 2)) |}
              (skipn 3 l) "SOUR1:VOLT:LEV:IMM:AMPL 2/1" ["SOUR1:FREQ 2000/1"]
              eq_refl eq_refl eq_refl)
    as (s' & t0 & Hrun & Hw & _ & _ & Hg & Hc & _ & _).
  - repeat (apply List.Forall_cons;
            [intros _; split; [reflexivity|eexists; reflexivity]|]).
    apply List.Forall_nil.
  - reflexivity.
  - reflexivity.
  - reflexivity.
  - reflexivity.
  - reflexivity.
  - exists s', (t0 ++ [Write "SOUR1:VOLT:LEV:IMM:AMPL 2/1"]).
    split; [exact Hrun|]. split; [rewrite writes_app, Hw; reflexivity|].
    split; [exact Hg|].
    eexists. split; [rewrite Hc; apply lookup_insert_eq|].
    repeat split; reflexivity.
Defined.

(** ** A channel out of range *)

(** C8: given a channel outside the range, both methods print their
    diagnostic, take channel 1 instead without raising, and then do what
    the call with channel 1 does. *)
Theorem channel_coercion :
  (forall T find_1st_number mtype channel (s : Osci.state T),
     Osci.in_range channel = false ->
     Osci.coerce_channel T channel s =
       (Returns 1, s, [Print "Unrecognized measure source ('CH1' as default)."]) /\
     Osci.re_config_measure T find_1st_number mtype channel s =
     prepend (Print "Unrecognized measure source ('CH1' as default).")
       (Osci.re_config_measure T find_1st_number mtype 1 s)) /\
  (forall T str_num fmt_1f channel waveform frequency amplitude offset phase
          duty_cycle symmetry print_changes (s : Gen.state T),
     Gen.in_range (Gen.nchannels T s) channel = false ->
     Gen.coerce_channel T channel s =
       (Returns 1, s, [Print "Unrecognized output channel ('CH1' as default)."]) /\
     Gen.re_config_output T str_num fmt_1f channel waveform frequency amplitude
       offset phase duty_cycle symmetry print_changes s =
     prepend (Print "Unrecognized output channel ('CH1' as default).")
       ((waveform ← Gen.recognize T 1 waveform;
         Gen.run_steps T 1 waveform print_changes
           (Gen.steps str_num fmt_1f 1 waveform frequency amplitude offset phase
              duty_cycle symmetry)) s) /\
     (Gen.in_range (Gen.nchannels T s) 1 = true ->
      Gen.re_config_output T str_num fmt_1f channel waveform frequency amplitude
        offset phase duty_cycle symmetry print_changes s =
      prepend (Print "Unrecognized output channel ('CH1' as default).")
        (Gen.re_config_output T str_num fmt_1f 1 waveform frequency amplitude
           offset phase duty_cycle symmetry print_changes s))).
Proof.
  split.
  - intros. apply Osci.re_config_measure_out_of_range. assumption.
  - intros. apply Gen.re_config_output_out_of_range. assumption.
Qed.

Lemma channel_coercion_witness :
  Osci.re_config_measure Bench.T0 Bench.first_number "min" 5 Bench.osci0 =
  prepend (Print "Unrecognized measure source ('CH1' as default).")
    (Osci.re_config_measure Bench.T0 Bench.first_number "min" 1 Bench.osci0) /\
  Gen.re_config_output Bench.T0 Bench.show Bench.show 5 (Some "squ") None None None
    None (Some (Finite 75)) None false Bench.gen0 =
  prepend (Print "Unrecognized output channel ('CH1' as default).")
    (Gen.re_config_output Bench.T0 Bench.show Bench.show 1 (Some "squ") None None
       None None (Some (Finite 75)) None false Bench.gen0).
Proof.
  split.
  - apply (proj1 channel_coercion Bench.T0 Bench.first_number "min" 5 Bench.osci0).
    reflexivity.
  - apply (proj2 channel_coercion Bench.T0 Bench.show Bench.show 5 (Some "squ") None
             None None None (Some (Finite 75)) None false Bench.gen0); reflexivity.
Defined.

(** ** Both limits in one call *)

(** C9, as stated: with a duty cycle and a symmetry both given, the call
    raises [ValueError]. *)
Definition both_rejected : Prop :=
  forall T str_num fmt_1f channel waveform frequency amplitude offset phase
         q q' print_changes (s : Gen.state T) r s' t,
    Gen.re_config_output T str_num fmt_1f channel waveform frequency amplitude
      offset phase (Some q) (Some q') print_changes s = (r, s', t) ->
    exists msg, r = Raises (ValueError msg).

(** C9 fails when a field before the guards stops the call: with an
    amplitude whose command the transport refuses the call ends in
    [VisaIOError]; and on the cache that [get_config_output] builds from a
    device that answers the duty-cycle query, ['pulse'] with both given
    ends in [KeyError] at the duty cycle, before the guard of the
    symmetry. *)
Lemma both_given_counterexample :
  (exists s' t,
     Gen.re_config_output Bench.faulty Bench.show Bench.show 1 None None
       (Some (Finite 2)) None None (Some (Finite 75)) (Some (Finite 50)) false
       Bench.faulty_gen
     = (Raises VisaIOError, s', t)) /\
  (exists s' t,
     Gen.re_config_output Bench.T0 Bench.show Bench.show 1 (Some "pulse") None None
       None None (Some (Finite 75)) (Some (Finite 50)) false Bench.connected_gen
     = (Raises (KeyError (inr "Duty Cycle")), s', t)) /\
  ~ both_rejected.
Proof.
  split; [eexists _, _; reflexivity|].
  split; [eexists _, _; reflexivity|].
  intros H.
  destruct (H Bench.faulty Bench.show Bench.show 1 None None (Some (Finite 2)) None
              None (Finite 75) (Finite 50) false Bench.faulty_gen _ _ _ eq_refl)
    as [msg Hmsg].
  discriminate Hmsg.
Qed.

(** C9 (amended): with a duty cycle and a symmetry both given the call
    never returns.  It raises the [ValueError] of the duty cycle when the
    waveform is not ['PULS'], and that of the symmetry when it is, unless
    a field before the guard has stopped the call: so it does when the
    fields before are cached and the transport takes every write.  The
    call with the defaults of the signature, whose waveform is ['SIN'], is
    the first case. *)
Theorem duty_cycle_with_symmetry :
  (forall T str_num fmt_1f channel waveform frequency amplitude offset phase
          q q' print_changes (s : Gen.state T) r s' t,
     Gen.re_config_output T str_num fmt_1f channel waveform frequency amplitude
       offset phase (Some q) (Some q') print_changes s = (r, s', t) ->
     let ch := Gen.effective (Gen.nchannels T s) channel in
     (exists e, r = Raises e) /\
     forall d w,
       Gen.config_output T s !! inl ch = Some (inl d) ->
       Gen.target d waveform = Some w ->
       (py_ne w (VStr "PULS") = true /\
        (r = Raises (ValueError "Can only set duty cycle on 'PULS'") \/
         exists x rest refused,
           In x (Gen.basic_steps str_num ch w frequency amplitude offset phase) /\
           Gen.stop T w d s' r (x :: rest) refused) /\
        (Gen.reliable T -> (forall k, In k Gen.basic_fields -> is_Some (d !! k)) ->
         r = Raises (ValueError "Can only set duty cycle on 'PULS'"))) \/
       (w = VStr "PULS" /\
        (r = Raises (ValueError "Can only set symmetry on 'RAMP'") \/
         exists x rest refused,
           In x (Gen.basic_steps str_num ch w frequency amplitude offset phase
                   ++ [Gen.duty_cycle_step str_num fmt_1f ch (Some q)]) /\
           Gen.stop T w d s' r (x :: rest) refused) /\
        (Gen.reliable T -> (forall k, In k Gen.basic_fields -> is_Some (d !! k)) ->
         is_Some (d !! "Duty Cycle") ->
         r = Raises (ValueError "Can only set symmetry on 'RAMP'")))) /\
  (forall T str_num fmt_1f (s : Gen.state T) r s' t,
     Gen.re_config_output_defaults T str_num fmt_1f s = (r, s', t) ->
     let ch := Gen.effective (Gen.nchannels T s) 1 in
     (exists e, r = Raises e) /\
     forall d,
       Gen.config_output T s !! inl ch = Some (inl d) ->
       (r = Raises (ValueError "Can only set duty cycle on 'PULS'") \/
        exists x rest refused,
          In x (Gen.basic_steps str_num ch (VStr "SIN") (Some (Finite 1000))
                  (Some (Finite 1)) (Some (Finite 0)) (Some (Finite 0))) /\
          Gen.stop T (VStr "SIN") d s' r (x :: rest) refused) /\
       (Gen.reliable T -> (forall k, In k Gen.basic_fields -> is_Some (d !! k)) ->
        r = Raises (ValueError "Can only set duty cycle on 'PULS'"))).
Proof.
  assert (Hboth : forall T str_num fmt_1f channel waveform frequency amplitude
            offset phase q q' print_changes (s : Gen.state T) r s' t,
     Gen.re_config_output T str_num fmt_1f channel waveform frequency amplitude
       offset phase (Some q) (Some q') print_changes s = (r, s', t) ->
     let ch := Gen.effective (Gen.nchannels T s) channel in
     (exists e, r = Raises e) /\
     forall d w,
       Gen.config_output T s !! inl ch = Some (inl d) ->
       Gen.target d waveform = Some w ->
       (py_ne w (VStr "PULS") = true /\
        (r = Raises (ValueError "Can only set duty cycle on 'PULS'") \/
         exists x rest refused,
           In x (Gen.basic_steps str_num ch w frequency amplitude offset phase) /\
           Gen.stop T w d s' r (x :: rest) refused) /\
        (Gen.reliable T -> (forall k, In k Gen.basic_fields -> is_Some (d !! k)) ->
         r = Raises (ValueError "Can only set duty cycle on 'PULS'"))) \/
       (w = VStr "PULS" /\
        (r = Raises (ValueError "Can only set symmetry on 'RAMP'") \/
         exists x rest refused,
           In x (Gen.basic_steps str_num ch w frequency amplitude offset phase
                   ++ [Gen.duty_cycle_step str_num fmt_1f ch (Some q)]) /\
           Gen.stop T w d s' r (x :: rest) refused) /\
        (Gen.reliable T -> (forall k, In k Gen.basic_fields -> is_Some (d !! k)) ->
         is_Some (d !! "Duty Cycle") ->
         r = Raises (ValueError "Can only set symmetry on 'RAMP'")))).
  { intros T str_num fmt_1f channel waveform frequency amplitude offset phase
           q q' pc s r s' t Hrun ch.
    split;
      [exact (proj1 (Gen.duty_cycle_and_symmetry T str_num fmt_1f _ _ _ _ _ _ _ _ _
                       _ _ _ _ Hrun))|].
    intros d w Hd Ht.
    destruct (py_ne w (VStr "PULS")) eqn:Hw.
    - left. split; [reflexivity|]. split.
      + exact (Gen.duty_cycle_stops T str_num fmt_1f _ _ _ _ _ _ _ _ _ _ _ _ _ _ _
                 Hd Ht Hw Hrun).
      + apply (Gen.duty_cycle_gated T str_num fmt_1f _ _ _ _ _ _ _ _ _ _ _ _ _ _ _
                 Hd Ht Hw Hrun).
    - right.
      assert (Hp : w = VStr "PULS").
      { unfold py_ne in Hw. destruct w as [b|x|y]; simpl in Hw; try discriminate.
        apply negb_false_iff, String.eqb_eq in Hw. congruence. }
      split; [exact Hp|]. split.
      + exact (Gen.symmetry_stops T str_num fmt_1f _ _ _ _ _ _ _ _ _ _ _ _ _ _ _
                 Hd Ht (Gen.not_PULS_or_not_RAMP _ Hw) Hrun).
      + intros Hrel Hk Hdc.
        apply (Gen.symmetry_gated T str_num fmt_1f _ _ _ _ _ _ _ _ _ _ _ _ _ _ _
                 Hd Ht (Gen.not_PULS_or_not_RAMP _ Hw) Hrun); try assumption.
        intros _. split; [|exact Hdc].
        unfold Gen.blocked. simpl. rewrite Hw. reflexivity. }
  split; [exact Hboth|].
  intros T str_num fmt_1f s r s' t H ch. unfold Gen.re_config_output_defaults in H.
  destruct (Hboth _ _ _ _ _ _ _ _ _ _ _ _ _ _ _ _ H) as [Hr Hx].
  split; [exact Hr|]. intros d Hd.
  destruct (Hx d (VStr "SIN") Hd eq_refl) as [(_ & Hstop & He)|(Hw & _)];
    [|discriminate Hw].
  split; [exact Hstop|exact He].
Qed.

Lemma duty_cycle_with_symmetry_witness :
  (exists s' t,
     Gen.re_config_output_defaults Bench.T0 Bench.show Bench.show Bench.gen0
     = (Raises (ValueError "Can only set duty cycle on 'PULS'"), s', t)) /\
  (exists s' t,
     Gen.re_config_output Bench.T0 Bench.show Bench.show 1 (Some "pulse") None None
       None None (Some (Finite 75)) (Some (Finite 50)) false Bench.gen0
     = (Raises (ValueError "Can only set symmetry on 'RAMP'"), s', t)).
Proof.
  destruct duty_cycle_with_symmetry as (Hboth & Hdef).
  split.
  - destruct (Gen.re_config_output_defaults Bench.T0 Bench.show Bench.show Bench.gen0)
      as [[r s'] t] eqn:Hrun.
    destruct (Hdef Bench.T0 Bench.show Bench.show Bench.gen0 r s' t Hrun) as [_ He].
    destruct (He Bench.channel0 eq_refl) as [_ He'].
    rewrite (He' bench_reliable channel0_fields). eauto.
  - destruct (Gen.re_config_output Bench.T0 Bench.show Bench.show 1 (Some "pulse")
                None None None None (Some (Finite 75)) (Some (Finite 50)) false
                Bench.gen0)
      as [[r s'] t] eqn:Hrun.
    destruct (Hboth Bench.T0 Bench.show Bench.show 1 (Some "pulse") None None None
                None (Finite 75) (Finite 50) false Bench.gen0 r s' t Hrun) as [_ Hx].
    destruct (Hx Bench.channel0 (VStr "PULS") eq_refl eq_refl)
      as [(Hw & _)|(_ & _ & He)]; [discriminate Hw|].
    rewrite (He bench_reliable channel0_fields); [eauto|]. vm_compute. eauto.
Defined.

(** ** The duty cycle read at connection *)

Lemma effective_of_range n c :
  In c (Gen.channel_range n) -> Gen.effective n c = c.
Proof.
  intros H. unfold Gen.effective, Gen.in_range.
  rewrite bool_decide_eq_true_2; [reflexivity|]. apply list_elem_of_In, H.
Qed.

(** C10: [get_config_output] returns and the duty-cycle query of channel
    [c] is answered by a text that parses as [n].  Then the round of the
    loop for [c] leaves [n] under ['Duty Cycle'] at the top level of the
    configuration; the configuration returned holds there the answer of
    the last channel that answers, which is [n] when no later channel
    does; and the state of [c] has no such field.  With that
    configuration as the cache, [re_config_output] on [c] with a duty
    cycle and the waveform ['PULS'] never returns, and on a transport that
    takes every write it raises the [KeyError] of ['Duty Cycle']. *)
Theorem duty_cycle_top_level :
  forall T find_1st_number py_int str_num fmt_1f (s : Gen.state T) c n cfg s0 t0,
    Gen.get_config_output T find_1st_number py_int s = (Returns cfg, s0, t0) ->
    In c (Gen.channel_range (Gen.nchannels T s)) ->
    GenMethods.parsed T find_1st_number s (Gen.SOUR c ":PULS:DCYC?") = Some n ->
    (forall cfg1 cfg2 s2 t2,
       Gen.get_config_channel T find_1st_number py_int cfg1 c s = (Returns cfg2, s2, t2) ->
       cfg2 !! inr "Duty Cycle" = Some (inr (VNum (Finite n)))) /\
    (exists m,
       GenMethods.last_answered T find_1st_number s
         (Gen.channel_range (Gen.nchannels T s)) None = Some m /\
       cfg !! inr "Duty Cycle" = Some (inr (VNum (Finite m))) /\
       ((forall c', In c' (Gen.channel_range (Gen.nchannels T s)) -> c < c' ->
           GenMethods.parsed T find_1st_number s (Gen.SOUR c' ":PULS:DCYC?") = None) ->
        m = n)) /\
    exists d,
      cfg !! inl c = Some (inl d) /\
      d !! "Duty Cycle" = None /\
      forall (s2 : Gen.state T) waveform frequency amplitude offset phase q symmetry
             print_changes r s' t,
        Gen.config_output T s2 = cfg ->
        Gen.nchannels T s2 = Gen.nchannels T s ->
        Gen.target d waveform = Some (VStr "PULS") ->
        Gen.re_config_output T str_num fmt_1f c waveform frequency amplitude offset
          phase (Some q) symmetry print_changes s2 = (r, s', t) ->
        (exists e, r = Raises e) /\
        ~ In (Gen.DCYC fmt_1f c q) (writes t) /\
        (Gen.reliable T -> r = Raises (KeyError (inr "Duty Cycle"))).
Proof.
  intros T f py_int str_num fmt_1f s c n cfg s0 t0 Hget Hc Hn.
  split; [|split].
  - intros cfg1 cfg2 s2 t2 Hbody.
    apply GenMethods.get_config_channel_inv in Hbody as (_ & _ & _ & Htop & _).
    rewrite Htop, Hn. apply lookup_insert_eq.
  - destruct (GenMethods.last_answered_some T f s _ None c n Hc Hn) as [m Hm].
    exists m. split; [exact Hm|].
    apply GenMethods.get_config_output_inv in Hget as (_ & _ & _ & _ & Htop).
    split; [rewrite Htop, Hm; reflexivity|].
    intros Hlater.
    destruct (GenMethods.channel_range_split _ _ Hc) as (pre & post & Hsplit & Hpost).
    rewrite Hsplit in Hm.
    rewrite (GenMethods.last_answered_last T f s pre c post None n Hn) in Hm.
    + congruence.
    + intros c' Hc'. destruct (Hpost c' Hc') as [Hlt Hin]. apply Hlater; assumption.
  - assert (Ha : Gen.duty_cycle_answered T f s c).
    { unfold GenMethods.parsed in Hn. unfold Gen.duty_cycle_answered.
      destruct (dev_query T (Gen.gen T s) (Gen.SOUR c ":PULS:DCYC?")) as [a|];
        [|discriminate].
      destruct (f a) as [n'|e] eqn:Hf; [|discriminate]. eauto. }
    destruct (Gen.get_config_output_returns _ _ _ _ _ _ _ Hget) as (_ & Hch & _).
    destruct (Hch c Hc Ha) as (d & Hd & Hno & Hk).
    exists d. split; [exact Hd|]. split; [exact Hno|].
    intros s2 waveform frequency amplitude offset phase q symmetry pc r s' t
           Hcfg Hnch Ht Hrun.
    assert (Hd2 : Gen.config_output T s2
                    !! inl (Gen.effective (Gen.nchannels T s2) c) = Some (inl d)).
    { rewrite Hnch, (effective_of_range _ _ Hc), Hcfg. exact Hd. }
    destruct (Gen.duty_cycle_missing _ _ _ _ _ _ _ _ _ _ _ _ _ _ _ _ _ Hd2 Ht Hno Hrun)
      as (Hr & Hw & He).
    rewrite Hnch, (effective_of_range _ _ Hc) in Hw.
    split; [exact Hr|]. split; [exact Hw|].
    intros Hrel. apply He; [exact Hrel|exact Hk].
Qed.

(** A device with two channels that answers 30 for the first and 70 for
    the second: 70 is what the configuration holds.  A device with one
    channel that answers 50: the call with ['pulse'] and a duty cycle
    raises [KeyError]. *)
Lemma duty_cycle_top_level_witness :
  (exists cfg t0,
     Gen.get_config_output Lab.T3 Bench.first_number Bench.int_of Lab.gen3
       = (Returns cfg, Lab.gen3, t0) /\
     cfg !! inr "Duty Cycle" = Some (inr (VNum 70))) /\
  Bench.fresh_config !! inr "Duty Cycle" = Some (inr (VNum 50)) /\
  (exists d, Bench.fresh_config !! inl 1 = Some (inl d) /\ d !! "Duty Cycle" = None) /\
  exists s' t,
    Gen.re_config_output Bench.T0 Bench.show Bench.show 1 (Some "pulse") None None
      None None (Some (Finite 75)) None false Bench.connected_gen
    = (Raises (KeyError (inr "Duty Cycle")), s', t).
Proof.
  split.
  { eexists _, _. split; [reflexivity|].
    edestruct (duty_cycle_top_level Lab.T3 Bench.first_number Bench.int_of Bench.show
                 Bench.show Lab.gen3 2 70%Q)
      as (_ & (m & Hm & Htop & Hlast) & _); [reflexivity| |reflexivity|].
    { right. left. reflexivity. }
    rewrite Htop. rewrite (Hlast ltac:(intros c' [<-|[<-|[]]]; [lia|lia])).
    reflexivity. }
  assert (Hget : exists t0,
            Gen.get_config_output Bench.T0 Bench.first_number Bench.int_of
              Bench.fresh_gen = (Returns Bench.fresh_config, Bench.fresh_gen, t0))
    by (eexists; reflexivity).
  destruct Hget as [t0 Hget].
  destruct (duty_cycle_top_level Bench.T0 Bench.first_number Bench.int_of Bench.show
              Bench.show Bench.fresh_gen 1 50%Q Bench.fresh_config Bench.fresh_gen t0
              Hget)
    as (_ & (m & Hm & Htop & Hlast) & d & Hd & Hno & Hcall).
  { left. reflexivity. }
  { reflexivity. }
  split.
  { rewrite Htop. rewrite (Hlast ltac:(intros c' [<-|[]]; lia)). reflexivity. }
  split; [exists d; split; assumption|].
  destruct (Gen.re_config_output Bench.T0 Bench.show Bench.show 1 (Some "pulse")
              None None None None (Some (Finite 75)) None false Bench.connected_gen)
    as [[r s'] t] eqn:Hrun.
  destruct (Hcall Bench.connected_gen (Some "pulse") None None None None (Finite 75)
              None false r s' t eq_refl eq_refl eq_refl Hrun) as (_ & _ & He).
  rewrite (He bench_reliable). eauto.
Defined.

(** ** The configuration read at connection *)

(** X1: [get_config_output] only asks.  However it ends, it has sent no
    command and has left the instance as it was; when it returns it has sent
    exactly the eight queries of each channel, channel after channel, and
    printed nothing. *)
Theorem get_config_output_asks_only :
  forall T find_1st_number py_int (s : Gen.state T) r s' t,
    Gen.get_config_output T find_1st_number py_int s = (r, s', t) ->
    s' = s /\ writes t = [] /\
    forall cfg, r = Returns cfg ->
      t = map Query (flat_map GenMethods.channel_queries
                       (Gen.channel_range (Gen.nchannels T s))).
Proof.
  intros T f py_int s r s' t H.
  destruct (GenMethods.get_config_output_read_only T f py_int _ _ _ _ H) as [-> Hw].
  split; [reflexivity|]. split; [exact Hw|].
  intros cfg ->. apply GenMethods.get_config_output_inv in H as (_ & Ht & _). exact Ht.
Qed.

Lemma get_config_output_asks_only_witness :
  exists cfg t,
    Gen.get_config_output Bench.T0 Bench.first_number Bench.int_of Bench.fresh_gen
      = (Returns cfg, Bench.fresh_gen, t) /\
    writes t = [] /\
    queries t = [ "OUTP1:STAT?"; "SOUR1:FUNC:SHAP?"; "SOUR1:FREQ?";
                  "SOUR1:VOLT:LEV:IMM:AMPL?"; "SOUR1:VOLT:LEV:IMM:OFFS?";
                  "SOUR1:PHAS?"; "SOUR1:PULS:DCYC?"; "SOUR1:FUNC:RAMP:SYMM?" ].
Proof.
  eexists _, _. split; [reflexivity|].
  destruct (get_config_output_asks_only Bench.T0 Bench.first_number Bench.int_of
              Bench.fresh_gen _ _ _ eq_refl) as (_ & Hw & Ht).
  split; [exact Hw|]. rewrite (Ht _ eq_refl). reflexivity.
Defined.

(** X2: [get_config_output] returns exactly when every channel from 1 to
    [nchannels] answers its first six queries with something that parses
    (the status as an [int], the four numbers as numbers).  The queries of
    the duty cycle and of the symmetry never make it raise. *)
Theorem get_config_output_returns_iff :
  forall T find_1st_number py_int (s : Gen.state T),
    (exists cfg t,
       Gen.get_config_output T find_1st_number py_int s = (Returns cfg, s, t)) <->
    (forall c, In c (Gen.channel_range (Gen.nchannels T s)) ->
       is_Some (GenMethods.channel_state T find_1st_number py_int s c ∅)).
Proof.
  intros T f py_int s. split.
  - intros (cfg & t & H) c Hc.
    apply GenMethods.get_config_output_inv in H as (_ & _ & Hin & _).
    destruct (Hin c Hc) as (d & Hd & _). eauto.
  - apply GenMethods.get_config_output_returns_if.
Qed.

Lemma get_config_output_returns_iff_witness :
  exists cfg t,
    Gen.get_config_output Lab.T2 Bench.first_number Bench.int_of Lab.gen2
    = (Returns cfg, Lab.gen2, t).
Proof.
  apply (proj2 (get_config_output_returns_iff Lab.T2 Bench.first_number Bench.int_of
                  Lab.gen2)).
  intros c [<-|[]]. exists Lab.ramp_state. reflexivity.
Defined.

(** X3: the configuration [get_config_output] returns holds, for every
    channel from 1 to [nchannels], exactly the state the answers of the
    device make: the status, the waveform and the four numbers as answered,
    ['Symmetry'] as answered or 50.0 when that query fails, and
    ['Duty Cycle'] 50.0 when that query fails and no such key otherwise.
    It has no entry for any other channel number. *)
Theorem get_config_output_mirrors :
  forall T find_1st_number py_int (s : Gen.state T) cfg s' t,
    Gen.get_config_output T find_1st_number py_int s = (Returns cfg, s', t) ->
    (forall c, In c (Gen.channel_range (Gen.nchannels T s)) ->
       exists d,
         GenMethods.channel_state T find_1st_number py_int s c ∅ = Some d /\
         cfg !! inl c = Some (inl d)) /\
    (forall c, ~ In c (Gen.channel_range (Gen.nchannels T s)) -> cfg !! inl c = None).
Proof.
  intros T f py_int s cfg s' t H.
  apply GenMethods.get_config_output_inv in H as (_ & _ & Hin & Hout & _). auto.
Qed.

Lemma get_config_output_mirrors_witness :
  exists cfg s' t,
    Gen.get_config_output Lab.T2 Bench.first_number Bench.int_of Lab.gen2
    = (Returns cfg, s', t) /\
    cfg !! inl 1 = Some (inl Lab.ramp_state) /\
    cfg !! inl 2 = None.
Proof.
  eexists _, _, _. split; [reflexivity|].
  destruct (get_config_output_mirrors Lab.T2 Bench.first_number Bench.int_of
              Lab.gen2 _ _ _ eq_refl) as [Hin Hout].
  split.
  - destruct (Hin 1 ltac:(left; reflexivity)) as (d & Hd & Hc).
    rewrite Hc. f_equal. f_equal.
    assert (Hd' : GenMethods.channel_state Lab.T2 Bench.first_number Bench.int_of
                    Lab.gen2 1 ∅ = Some Lab.ramp_state) by reflexivity.
    rewrite Hd' in Hd. injection Hd as <-. reflexivity.
  - apply Hout. vm_compute. intros [H|[]]. discriminate H.
Defined.

(** ** Reconfiguring and switching an output *)

(** X4: whatever the outcome of [re_config_output], the number of channels,
    every other entry of the cache and the set of keys of the channel's
    state are as before; only the seven fields of the channel may hold a new
    value (so ['Status'] never changes, and a key that is missing stays
    missing); and every command sent is a [SOUR] command of the channel the
    call works on. *)
Theorem re_config_output_leaves_alone :
  forall T str_num fmt_1f channel waveform frequency amplitude offset phase
         duty_cycle symmetry print_changes (s : Gen.state T) r s' t,
    Gen.re_config_output T str_num fmt_1f channel waveform frequency amplitude
      offset phase duty_cycle symmetry print_changes s = (r, s', t) ->
    let ch := Gen.effective (Gen.nchannels T s) channel in
    Gen.nchannels T s' = Gen.nchannels T s /\
    (forall k, k <> inl ch -> Gen.config_output T s' !! k = Gen.config_output T s !! k) /\
    (forall c, In c (writes t) -> exists rest, c = Gen.SOUR ch rest) /\
    match Gen.config_output T s !! inl ch with
    | Some (inl d) =>
        exists d', Gen.config_output T s' !! inl ch = Some (inl d') /\
          dom d' = dom d /\
          forall k, ~ In k GenMethods.field_names -> d' !! k = d !! k
    | other => Gen.config_output T s' !! inl ch = other
    end.
Proof. intros. eapply GenMethods.re_config_output_frame. eassumption. Qed.

Lemma re_config_output_leaves_alone_witness :
  exists s' t,
    Gen.re_config_output Bench.T0 Bench.show Bench.show 1 (Some "squ") (Some (Finite 50))
      None None None (Some (Finite 75)) None false Bench.gen0 = (Returns tt, s', t) /\
    writes t = ["SOUR1:FUNC:SHAP PULS"; "SOUR1:FREQ 50/1"; "SOUR1:PULS:DCYC 75/1"] /\
    Gen.config_output Bench.T0 s' !! inl 2 = Some (inl Bench.channel0) /\
    exists d', Gen.config_output Bench.T0 s' !! inl 1 = Some (inl d') /\
      dom d' = dom Bench.channel0 /\
      d' !! "Status" = Some (VBool true).
Proof.
  eexists _, _. split; [reflexivity|]. split; [reflexivity|].
  destruct (re_config_output_leaves_alone Bench.T0 Bench.show Bench.show 1 (Some "squ")
              (Some (Finite 50)) None None None (Some (Finite 75)) None false
              Bench.gen0 _ _ _ eq_refl)
    as (_ & Hother & _ & d' & Hd' & Hdom & Hkeep).
  split; [rewrite (Hother (inl 2)) by discriminate; reflexivity|].
  exists d'. split; [exact Hd'|]. split; [exact Hdom|].
  rewrite (Hkeep "Status"); [reflexivity|].
  vm_compute. intros H.
  repeat (destruct H as [H|H]; [discriminate H|]). exact H.
Defined.

(** X5: [output(status, channel)] with no configuration key, on a channel
    that is in range and cached with a waveform (any value but nan, which
    would differ from itself), sends one command, the one that switches the
    output, whatever ['Status'] the cache holds; it then prints the line
    and sets ['Status'].  When the device refuses the command the call
    raises and nothing has changed. *)
Theorem output_switch_only :
  forall T str_num fmt_1f status channel print_changes (s : Gen.state T) d w,
    In channel [1; 2] ->
    Gen.in_range (Gen.nchannels T s) channel = true ->
    Gen.config_output T s !! inl channel = Some (inl d) ->
    d !! "Waveform" = Some w ->
    is_nan w = false ->
    GenMethods.output T str_num fmt_1f status channel print_changes GenMethods.no_kwargs s =
    match dev_write T (Gen.gen T s) (GenMethods.STAT channel status) with
    | Some g =>
        (Returns tt,
         Gen.store T channel (<["Status" := VBool status]> d) (Gen.set_gen T g s),
         [Write (GenMethods.STAT channel status);
          Print (GenMethods.switched channel status)])
    | None => (Raises VisaIOError, s, [Write (GenMethods.STAT channel status)])
    end.
Proof.
  intros T str_num fmt_1f status channel pc s d w Hin Hrange Hd Hw Hnan.
  rewrite GenMethods.output_eq. unfold GenMethods.reconfigured, GenMethods.preamble.
  rewrite (GenMethods.front_in _ Hin).
  rewrite bool_decide_eq_true_2 by (apply list_elem_of_In, Hin).
  assert (Heff : Gen.effective (Gen.nchannels T s) channel = channel)
    by (unfold Gen.effective; rewrite Hrange; reflexivity).
  cbn [GenMethods.no_kwargs GenMethods.kw_waveform GenMethods.kw_frequency
       GenMethods.kw_amplitude GenMethods.kw_offset GenMethods.kw_phase
       GenMethods.kw_duty_cycle GenMethods.kw_symmetry GenMethods.arg
       GenMethods.announcement app].
  rewrite (GenMethods.re_config_output_unset T str_num fmt_1f channel pc s d w)
    by (rewrite ?Heff; assumption).
  unfold Gen.diagnostic. rewrite Hrange. cbv zeta.
  destruct (dev_write T (Gen.gen T s) (GenMethods.STAT channel status)) as [g|];
    [|reflexivity].
  rewrite Hd. reflexivity.
Qed.

Lemma output_switch_only_witness :
  GenMethods.output Bench.T0 Bench.show Bench.show false 2 false GenMethods.no_kwargs Bench.gen0
  = (Returns tt,
     Gen.store Bench.T0 2 (<["Status" := VBool false]> Bench.channel0)
       (Gen.set_gen Bench.T0 (["OUTP2:STAT 0"] : dev Bench.T0) Bench.gen0),
     [Write "OUTP2:STAT 0"; Print "Output CH2 OFF"]).
Proof.
  rewrite (output_switch_only Bench.T0 Bench.show Bench.show false 2 false Bench.gen0
             Bench.channel0 (VStr "SIN")).
  - reflexivity.
  - right. left. reflexivity.
  - reflexivity.
  - reflexivity.
  - reflexivity.
  - reflexivity.
Defined.

(** X6: [output] accepts channel 2 on a generator that has fewer than two
    channels, since it checks the channel against [[1, 2]] and not against
    [nchannels].  The call never returns.  When its reconfiguration returns,
    that one has worked on channel 1 (every command it sent is a [SOUR1]
    command); the command that switches output 2 is then sent, the line is
    printed, and the assignment of ['Status'] raises [KeyError(2)]. *)
Theorem output_second_channel_missing :
  forall T str_num fmt_1f status print_changes output_config (s : Gen.state T) r s' t,
    Gen.in_range (Gen.nchannels T s) 2 = false ->
    Gen.config_output T s !! inl 2 = None ->
    GenMethods.output T str_num fmt_1f status 2 print_changes output_config s
      = (r, s', t) ->
    (exists e, r = Raises e) /\
    forall s1 t1,
      GenMethods.reconfigured T str_num fmt_1f 2 print_changes output_config s
        = (Returns tt, s1, t1) ->
      (forall c, In c (writes t1) -> exists rest, c = Gen.SOUR 1 rest) /\
      forall g, dev_write T (Gen.gen T s1) (GenMethods.STAT 2 status) = Some g ->
        r = Raises (KeyError (inl 2)) /\ s' = Gen.set_gen T g s1 /\
        t = GenMethods.preamble 2 output_config ++ t1 ++
            [Write (GenMethods.STAT 2 status); Print (GenMethods.switched 2 status)].
Proof.
  intros T str_num fmt_1f status pc kw s r s' t Hrange Hnone.
  rewrite GenMethods.output_eq. change (GenMethods.front 2) with 2.
  destruct (GenMethods.reconfigured T str_num fmt_1f 2 pc kw s)
    as [[[[]|e] s1] t1] eqn:Hrun.
  2:{ intros [= <- <- <-]. split; [eauto|]. intros ? ? [=]. }
  unfold GenMethods.reconfigured in Hrun. change (GenMethods.front 2) with 2 in Hrun.
  destruct (GenMethods.re_config_output_frame T str_num fmt_1f _ _ _ _ _ _ _ _ _ _ _ _ _
              Hrun) as (_ & Hother & Hsour & _).
  assert (Heff : Gen.effective (Gen.nchannels T s) 2 = 1)
    by (unfold Gen.effective; rewrite Hrange; reflexivity).
  rewrite Heff in Hother, Hsour.
  assert (Hnone1 : Gen.config_output T s1 !! inl 2 = None)
    by (rewrite Hother by discriminate; exact Hnone).
  cbv zeta. rewrite Hnone1.
  destruct (dev_write T (Gen.gen T s1) (GenMethods.STAT 2 status)) as [g|] eqn:Hwr.
  - intros [= <- <- <-]. split; [eauto|].
    intros s2 t2 [= <- <-]. split; [exact Hsour|].
    intros g' Hg. rewrite Hwr in Hg. injection Hg as <-. auto.
  - intros [= <- <- <-]. split; [eauto|].
    intros s2 t2 [= <- <-]. split; [exact Hsour|].
    intros g' Hg. rewrite Hwr in Hg. discriminate Hg.
Qed.

Lemma output_second_channel_missing_witness :
  exists s' t,
    GenMethods.output Bench.T0 Bench.show Bench.show true 2 false GenMethods.no_kwargs
      Bench.connected_gen = (Raises (KeyError (inl 2)), s', t) /\
    t = [Print "Unrecognized output channel ('CH1' as default).";
         Write "OUTP2:STAT 1"; Print "Output CH2 ON"].
Proof.
  destruct (GenMethods.output Bench.T0 Bench.show Bench.show true 2 false GenMethods.no_kwargs
              Bench.connected_gen) as [[r s'] t] eqn:Hrun.
  destruct (output_second_channel_missing Bench.T0 Bench.show Bench.show true false
              GenMethods.no_kwargs Bench.connected_gen r s' t eq_refl eq_refl Hrun)
    as [_ Hcall].
  destruct (Hcall Bench.connected_gen
              [Print "Unrecognized output channel ('CH1' as default)."] eq_refl)
    as [_ Hg].
  destruct (Hg (["OUTP2:STAT 1"] : dev Bench.T0) eq_refl) as (-> & -> & ->).
  eexists _, _. split; reflexivity.
Defined.

(** X7: when the reconfiguration that [output] starts with raises, for
    instance because a duty cycle is given on a waveform that is not
    ['PULS'], [output] raises the same exception without sending the
    command that switches the output, and the ['Status'] of every channel in
    the cache is as it was. *)
Theorem output_not_switched :
  forall T str_num fmt_1f status channel print_changes output_config
         (s : Gen.state T) r s' t e s1 t1,
    GenMethods.output T str_num fmt_1f status channel print_changes output_config s
      = (r, s', t) ->
    GenMethods.reconfigured T str_num fmt_1f channel print_changes output_config s
      = (Raises e, s1, t1) ->
    r = Raises e /\
    (forall c b, ~ In (GenMethods.STAT c b) (writes t)) /\
    forall c d, Gen.config_output T s !! inl c = Some (inl d) ->
      exists d', Gen.config_output T s' !! inl c = Some (inl d') /\
        d' !! "Status" = d !! "Status".
Proof.
  intros T str_num fmt_1f status channel pc kw s r s' t e s1 t1.
  rewrite GenMethods.output_eq. intros Hout Hrun. rewrite Hrun in Hout.
  injection Hout as <- <- <-. split; [reflexivity|].
  unfold GenMethods.reconfigured in Hrun.
  destruct (GenMethods.re_config_output_frame T str_num fmt_1f _ _ _ _ _ _ _ _ _ _ _ _ _
              Hrun) as (_ & Hother & Hsour & Hch).
  split.
  - intros c b Hin. rewrite writes_app in Hin.
    destruct (GenMethods.preamble_silent channel kw) as [Hp _].
    rewrite Hp in Hin. cbn [app] in Hin.
    apply Hsour in Hin as [rest Hin]. exact (GenMethods.STAT_not_SOUR _ _ _ _ Hin).
  - intros c d Hd.
    destruct (decide (c = Gen.effective (Gen.nchannels T s) (GenMethods.front channel)))
      as [->|Hne].
    + rewrite Hd in Hch. destruct Hch as (d' & Hd' & _ & Hkeep).
      exists d'. split; [exact Hd'|]. apply Hkeep.
      vm_compute. intros H.
      repeat (destruct H as [H|H]; [discriminate H|]). exact H.
    + exists d. rewrite Hother by congruence. auto.
Qed.

Lemma output_not_switched_witness :
  exists s' t,
    GenMethods.output Bench.T0 Bench.show Bench.show true 1 false Lab.duty_cycle_75
      Lab.gen_off
    = (Raises (ValueError "Can only set duty cycle on 'PULS'"), s', t) /\
    writes t = ["SOUR1:FREQ 50/1"] /\
    exists d', Gen.config_output Bench.T0 s' !! inl 1 = Some (inl d') /\
      d' !! "Status" = Some (VBool false).
Proof.
  eexists _, _. split; [reflexivity|]. split; [reflexivity|].
  edestruct (output_not_switched Bench.T0 Bench.show Bench.show true 1 false
               Lab.duty_cycle_75 Lab.gen_off) as (_ & _ & Hstatus);
    [reflexivity|reflexivity|].
  destruct (Hstatus 1 (<["Status" := VBool false]> Bench.channel0) eq_refl)
    as (d' & Hd' & Hs).
  exists d'. split; [exact Hd'|]. rewrite Hs. reflexivity.
Defined.

(** X8: after [__init__] has returned, on a transport that takes every
    write, [output] returns for every channel it accepts that is among the
    [nchannels] of the generator, with any waveform, frequency, amplitude,
    offset and phase, without a duty cycle, and with a symmetry when the
    waveform given resolves to ['RAMP'].  The command that switches the
    output is the last one sent, and the cache holds the status asked for.
    [__init__] itself has sent no command. *)
Theorem output_after_init :
  forall T find_1st_number py_int str_num fmt_1f n (s0 s : Gen.state T) t0
         status channel print_changes output_config,
    GenMethods.init T find_1st_number py_int n s0 = (Returns tt, s, t0) ->
    Gen.reliable T ->
    Gen.in_range n (GenMethods.front channel) = true ->
    GenMethods.arg (GenMethods.kw_duty_cycle output_config) = None ->
    (is_Some (GenMethods.arg (GenMethods.kw_symmetry output_config)) ->
     exists x, GenMethods.arg (GenMethods.kw_waveform output_config) = Some x /\
               fst (Gen.normalize x) = "RAMP") ->
    Gen.nchannels T s = n /\ writes t0 = [] /\
    exists s' t ws,
      GenMethods.output T str_num fmt_1f status channel print_changes output_config s
        = (Returns tt, s', t) /\
      writes t = ws ++ [GenMethods.STAT (GenMethods.front channel) status] /\
      Gen.config_item T (GenMethods.front channel) "Status" s'
        = (Returns (VBool status), s', []).
Proof.
  intros T f py_int str_num fmt_1f n s0 s t0 status channel pc kw
    Hinit Hrel Hrange Hduty Hsym.
  apply GenMethods.gen_init_inv in Hinit as (idn & cfg & tq & _ & Hget & -> & ->).
  split; [reflexivity|]. split.
  { destruct (GenMethods.get_config_output_read_only T f py_int _ _ _ _ Hget) as [_ Hw].
    rewrite writes_app, Hw. reflexivity. }
  set (ch := GenMethods.front channel) in *.
  set (s := Gen.set_config T cfg (GenMethods.with_nchannels T n s0)).
  apply GenMethods.get_config_output_inv in Hget as (_ & _ & Hin & _).
  destruct (Hin ch) as (d & Hstate & Hd).
  { apply list_elem_of_In. unfold Gen.in_range in Hrange.
    apply bool_decide_eq_true_1 in Hrange. exact Hrange. }
  destruct (GenMethods.channel_state_fields T f py_int _ _ _ _ Hstate)
    as (Hbasic & _ & Hsymmetry).
  assert (Heff : Gen.effective (Gen.nchannels T s) ch = ch)
    by (unfold Gen.effective; simpl; rewrite Hrange; reflexivity).
  assert (Hd' : Gen.config_output T s !! inl (Gen.effective (Gen.nchannels T s) ch)
                = Some (inl d)) by (rewrite Heff; exact Hd).
  assert (Ht : exists w, Gen.target d (GenMethods.arg (GenMethods.kw_waveform kw)) = Some w).
  { destruct (GenMethods.arg (GenMethods.kw_waveform kw)) as [x|]; simpl; [eauto|].
    apply Hbasic. left. reflexivity. }
  destruct Ht as [w Ht].
  destruct (Gen.re_config_output_returns T str_num fmt_1f ch
              (GenMethods.arg (GenMethods.kw_waveform kw))
              (GenMethods.arg (GenMethods.kw_frequency kw))
              (GenMethods.arg (GenMethods.kw_amplitude kw))
              (GenMethods.arg (GenMethods.kw_offset kw))
              (GenMethods.arg (GenMethods.kw_phase kw))
              (GenMethods.arg (GenMethods.kw_duty_cycle kw))
              (GenMethods.arg (GenMethods.kw_symmetry kw))
              pc s d w Hd' Ht Hrel) as (s1 & t1 & Hrun).
  { unfold Gen.steps. apply Forall_app. split; [apply Gen.basic_steps_passed, Hbasic|].
    apply List.Forall_cons; [|apply List.Forall_cons; [|apply List.Forall_nil]].
    - rewrite Hduty. intros [x Hx]. discriminate Hx.
    - intros Hreq. simpl in Hreq.
      assert (Hgiven : is_Some (GenMethods.arg (GenMethods.kw_symmetry kw))).
      { destruct (GenMethods.arg (GenMethods.kw_symmetry kw)); [eauto|].
        destruct Hreq as [x Hx]. discriminate Hx. }
      destruct (Hsym Hgiven) as (x & Hx & Hramp).
      rewrite Hx in Ht. simpl in Ht. injection Ht as <-. rewrite Hramp.
      split; [reflexivity|exact Hsymmetry]. }
  destruct (GenMethods.re_config_output_frame T str_num fmt_1f _ _ _ _ _ _ _ _ _ _ _ _ _
              Hrun) as (_ & _ & _ & Hch).
  rewrite Hd' in Hch. destruct Hch as (d1 & Hd1 & _). rewrite Heff in Hd1.
  rewrite GenMethods.output_eq. unfold GenMethods.reconfigured. fold ch.
  rewrite Hrun. cbv zeta.
  destruct (dev_write T (Gen.gen T s1) (GenMethods.STAT ch status)) as [g|] eqn:Hwr;
    [|exfalso; exact (Hrel _ _ Hwr)].
  rewrite Hd1. eexists _, _, (writes t1). split; [reflexivity|]. split.
  - rewrite !writes_app. destruct (GenMethods.preamble_silent channel kw) as [-> _].
    reflexivity.
  - rewrite Gen.config_item_eq. unfold Gen.store. simpl.
    rewrite !lookup_insert_eq. reflexivity.
Qed.

Lemma output_after_init_witness :
  exists s t0 s' t,
    GenMethods.init Lab.T2 Bench.first_number Bench.int_of 1
      (Lab.unplugged Lab.T2 ([] : dev Lab.T2)) = (Returns tt, s, t0) /\
    GenMethods.output Lab.T2 Bench.show Bench.show true 1 false Lab.falling_ramp s
    = (Returns tt, s', t) /\
    writes t = ["SOUR1:VOLT:LEV:IMM:AMPL 2/1"; "SOUR1:FUNC:RAMP:SYMM 0/1"; "OUTP1:STAT 1"] /\
    Gen.config_item Lab.T2 1 "Status" s' = (Returns (VBool true), s', []).
Proof.
  destruct (GenMethods.init Lab.T2 Bench.first_number Bench.int_of 1
              (Lab.unplugged Lab.T2 ([] : dev Lab.T2))) as [[r s] t0] eqn:Hinit.
  assert (Hr : r = Returns tt)
    by (vm_compute in Hinit; injection Hinit as <- _ _; reflexivity).
  subst r. exists s, t0.
  destruct (output_after_init Lab.T2 Bench.first_number Bench.int_of Bench.show Bench.show
              1 (Lab.unplugged Lab.T2 ([] : dev Lab.T2)) s t0 true 1 false
              Lab.falling_ramp Hinit)
    as (_ & _ & s' & t & ws & Hrun & Hw & Hstatus).
  - intros g cmd. discriminate.
  - reflexivity.
  - reflexivity.
  - intros _. exists "ramp". split; reflexivity.
  - exists s', t. split; [reflexivity|]. split; [exact Hrun|].
    split; [|exact Hstatus].
    vm_compute in Hinit. injection Hinit as <- <-.
    vm_compute in Hrun. injection Hrun as <- <-. reflexivity.
Defined.

(** X17: the configuration [get_config_output] returns has at most one
    key that is not a channel number, ['Duty Cycle'], and it holds the
    answer of the last channel, in the order 1 to [nchannels], whose
    duty-cycle query is answered: with two channels that answer, the
    answer of channel 1 is overwritten by that of channel 2. *)
Theorem duty_cycle_of_last_channel :
  forall T find_1st_number py_int (s : Gen.state T) cfg s' t,
    Gen.get_config_output T find_1st_number py_int s = (Returns cfg, s', t) ->
    cfg !! inr "Duty Cycle" =
      (fun n => inr (VNum (Finite n))) <$>
        GenMethods.last_answered T find_1st_number s
          (Gen.channel_range (Gen.nchannels T s)) None /\
    forall k, k <> "Duty Cycle" -> cfg !! inr k = None.
Proof.
  intros T f py_int s cfg s' t H.
  apply GenMethods.get_config_output_inv in H as (_ & _ & _ & _ & Htop).
  split.
  - rewrite Htop.
    destruct (GenMethods.last_answered T f s (Gen.channel_range (Gen.nchannels T s)) None);
      reflexivity.
  - intros k Hk. rewrite Htop. apply String.eqb_neq in Hk. rewrite Hk.
    destruct (GenMethods.last_answered T f s (Gen.channel_range (Gen.nchannels T s)) None);
      reflexivity.
Qed.

Lemma duty_cycle_of_last_channel_witness :
  exists cfg s' t,
    Gen.get_config_output Lab.T3 Bench.first_number Bench.int_of Lab.gen3
      = (Returns cfg, s', t) /\
    GenMethods.parsed Lab.T3 Bench.first_number Lab.gen3 "SOUR1:PULS:DCYC?" = Some 30%Q /\
    cfg !! inr "Duty Cycle" = Some (inr (VNum 70)).
Proof.
  eexists _, _, _. split; [reflexivity|]. split; [reflexivity|].
  edestruct (duty_cycle_of_last_channel Lab.T3 Bench.first_number Bench.int_of Lab.gen3)
    as [Htop _]; [reflexivity|].
  rewrite Htop. reflexivity.
Defined.

(** X18: [output] called a second time with the same arguments, after it
    has returned, when none of the numbers given is nan (nor, when no
    waveform is given, the cached waveform): there is nothing left to
    reconfigure, so the call sends the command that switches the output
    and no other, asks nothing, and leaves the cache as it is; it returns,
    unless the device refuses that command. *)
Theorem output_again :
  forall T str_num fmt_1f status channel print_changes output_config
         (s s' : Gen.state T) t,
    GenMethods.output T str_num fmt_1f status channel print_changes output_config s
      = (Returns tt, s', t) ->
    GenMethods.no_nan output_config ->
    (GenMethods.kw_waveform output_config = None \/
     GenMethods.kw_waveform output_config = Some None ->
     Gen.waveform_not_nan T s
       (Gen.effective (Gen.nchannels T s) (GenMethods.front channel))) ->
    forall r2 s2 t2,
      GenMethods.output T str_num fmt_1f status channel print_changes output_config s'
        = (r2, s2, t2) ->
      writes t2 = [GenMethods.STAT (GenMethods.front channel) status] /\
      queries t2 = [] /\
      Gen.config_output T s2 = Gen.config_output T s' /\
      (r2 = Returns tt \/ r2 = Raises VisaIOError).
Proof.
  intros T str_num fmt_1f status channel pc kw s s' t Hfirst Hargs Hwave r2 s2 t2.
  destruct (GenMethods.output_again_eq T str_num fmt_1f _ _ _ _ _ _ _ Hfirst Hargs Hwave)
    as (t0 & Hw & Hq & ->).
  destruct (dev_write T (Gen.gen T s') _) as [g|]; intros [= <- <- <-];
    rewrite writes_app, queries_app, Hw, Hq; auto.
Qed.

Lemma output_again_witness :
  exists s' t s2 t2,
    GenMethods.output Bench.T0 Bench.show Bench.show true 1 false Lab.square_50 Bench.gen0
      = (Returns tt, s', t) /\
    writes t = ["SOUR1:FUNC:SHAP PULS"; "SOUR1:FREQ 50/1"; "OUTP1:STAT 1"] /\
    GenMethods.output Bench.T0 Bench.show Bench.show true 1 false Lab.square_50 s'
      = (Returns tt, s2, t2) /\
    writes t2 = ["OUTP1:STAT 1"].
Proof.
  eexists _, _, _, _. split; [reflexivity|]. split; [reflexivity|].
  split; [reflexivity|].
  edestruct (output_again Bench.T0 Bench.show Bench.show true 1 false Lab.square_50
               Bench.gen0) as (Hw & _); [reflexivity| | |reflexivity|].
  - repeat constructor; discriminate.
  - intros [H|H]; discriminate H.
  - exact Hw.
Defined.

(** ** Measuring *)

(** X9: the value [measure] returns is what the device answers to
    ['MEASU:IMM:VAL?'], asked once the measurement is reconfigured, read as
    a [float].  The call has sent the commands of the reconfiguration and
    no other, has asked the source, the type, the value and the units in
    this order, and leaves a cache that holds what the device answers. *)
Theorem measure_value :
  forall T find_1st_number py_float str_float mtype channel print_result
         (s : Osci.state T) v s' t,
    OsciMethods.measure T find_1st_number py_float str_float mtype channel
      print_result s = (Returns v, s', t) ->
    (exists ans, dev_query T (Osci.osci T s') "MEASU:IMM:VAL?" = Some ans /\
                 py_float ans = Some v) /\
    queries t = ["MEASU:IMM:SOU?"; "MEASU:IMM:TYP?"; "MEASU:IMM:VAL?"; "MEASU:IMM:UNI?"] /\
    OsciMethods.mirrors T find_1st_number s' /\
    exists t1,
      Osci.re_config_measure T find_1st_number mtype channel s = (Returns tt, s', t1) /\
      writes t = writes t1.
Proof.
  intros T f py_float str_float mtype channel pr s v s' t H.
  apply OsciMethods.measure_inv in H as (t1 & ans & units & Hre & Hval & Hv & Huni & ->).
  destruct (Osci.re_config_measure_returns T f _ _ _ _ _ Hre)
    as (aux & src & typ & tw & _ & _ & _ & _ & Hq & Hread & _).
  split; [eauto|]. split; [|split; [exact Hread|]].
  - rewrite !queries_app, Hq. destruct pr; reflexivity.
  - exists t1. split; [exact Hre|].
    rewrite !writes_app. destruct pr; simpl; rewrite app_nil_r; reflexivity.
Qed.

Lemma measure_value_witness :
  exists s' t,
    OsciMethods.measure Lab.scope Bench.first_number Lab.float_of Bench.show "min" 1 true
      Lab.scope_osci = (Returns 5%Q, s', t) /\
    writes t = ["MEASU:IMM:SOU CH1"; "MEASU:IMM:TYP MINI"] /\
    queries t = ["MEASU:IMM:SOU?"; "MEASU:IMM:TYP?"; "MEASU:IMM:VAL?"; "MEASU:IMM:UNI?"] /\
    OsciMethods.mirrors Lab.scope Bench.first_number s'.
Proof.
  eexists _, _. split; [reflexivity|]. split; [reflexivity|].
  edestruct (measure_value Lab.scope Bench.first_number Lab.float_of Bench.show "min" 1
               true Lab.scope_osci) as (_ & Hq & Hm & _); [reflexivity|].
  split; [exact Hq|exact Hm].
Defined.

(** X10: [get_config_screen] asks the five values of the waveform preamble
    and drops them: when it returns, its result is the one
    [get_config_measure] gives on the same instance, the source and the
    type of the measurement.  It raises [ValueError] when the preamble does
    not come as five values, having asked nothing else; and however it ends
    it has sent no command and has left the instance as it was. *)
Theorem get_config_screen_is_measure :
  forall T find_1st_number ascii_values (s : Osci.state T) r s' t,
    OsciMethods.get_config_screen T find_1st_number ascii_values s = (r, s', t) ->
    s' = s /\ writes t = [] /\
    (forall c, r = Returns c ->
       Osci.get_config_measure T find_1st_number s
         = (Returns c, s, [Query "MEASU:IMM:SOU?"; Query "MEASU:IMM:TYP?"]) /\
       t = [Query "WFMPRE:XZE?;XIN?;YZE?;YMU?;YOFF?;";
            Query "MEASU:IMM:SOU?"; Query "MEASU:IMM:TYP?"]) /\
    (forall a vs,
       dev_query T (Osci.osci T s) "WFMPRE:XZE?;XIN?;YZE?;YMU?;YOFF?;" = Some a ->
       ascii_values a = Returns vs ->
       length vs <> 5%nat ->
       (exists msg, r = Raises (ValueError msg)) /\
       t = [Query "WFMPRE:XZE?;XIN?;YZE?;YMU?;YOFF?;"]).
Proof.
  intros T f av s r s' t H.
  destruct (OsciMethods.get_config_screen_read_only T f av _ _ _ _ H) as [-> Hw].
  split; [reflexivity|]. split; [exact Hw|]. split.
  - intros c ->. apply OsciMethods.get_config_screen_inv in H as (_ & Hget & Ht & _).
    auto.
  - intros a vs Ha Hvs Hlen. rewrite OsciMethods.get_config_screen_eq, Ha, Hvs in H.
    apply Nat.eqb_neq in Hlen. rewrite Hlen in H. injection H as <- <-.
    split; [eauto|reflexivity].
Qed.

Lemma get_config_screen_is_measure_witness :
  exists c t,
    OsciMethods.get_config_screen Lab.scope Bench.first_number Lab.numbers Lab.scope_osci
      = (Returns c, Lab.scope_osci, t) /\
    Osci.get_config_measure Lab.scope Bench.first_number Lab.scope_osci
      = (Returns c, Lab.scope_osci, [Query "MEASU:IMM:SOU?"; Query "MEASU:IMM:TYP?"]) /\
    c = <["Type" := VStr "MINI"]> (<["Source" := VNum 1]> ∅).
Proof.
  eexists _, _. split; [reflexivity|].
  edestruct (get_config_screen_is_measure Lab.scope Bench.first_number Lab.numbers
               Lab.scope_osci) as (_ & _ & Hret & _); [reflexivity|].
  destruct (Hret _ eq_refl) as [Hget _]. split; [exact Hget|reflexivity].
Defined.

(** X11: when [Osci.__init__] returns, it has sent the two commands of the
    general configuration and no other, it has asked the identity, then the
    source and the type, then the preamble, then the source and the type
    again; [config_measure] holds what the device answers now, and
    [config_screen] holds the same. *)
Theorem osci_init_mirrors :
  forall T find_1st_number ascii_values (s0 : Osci.state T) screen s t,
    OsciMethods.init T find_1st_number ascii_values s0 = (Returns screen, s, t) ->
    OsciMethods.mirrors T find_1st_number s /\
    screen = Osci.config_measure T s /\
    writes t = ["DAT:ENC RPB"; "DAT:WID 1"] /\
    queries t = ["*IDN?"; "MEASU:IMM:SOU?"; "MEASU:IMM:TYP?";
                 "WFMPRE:XZE?;XIN?;YZE?;YMU?;YOFF?;";
                 "MEASU:IMM:SOU?"; "MEASU:IMM:TYP?"].
Proof. intros. eapply OsciMethods.osci_init_inv. eassumption. Qed.

Lemma osci_init_mirrors_witness :
  exists screen s t,
    OsciMethods.init Lab.scope Bench.first_number Lab.numbers
      (Lab.unplugged_osci Lab.scope ([] : dev Lab.scope)) = (Returns screen, s, t) /\
    Osci.osci Lab.scope s = (["DAT:ENC RPB"; "DAT:WID 1"] : dev Lab.scope) /\
    screen = Osci.config_measure Lab.scope s /\
    writes t = ["DAT:ENC RPB"; "DAT:WID 1"].
Proof.
  eexists _, _, _. split; [reflexivity|]. split; [reflexivity|].
  edestruct (osci_init_mirrors Lab.scope Bench.first_number Lab.numbers
               (Lab.unplugged_osci Lab.scope ([] : dev Lab.scope)))
    as (_ & Hscreen & Hw & _); [reflexivity|].
  split; [exact Hscreen|exact Hw].
Defined.

(** X12: a call of [re_config_measure] that raises leaves [config_measure]
    as it was, also when the device has taken commands of the call before;
    a call of [measure] that raises leaves it as it was, or holding what the
    device answers now. *)
Theorem failed_measure_keeps_cache :
  (forall T find_1st_number mtype channel (s : Osci.state T) e s' t,
     Osci.re_config_measure T find_1st_number mtype channel s = (Raises e, s', t) ->
     Osci.config_measure T s' = Osci.config_measure T s) /\
  (forall T find_1st_number py_float str_float mtype channel print_result
          (s : Osci.state T) e s' t,
     OsciMethods.measure T find_1st_number py_float str_float mtype channel
       print_result s = (Raises e, s', t) ->
     Osci.config_measure T s' = Osci.config_measure T s \/
     OsciMethods.mirrors T find_1st_number s').
Proof.
  split.
  - intros. eapply OsciMethods.re_config_measure_raises. eassumption.
  - intros. eapply OsciMethods.measure_raises. eassumption.
Qed.

Lemma failed_measure_keeps_cache_witness :
  exists s' t,
    Osci.re_config_measure Lab.mute Bench.first_number "min" 1 Lab.mute_osci
      = (Raises VisaIOError, s', t) /\
    writes t = ["MEASU:IMM:TYP MINI"] /\
    Osci.osci Lab.mute s' = (["MEASU:IMM:TYP MINI"] : dev Lab.mute) /\
    Osci.config_measure Lab.mute s' !! "Type" = Some (VStr "FREQ").
Proof.
  eexists _, _. split; [reflexivity|]. split; [reflexivity|]. split; [reflexivity|].
  erewrite (proj1 failed_measure_keeps_cache Lab.mute Bench.first_number "min" 1
              Lab.mute_osci); [|reflexivity].
  reflexivity.
Defined.

(** ** The tokens the recognizers return *)

Lemma prefix_is_in k w : String.prefix k w = true -> is_in k w = true.
Proof. destruct w; simpl; intros ->; reflexivity. Qed.

(** A string that contains [k] after some character contains [k]. *)
Lemma is_in_tail a k w : is_in (String a k) w = true -> is_in k w = true.
Proof.
  induction w as [|b w IH]; [discriminate|].
  cbn [is_in]. intros H. apply orb_true_iff in H as [H|H].
  - cbn [String.prefix] in H. destruct (ascii_dec a b); [|discriminate].
    rewrite (prefix_is_in _ _ H). apply orb_true_r.
  - rewrite (IH H). apply orb_true_r.
Qed.

(** A string that contains a key contains its first character. *)
Lemma is_in_head a k w :
  is_in (String a k) w = true -> is_in (String a EmptyString) w = true.
Proof.
  induction w as [|b w IH]; [discriminate|].
  cbn [is_in]. intros H. apply orb_true_iff in H as [H|H].
  - cbn [String.prefix] in *. destruct (ascii_dec a b); [|discriminate].
    destruct w; reflexivity.
  - rewrite (IH H). apply orb_true_r.
Qed.

Lemma last_cases {A : Type} (l : list A) : l = [] \/ exists pre x, l = pre ++ [x].
Proof. destruct l as [|x l] using rev_ind; eauto. Qed.

(** X13: the recognizers only return tokens of their tables.  The one of
    the measurement type prints nothing, so its default ['FREQ'] is never
    applied: it returns a token of its table or raises on the unbound
    [aux].  Both take every input with a ['c'] in it to the tokens of the
    ['c'] branch, whatever keys the input contains, and those tokens come
    from nowhere else. *)
Theorem recognized_tokens :
  (forall T mtype (s : Osci.state T) r s' t,
     Osci.recognize T mtype s = (r, s', t) ->
     s' = s /\ t = [] /\
     ((r = Raises (UnboundLocalError "aux") /\
       is_in "c" (lower mtype) = false /\ matching (lower mtype) Osci.dic = []) \/
      (exists tok, r = Returns tok /\ In tok (values Osci.dic) /\
         (is_in "c" (lower mtype) = true <-> tok = "CRM" \/ tok = "CMEAN")))) /\
  (forall T channel x (s : Gen.state T),
     exists tok,
       Gen.recognize T channel (Some x) s
         = (Returns (VStr tok), s, snd (Gen.normalize x)) /\
       In tok (values Gen.dic) /\
       (is_in "c" (lower x) = true <-> tok = "SINC")).
Proof.
  split.
  - intros T mtype s r s' t. unfold Osci.recognize.
    destruct (is_in "c" (lower mtype)) eqn:Hc.
    + change (item Osci.dic "crms") with (Some "CRM").
      change (item Osci.dic "cmean") with (Some "CMEAN").
      destruct (is_in "rms" (lower mtype)); intros [= <- <- <-];
        (split; [reflexivity|]); (split; [reflexivity|]); right;
        eexists; (split; [reflexivity|]); (split; [|tauto]);
        unfold values, Osci.dic; cbn [map snd In]; tauto.
    + destruct (last_cases (matching (lower mtype) Osci.dic))
        as [Hm|(pre & [k v] & Hm)].
      * rewrite (Osci.scan_no_match _ _ _ Hm). intros [= <- <- <-].
        split; [reflexivity|]. split; [reflexivity|]. left. auto.
      * rewrite (Osci.scan_last_match _ _ _ _ _ _ Hm),
          (Osci.matching_in_values _ _ _ _ _ Hm). cbn [negb].
        intros [= <- <- <-]. split; [reflexivity|]. split; [reflexivity|]. right.
        assert (Hin : In (k, v) Osci.dic /\ is_in k (lower mtype) = true).
        { assert (H : In (k, v) (matching (lower mtype) Osci.dic))
            by (rewrite Hm; apply in_or_app; right; left; reflexivity).
          apply filter_In in H. exact H. }
        destruct Hin as [Hin Hk].
        exists v. split; [reflexivity|]. split; [apply (in_map snd) in Hin; exact Hin|].
        split; [discriminate|]. intros Hv. exfalso.
        simpl in Hin.
        repeat (destruct Hin as [[= <- <-]|Hin];
                [destruct Hv as [Hv|Hv]; try discriminate Hv;
                 apply is_in_head in Hk; congruence|]).
        destruct Hin.
  - intros T channel x s. rewrite Gen.recognize_Some.
    exists (fst (Gen.normalize x)). split; [reflexivity|].
    destruct (is_in "c" (lower x)) eqn:Hc.
    + unfold Gen.normalize. rewrite Hc. simpl. tauto.
    + destruct (matching (lower x) Gen.dic) as [|[k tok] rest] eqn:Hm.
      * rewrite (Gen.normalize_default _ Hc Hm). simpl.
        split; [tauto|]. split; discriminate.
      * rewrite (Gen.normalize_first_match _ _ _ _ Hc Hm). simpl fst.
        assert (Hin : In (k, tok) Gen.dic /\ is_in k (lower x) = true).
        { assert (H : In (k, tok) (matching (lower x) Gen.dic))
            by (rewrite Hm; left; reflexivity).
          apply filter_In in H. exact H. }
        destruct Hin as [Hin Hk].
        split; [apply (in_map snd) in Hin; exact Hin|].
        split; [discriminate|]. intros Hv. exfalso.
        simpl in Hin.
        repeat (destruct Hin as [[= <- <-]|Hin];
                [try discriminate Hv;
                 do 3 apply is_in_tail in Hk; congruence|]).
        destruct Hin.
Qed.

Lemma recognized_tokens_witness :
  Osci.recognize Bench.T0 "Frequency" Bench.osci0 = (Returns "CMEAN", Bench.osci0, []) /\
  In "CMEAN" (values Osci.dic) /\
  is_in "c" (lower "Frequency") = true.
Proof.
  split; [reflexivity|].
  destruct (proj1 recognized_tokens Bench.T0 "Frequency" Bench.osci0
              (Returns "CMEAN") Bench.osci0 [] eq_refl)
    as (_ & _ & [(H & _)|(tok & Hr & Hin & Hc)]); [discriminate H|].
  injection Hr as <-. split; [exact Hin|]. apply Hc. right. reflexivity.
Defined.

(** ** Saving without overwriting ([fwp_save.py]) *)

(** *** More on strings *)

Lemma append_cons c (a b : string) : String c a +:+ b = String c (a +:+ b).
Proof. reflexivity. Qed.

Lemma append_nil_r (s : string) : s +:+ "" = s.
Proof.
  induction s as [|c s IH]; [reflexivity|]. rewrite append_cons, IH. reflexivity.
Qed.

Lemma append_assoc (a b c : string) : (a +:+ b) +:+ c = a +:+ (b +:+ c).
Proof.
  induction a as [|x a IH]; [reflexivity|]. rewrite !append_cons, IH. reflexivity.
Qed.

Lemma append_length (a b : string) :
  String.length (a +:+ b) = (String.length a + String.length b)%nat.
Proof.
  induction a as [|x a IH]; [reflexivity|]. rewrite append_cons. simpl.
  rewrite IH. reflexivity.
Qed.

Lemma append_inv_tail (a b e : string) : a +:+ e = b +:+ e -> a = b.
Proof.
  revert b. induction a as [|x a IH]; intros [|y b] H.
  - reflexivity.
  - apply (f_equal String.length) in H. rewrite !append_length in H. simpl in H. lia.
  - apply (f_equal String.length) in H. rewrite !append_length in H. simpl in H. lia.
  - rewrite !append_cons in H. injection H as -> H. f_equal. apply IH, H.
Qed.

Lemma prefix_append (a s : string) : String.prefix a (a +:+ s) = true.
Proof.
  induction a as [|x a IH]; [destruct s; reflexivity|].
  rewrite append_cons. simpl. destruct (ascii_dec x x); [exact IH|congruence].
Qed.

Module Save.

(** **** [new_name] *)

Section NewName.

(** The paths that exist, for [os.path.exists]. *)
Context (existing : gset string).
(** [os.path.splitext], of Python's library. *)
Context (splitext : string -> string * string).

(** [base + newseparator + str(i) + extension] *)
Definition candidate (base newseparator extension : string) (i : Z) : string :=
  base +:+ newseparator +:+ pretty i +:+ extension.

(** The loop [while os.path.exists(name)], for at most [fuel] tests of the
    condition; [None] when they do not suffice. *)
Fixpoint new_name_loop (fuel : nat) (base newseparator extension : string)
    (i : Z) (name : string) : option string :=
  match fuel with
  | O => None
  | S fuel' =>
      if bool_decide (name ∈ existing) then
        new_name_loop fuel' base newseparator extension (i + 1)
          (candidate base newseparator extension i)
      else Some name
  end.

Definition new_name (fuel : nat) (name newseparator : string) : option string :=
  let '(base, extension) := splitext name in
  new_name_loop fuel base newseparator extension 2 name.

Lemma candidate_inj base newseparator extension i j :
  candidate base newseparator extension i = candidate base newseparator extension j ->
  i = j.
Proof.
  unfold candidate. intros H. do 2 apply append_inv_head in H.
  apply append_inv_tail in H. apply (inj pretty) in H. exact H.
Qed.

(** Candidates that all exist are no more than the paths that exist. *)
Lemma candidates_bounded base newseparator extension (k : nat) :
  (forall j : nat, (j < k)%nat ->
     candidate base newseparator extension (2 + Z.of_nat j) ∈ existing) ->
  (k <= size existing)%nat.
Proof.
  intros H.
  set (f := fun j : nat => candidate base newseparator extension (2 + Z.of_nat j)).
  assert (Hinj : Inj (=) (=) f).
  { intros a b Hab. apply candidate_inj in Hab. lia. }
  assert (Hnd : NoDup (f <$> seq 0 k)) by (apply (NoDup_fmap_2 f), NoDup_seq).
  assert (Hsub : (list_to_set (f <$> seq 0 k) : gset string) ⊆ existing).
  { intros p Hp. apply elem_of_list_to_set, list_elem_of_fmap in Hp as (j & -> & Hj).
    apply elem_of_seq in Hj. apply H. lia. }
  apply subseteq_size in Hsub. rewrite (size_list_to_set _ Hnd) in Hsub.
  rewrite length_fmap, length_seq in Hsub. exact Hsub.
Qed.

Lemma new_name_loop_spec base newseparator extension :
  forall (fuel k : nat),
  (forall j : nat, (j < k)%nat ->
     candidate base newseparator extension (2 + Z.of_nat j) ∈ existing) ->
  (size existing < fuel + k)%nat ->
  exists m : nat, (k <= m)%nat /\
    new_name_loop fuel base newseparator extension (2 + Z.of_nat k + 1)
      (candidate base newseparator extension (2 + Z.of_nat k))
    = Some (candidate base newseparator extension (2 + Z.of_nat m)) /\
    (candidate base newseparator extension (2 + Z.of_nat m) ∉ existing) /\
    forall j : nat, (j < m)%nat ->
      candidate base newseparator extension (2 + Z.of_nat j) ∈ existing.
Proof.
  induction fuel as [|fuel IH]; intros k Hk Hsize.
  - apply candidates_bounded in Hk. lia.
  - simpl. destruct (bool_decide _) eqn:Hin.
    + apply bool_decide_eq_true_1 in Hin.
      destruct (IH (S k)) as (m & Hm & Hrun & Hfree & Hbelow).
      * intros j Hj. destruct (decide (j = k)) as [->|Hne]; [exact Hin|].
        apply Hk. lia.
      * lia.
      * exists m. split; [lia|]. split; [|auto].
        rewrite <- Hrun. f_equal; [lia|]. f_equal. lia.
    + apply bool_decide_eq_false_1 in Hin. exists k. auto.
Qed.

(** With enough tests the loop ends, and however many more are allowed
    the result is the same: the name itself when it does not exist, else
    the first candidate, counting from 2, that does not exist. *)
Lemma new_name_spec name newseparator :
  exists r,
    (forall fuel, (size existing + 2 <= fuel)%nat ->
       new_name fuel name newseparator = Some r) /\
    (r ∉ existing) /\
    (name ∉ existing -> r = name) /\
    (name ∈ existing ->
     exists i, 2 <= i /\
       r = candidate (fst (splitext name)) newseparator (snd (splitext name)) i /\
       forall j, 2 <= j < i ->
         candidate (fst (splitext name)) newseparator (snd (splitext name)) j ∈ existing).
Proof.
  unfold new_name. destruct (splitext name) as [base extension]. simpl.
  destruct (decide (name ∈ existing)) as [Hin|Hout].
  - destruct (new_name_loop_spec base newseparator extension (S (size existing)) 0)
      as (m & _ & _ & Hfree & Hbelow); [intros j Hj; lia|lia|].
    exists (candidate base newseparator extension (2 + Z.of_nat m)).
    split; [|split; [exact Hfree|split; [intros Hout; contradiction|]]].
    + intros [|fuel] Hfuel; [lia|]. simpl.
      rewrite (bool_decide_eq_true_2 _ Hin).
      destruct (new_name_loop_spec base newseparator extension fuel 0)
        as (m' & _ & Hrun & Hfree' & Hbelow'); [intros j Hj; lia|lia|].
      change (2 + Z.of_nat 0) with 2 in Hrun. rewrite Hrun.
      destruct (Nat.lt_trichotomy m m') as [Hlt|[->|Hlt]]; [|reflexivity|].
      * exfalso. apply Hfree, Hbelow', Hlt.
      * exfalso. apply Hfree', Hbelow, Hlt.
    + intros _. exists (2 + Z.of_nat m). split; [lia|]. split; [reflexivity|].
      intros j Hj. replace j with (2 + Z.of_nat (Z.to_nat (j - 2))) by lia.
      apply Hbelow. lia.
  - exists name. split; [|split; [exact Hout|split; [reflexivity|contradiction]]].
    intros [|fuel] Hfuel; [lia|]. simpl.
    rewrite (bool_decide_eq_false_2 _ Hout). reflexivity.
Qed.

End NewName.

(** **** [retrieve_header] *)

Definition newline : string := String "010" EmptyString.
Definition tab : string := String "009" EmptyString.

(** Python's [s.split(sep)] for a separator that is not empty: the pieces
    of [s] between the occurrences of [sep], found from left to right.
    [skip] counts the characters of an occurrence still to pass, [piece]
    holds the piece read so far. *)
Fixpoint split_from (sep s : string) (skip : nat) (piece : string) : list string :=
  match s with
  | EmptyString => [piece]
  | String c s' =>
      match skip with
      | S k => split_from sep s' k piece
      | O =>
          if String.prefix sep s then
            piece :: split_from sep s' (String.length sep - 1) EmptyString
          else split_from sep s' 0 (piece +:+ String c EmptyString)
      end
  end.

Definition split (sep s : string) : list string := split_from sep s 0 EmptyString.

(** Python's [sep.join(l)]. *)
Fixpoint join (sep : string) (l : list string) : string :=
  match l with
  | [] => EmptyString
  | x :: rest =>
      match rest with
      | [] => x
      | _ :: _ => x +:+ sep +:+ join sep rest
      end
  end.

(** What [retrieve_header] returns: a list of columns, or one string. *)
Inductive header : Type :=
  | Columns (l : list string)
  | Single (s : string).

(** [retrieve_header], on the lines that reading the file gives. *)
Definition retrieve_header (lines : list string) (comment_marker : string)
    : outcome header :=
  match lines with
  | [] => Raises (UnboundLocalError "first_line")
  | first_line :: _ =>
      match first_line with
      | EmptyString => Raises (OtherError "IndexError")
      | String c _ =>
          if String.eqb (String c EmptyString) comment_marker then
            let header := List.last (split (comment_marker +:+ " ") first_line)
                            EmptyString in
            let header := hd EmptyString (split newline header) in
            let header := split tab header in
            if (1 <? length header)%nat then Returns (Columns header)
            else Returns (Single (hd EmptyString header))
          else Raises (ValueError "No header found. Sorry!")
      end
  end.

(** The text [savetxt] hands to NumPy for a header: the columns joined by
    tabs, or the string as it is. *)
Definition header_text (header : list string + string) : string :=
  match header with
  | inl columns => join tab columns
  | inr text => text
  end.

(** *** Splitting *)

Lemma split_from_skip sep a s piece :
  split_from sep (a +:+ s) (String.length a) piece = split_from sep s 0 piece.
Proof.
  induction a as [|c a IH]; [reflexivity|]. rewrite append_cons. simpl. exact IH.
Qed.

(** No occurrence of the separator: one piece. *)
Lemma split_from_none sep s piece :
  is_in sep s = false -> split_from sep s 0 piece = [piece +:+ s].
Proof.
  revert piece. induction s as [|c s IH]; intros piece H.
  - simpl. rewrite append_nil_r. reflexivity.
  - cbn [is_in] in H. apply orb_false_iff in H as [Hp Hs].
    cbn [split_from]. rewrite Hp, (IH _ Hs), append_assoc. reflexivity.
Qed.

(** An occurrence of the separator at the start: the piece ends there. *)
Lemma split_from_match sep s piece :
  sep <> EmptyString ->
  split_from sep (sep +:+ s) 0 piece = piece :: split_from sep s 0 EmptyString.
Proof.
  intros Hsep. destruct sep as [|c sep]; [congruence|].
  rewrite append_cons. cbn [split_from].
  rewrite <- append_cons, prefix_append. f_equal.
  replace (String.length (String c sep) - 1)%nat with (String.length sep)
    by (simpl; lia).
  apply split_from_skip.
Qed.

(** A separator of one character is not in a text it passes over. *)
Lemma split_from_pass c x s piece :
  is_in (String c EmptyString) x = false ->
  split_from (String c EmptyString) (x +:+ s) 0 piece =
  split_from (String c EmptyString) s 0 (piece +:+ x).
Proof.
  revert piece. induction x as [|a x IH]; intros piece H.
  - rewrite append_nil_r. reflexivity.
  - cbn [is_in] in H. apply orb_false_iff in H as [Hp Hx].
    rewrite append_cons. cbn [split_from].
    assert (Hp' : String.prefix (String c EmptyString) (String a (x +:+ s)) = false).
    { simpl in Hp |- *. destruct (ascii_dec c a); [|reflexivity].
      destruct x; discriminate Hp. }
    rewrite Hp', (IH _ Hx), append_assoc. reflexivity.
Qed.

Lemma split_join c columns :
  columns <> [] ->
  (forall x, In x columns -> is_in (String c EmptyString) x = false) ->
  split (String c EmptyString) (join (String c EmptyString) columns) = columns.
Proof.
  unfold split. induction columns as [|x rest IH]; intros Hne H; [congruence|].
  destruct rest as [|y rest].
  - simpl. rewrite split_from_none by (apply H; left; reflexivity). reflexivity.
  - change (join (String c EmptyString) (x :: y :: rest))
      with (x +:+ String c EmptyString +:+ join (String c EmptyString) (y :: rest)).
    rewrite split_from_pass by (apply H; left; reflexivity).
    rewrite split_from_match by discriminate. f_equal.
    apply IH; [discriminate|]. intros z Hz. apply H. right. exact Hz.
Qed.

Lemma is_in_char_app c a b :
  is_in (String c EmptyString) (a +:+ b)
  = is_in (String c EmptyString) a || is_in (String c EmptyString) b.
Proof.
  induction a as [|x a IH]; [destruct b; reflexivity|].
  rewrite append_cons. cbn [is_in]. rewrite IH, orb_assoc. f_equal.
  simpl. destruct (ascii_dec c x); [|reflexivity].
  destruct a, b; reflexivity.
Qed.

Lemma is_in_char_join c sep columns :
  is_in (String c EmptyString) sep = false ->
  (forall x, In x columns -> is_in (String c EmptyString) x = false) ->
  is_in (String c EmptyString) (join sep columns) = false.
Proof.
  intros Hsep. induction columns as [|x rest IH]; intros H; [reflexivity|].
  destruct rest as [|y rest]; [apply H; left; reflexivity|].
  change (join sep (x :: y :: rest)) with (x +:+ sep +:+ join sep (y :: rest)).
  rewrite !is_in_char_app, Hsep, (H x) by (left; reflexivity). simpl.
  apply IH. intros z Hz. apply H. right. exact Hz.
Qed.

(** The first line NumPy writes for a header text, read back. *)
Lemma retrieve_header_line m body rest :
  is_in newline body = false ->
  is_in (String m " ") (body +:+ newline) = false ->
  retrieve_header ((String m " " +:+ body +:+ newline) :: rest) (String m EmptyString)
  = let columns := split tab body in
    if (1 <? length columns)%nat then Returns (Columns columns)
    else Returns (Single (hd EmptyString columns)).
Proof.
  intros Hnl Hsep.
  assert (H1 : split (String m " ") (String m " " +:+ body +:+ newline)
               = [EmptyString; body +:+ newline]).
  { unfold split.
    change (String m " " +:+ body +:+ newline)
      with (String m " " +:+ (body +:+ newline)).
    rewrite split_from_match by discriminate.
    rewrite (split_from_none _ _ _ Hsep). reflexivity. }
  assert (H2 : split newline (body +:+ newline) = [body; EmptyString]).
  { unfold split, newline in *.
    rewrite split_from_pass by exact Hnl.
    rewrite <- (append_nil_r (String "010" EmptyString)) at 2.
    rewrite split_from_match by discriminate. reflexivity. }
  unfold retrieve_header.
  change (String m " " +:+ body +:+ newline)
    with (String m (" " +:+ body +:+ newline)).
  cbv beta iota zeta. rewrite String.eqb_refl.
  change (String m (" " +:+ body +:+ newline))
    with (String m " " +:+ body +:+ newline).
  change (String m EmptyString +:+ " ") with (String m " ").
  rewrite H1. cbn [List.last]. rewrite H2. reflexivity.
Qed.

End Save.

(** A stand-in for [os.path.splitext]: the text from the last dot on is the
    extension. *)
Module Disk.

Fixpoint at_last_dot (s : string) : option (string * string) :=
  match s with
  | EmptyString => None
  | String c s' =>
      match at_last_dot s' with
      | Some (base, extension) => Some (String c base, extension)
      | None => if Ascii.eqb c "." then Some (EmptyString, s) else None
      end
  end.

Definition splitext (s : string) : string * string :=
  default (s, EmptyString) (at_last_dot s).

(** A directory where two runs have been saved. *)
Definition two_runs : gset string := {[ "run.txt"; "run_2.txt" ]}.

End Disk.

(** X14: [new_name] ends when finitely many paths exist, after at most two
    tests more than there are paths, and its result does not exist: it is
    the name itself when that does not exist, and otherwise the candidate
    [base + newseparator + str(i) + extension] for the least [i], counting
    from 2, whose candidate does not exist. *)
Theorem new_name_free :
  forall (existing : gset string) splitext name newseparator,
  exists r,
    (forall fuel, (size existing + 2 <= fuel)%nat ->
       Save.new_name existing splitext fuel name newseparator = Some r) /\
    (r ∉ existing) /\
    (name ∉ existing -> r = name) /\
    (name ∈ existing ->
     exists i, 2 <= i /\
       r = Save.candidate (fst (splitext name)) newseparator (snd (splitext name)) i /\
       forall j, 2 <= j < i ->
         Save.candidate (fst (splitext name)) newseparator (snd (splitext name)) j
           ∈ existing).
Proof. intros. apply Save.new_name_spec. Qed.

Lemma new_name_free_witness :
  Save.new_name Disk.two_runs Disk.splitext 4 "run.txt" "_" = Some "run_3.txt" /\
  "run_3.txt" ∉ Disk.two_runs.
Proof.
  destruct (new_name_free Disk.two_runs Disk.splitext "run.txt" "_")
    as (r & Hrun & Hfree & _).
  assert (Hr : Save.new_name Disk.two_runs Disk.splitext 4 "run.txt" "_" = Some r)
    by (apply Hrun; vm_compute; lia).
  assert (Hc : Save.new_name Disk.two_runs Disk.splitext 4 "run.txt" "_"
               = Some "run_3.txt") by (vm_compute; reflexivity).
  rewrite Hc in Hr. injection Hr as <-. split; [reflexivity|exact Hfree].
Defined.

(** X15: the header that [savetxt] joins with tabs comes back from
    [retrieve_header].  When the first line of the file is the marker, a
    space, the columns joined by tabs and a newline, and no column holds a
    tab or a newline nor the text the marker followed by a space, the
    result is the list of the columns when there are two or more, and the
    column itself, as a string and not as a list, when there is one. *)
Theorem retrieve_header_reads_back :
  forall m columns rest,
    columns <> [] ->
    (forall x, In x columns ->
       is_in Save.tab x = false /\ is_in Save.newline x = false) ->
    is_in (String m " ") (Save.header_text (inl columns) +:+ Save.newline) = false ->
    Save.retrieve_header
      ((String m " " +:+ Save.header_text (inl columns) +:+ Save.newline) :: rest)
      (String m EmptyString)
    = Returns (match columns with
               | [x] => Save.Single x
               | _ => Save.Columns columns
               end).
Proof.
  intros m columns rest Hne Hcols Hsep. simpl Save.header_text in *.
  rewrite Save.retrieve_header_line; [|
    apply Save.is_in_char_join; [reflexivity|intros x Hx; apply Hcols, Hx] | exact Hsep].
  cbv zeta. unfold Save.tab.
  rewrite Save.split_join; [|exact Hne|intros x Hx; apply Hcols, Hx].
  destruct columns as [|x [|y l]]; [congruence|reflexivity|reflexivity].
Qed.

Lemma retrieve_header_reads_back_witness :
  Save.retrieve_header
    [ "# " +:+ Save.header_text (inl ["Time (s)"; "Voltage (V)"]) +:+ Save.newline;
      "0.0" +:+ Save.tab +:+ "1.5" +:+ Save.newline ] "#"
  = Returns (Save.Columns ["Time (s)"; "Voltage (V)"]).
Proof.
  apply (retrieve_header_reads_back "#" ["Time (s)"; "Voltage (V)"]).
  - discriminate.
  - intros x [<-|[<-|[]]]; split; reflexivity.
  - reflexivity.
Defined.

(** X16: [retrieve_header] returns only when the file has a first line,
    the marker is one character and the line starts with it.  On a file
    without lines it raises [UnboundLocalError] on [first_line]; on a first
    line that starts otherwise, and on every marker that is not one
    character long, it raises [ValueError("No header found. Sorry!")]. *)
Theorem retrieve_header_rejects :
  (forall m, Save.retrieve_header [] m = Raises (UnboundLocalError "first_line")) /\
  (forall lines m h,
     Save.retrieve_header lines m = Returns h ->
     exists c line rest, lines = String c line :: rest /\ m = String c EmptyString) /\
  (forall c line rest m,
     m <> String c EmptyString ->
     Save.retrieve_header (String c line :: rest) m
     = Raises (ValueError "No header found. Sorry!")).
Proof.
  split; [reflexivity|]. split.
  - intros lines m h. unfold Save.retrieve_header.
    destruct lines as [|[|c line] rest]; try discriminate.
    destruct (String.eqb (String c EmptyString) m) eqn:Heq; [|discriminate].
    apply String.eqb_eq in Heq. intros _. eauto.
  - intros c line rest m Hm. unfold Save.retrieve_header.
    destruct (String.eqb (String c EmptyString) m) eqn:Heq; [|reflexivity].
    apply String.eqb_eq in Heq. congruence.
Qed.

Lemma retrieve_header_rejects_witness :
  Save.retrieve_header ["% a" +:+ Save.newline] "#"
  = Raises (ValueError "No header found. Sorry!") /\
  Save.retrieve_header ["// a" +:+ Save.newline] "//"
  = Raises (ValueError "No header found. Sorry!").
Proof.
  destruct retrieve_header_rejects as (_ & _ & H).
  split; apply H; discriminate.
Defined.

